(** * orch: control channel, process supervisor and termios negotiation

    A shallow embedding of the core of [contrib/orch] (orch_ipc.c,
    orch_spawn.c, orch_lua.c, orch_tty.c, orch_compat.c) and the
    properties of its specification.

    Each C process is single threaded.  One process is modelled by a
    [world]: the objects it owns (the channel object, the process handle,
    the termios snapshots) together with the part of the operating system
    it can observe (what the control socket and the pty deliver, how the
    child reacts to signals).  C functions become functions in the monad
    [M]; loops take a [fuel] argument.  Undefined behaviour (null
    dereference, use after free, out-of-bounds index, failed assertion) is
    an explicit [Fault] outcome. *)

From Stdlib Require Import ZArith List Lia Bool String Ascii.
From Stdlib Require Import Strings.Byte.
From stdpp Require Import base list gmap strings.

Set Warnings "-register-all".
Open Scope Z_scope.

(** ** Message tags ([enum orch_ipc_tag], orch_lib.h) *)

Definition IPC_NOXMIT : Z := 0.
Definition IPC_RELEASE : Z := 1.
Definition IPC_ERROR : Z := 2.
Definition IPC_TERMIOS_INQUIRY : Z := 3.
Definition IPC_TERMIOS_SET : Z := 4.
Definition IPC_TERMIOS_ACK : Z := 5.
Definition IPC_LAST : Z := 6.

(** ** Terminal attributes ([struct termios], [struct orch_term])

    The four flag words are [tcflag_t] (32-bit unsigned), the control
    characters [cc_t] (8-bit unsigned), [NCCS] of them. *)

Record termios := {
  c_iflag : Z;
  c_oflag : Z;
  c_cflag : Z;
  c_lflag : Z;
  c_cc : list Z;
  c_ispeed : Z;
  c_ospeed : Z }.

Record orch_term := {
  term : termios;
  initialized : bool }.

(** ** Messages ([struct orch_ipc_header], [struct orch_ipc_msg])

    A message object is its tag and its payload bytes; [hdr.size] is
    [sizeof(hdr)] plus the payload length, which is what
    [orch_ipc_msg_alloc] writes and what [orch_ipc_drain] has read by the
    time a message is queued. *)

Record orch_ipc_msg := {
  msg_tag : Z;
  msg_data : list byte }.

(** [sizeof(struct orch_ipc_header)] and [sizeof(struct orch_ipc_msg)] on
    an LP64 platform: a [size_t], an [int]-sized enum and padding. *)
Definition sizeof_hdr : Z := 16.
Definition sizeof_msg : Z := 16.
Definition SIZE_MODULUS : Z := 2 ^ 64.

Definition IPC_MSG_SIZE (payloadsz : Z) : Z := sizeof_msg + payloadsz.
Definition IPC_MSG_HDR_SIZE (payloadsz : Z) : Z := sizeof_hdr + payloadsz.
Definition hdr_size (m : orch_ipc_msg) : Z :=
  IPC_MSG_HDR_SIZE (Z.of_nat (length (msg_data m))).
Definition IPC_MSG_PAYLOAD_SIZE (m : orch_ipc_msg) : Z := hdr_size m - sizeof_hdr.

(** Native (little-endian) layout of the header on the wire. *)
Definition byte_of_Z (z : Z) : byte :=
  match Byte.of_N (Z.to_N (z mod 256)) with
  | Some b => b
  | None => Byte.x00
  end.

Definition Z_of_byte (b : byte) : Z := Z.of_N (Byte.to_N b).

Fixpoint le_bytes (n : nat) (z : Z) : list byte :=
  match n with
  | O => []
  | S k => byte_of_Z z :: le_bytes k (z / 256)
  end.

Fixpoint le_value (bs : list byte) : Z :=
  match bs with
  | [] => 0
  | b :: rest => Z_of_byte b + 256 * le_value rest
  end.

Definition signed32 (v : Z) : Z := if v <? 2 ^ 31 then v else v - 2 ^ 32.

Definition encode_hdr (size tag : Z) : list byte :=
  le_bytes 8 size ++ le_bytes 4 tag ++ le_bytes 4 0.

(** [decode_hdr bs] is [(hdr.size, hdr.tag)] for the 16 bytes [bs]. *)
Definition decode_hdr (bs : list byte) : Z * Z :=
  (le_value (take 8 bs), signed32 (le_value (take 4 (drop 8 bs)))).

(** ** The channel ([struct orch_ipc]) *)

(** The handlers that the program registers ([orch_ipc_handler *]); the
    cookie of each is fixed by its one registration site. *)
Inductive orch_ipc_handler :=
  | fn_orchlua_child_error          (* cookie: the process handle *)
  | fn_orchlua_process_term_set     (* cookie: &sterm of orchlua_process_term *)
  | fn_orch_child_termios_inquiry   (* cookie: the child's termios *)
  | fn_orch_child_termios_set.      (* cookie: the child's termios *)

(** [callbacks] has [IPC_LAST - 1] entries, [None] is a NULL handler; the
    linked list [head .. tail] is a list, head first. *)
Record orch_ipc := {
  callbacks : list (option orch_ipc_handler);
  queue : list orch_ipc_msg;
  sockfd : Z }.

(** An [orch_ipc_t] is NULL or the address of the process's one channel
    object; whether that object is still allocated is in the world. *)
Inductive orch_ipc_t := NULL | ChanPtr.

(** ** The process handle ([struct orch_process]) *)

Record orch_process := {
  p_term : option orch_term;
  p_ipc : orch_ipc_t;
  p_pid : Z;
  p_status : Z;
  p_termctl : Z;
  p_released : bool;
  p_eof : bool;
  p_error : bool }.

(** ** The environment *)

(** [ENONE] is an [errno] of zero. *)
Inductive errno := ENONE | EAGAIN | EINTR | EIO | EINVAL | ENOMEM | EBADF | ECHILD.

(** What one [read] returns: an error, or the bytes delivered (at most as
    many as were asked for are taken, the rest stays for the next read);
    no bytes is a zero-length read. *)
Inductive rd_ret := RdErr (e : errno) | RdData (bs : list byte).

(** What one [select] without a timeout returns, and what one with a
    timeout returns. *)
Inductive sel_ret := SelReady | SelIntr | SelFail.
Inductive pty_sel_ret := PtyReady | PtyTimeout | PtyIntr | PtyFail.

(** What one [write] returns: an error, or the number of bytes taken. *)
Inductive wr_ret := WrErr (e : errno) | WrSome (k : nat).

(** The control socket as this process sees it: the results of the coming
    reads, selects and writes, and the bytes it has written so far.  When
    [s_rd] is used up the peer stays silent: a read finds nothing and a
    select never returns.  When [s_wr] is used up every write is taken
    whole. *)
Record sock_env := {
  s_rd : list rd_ret;
  s_sel : list sel_ret;
  s_wr : list wr_ret;
  s_out : list byte }.

(** The child process as [kill] and [waitpid] see it. *)
Inductive child_state :=
  | Running
  | Zombie (status : Z)
  | Reaped.

Record os_env := {
  o_alloc : list bool;          (* results of the coming allocations, then success *)
  o_junk : list byte;           (* contents of uninitialised stack memory *)
  o_child : child_state;
  o_sigint : option Z;          (* exit status if SIGINT ends the child in time *)
  o_pty_sel : list pty_sel_ret;    (* results of select on the pty master *)
  o_pty_rd : list rd_ret;       (* results of read on the pty master *)
  o_clock : list Z;             (* results of time(NULL) *)
  o_tcset_fail : bool;          (* tcsetattr fails *)
  o_tty : termios;              (* attributes of the child's terminal *)
  o_sys : list bool;            (* results of the coming setup calls, then success *)
  o_alarm : bool }.             (* an alarm is armed *)

Inductive event :=
  | EvClose (fd : Z)
  | EvShutdown (fd : Z)
  | EvReadEof (fd : Z)
  | EvFreeIpc
  | EvFreeMsg (m : orch_ipc_msg)
  | EvHandler (h : orch_ipc_handler) (m : orch_ipc_msg)
  | EvKill (pid sig : Z)
  | EvWaitpid (pid : Z) (nohang : bool) (ret : Z)
  | EvAlarm (secs : Z)
  | EvSigaction (signo : Z) (dfl : bool)
  | EvTcsetattr (t : termios)
  | EvStderr (bs : list byte)
  | EvCallback (data : option (list byte)).

Record world := {
  w_chan : option orch_ipc;     (* the channel object, None once freed *)
  w_proc : orch_process;
  w_sterm : orch_term;
  w_child_t : termios;
  w_sock : sock_env;
  w_os : os_env;
  w_errno : errno;
  w_trace : list event }.

Definition with_chan (c : option orch_ipc) (w : world) : world :=
  {| w_chan := c; w_proc := w_proc w; w_sterm := w_sterm w;
     w_child_t := w_child_t w; w_sock := w_sock w; w_os := w_os w;
     w_errno := w_errno w; w_trace := w_trace w |}.

Definition with_proc (p : orch_process) (w : world) : world :=
  {| w_chan := w_chan w; w_proc := p; w_sterm := w_sterm w;
     w_child_t := w_child_t w; w_sock := w_sock w; w_os := w_os w;
     w_errno := w_errno w; w_trace := w_trace w |}.

Definition with_sterm (t : orch_term) (w : world) : world :=
  {| w_chan := w_chan w; w_proc := w_proc w; w_sterm := t;
     w_child_t := w_child_t w; w_sock := w_sock w; w_os := w_os w;
     w_errno := w_errno w; w_trace := w_trace w |}.

Definition with_child_t (t : termios) (w : world) : world :=
  {| w_chan := w_chan w; w_proc := w_proc w; w_sterm := w_sterm w;
     w_child_t := t; w_sock := w_sock w; w_os := w_os w;
     w_errno := w_errno w; w_trace := w_trace w |}.

Definition with_sock (s : sock_env) (w : world) : world :=
  {| w_chan := w_chan w; w_proc := w_proc w; w_sterm := w_sterm w;
     w_child_t := w_child_t w; w_sock := s; w_os := w_os w;
     w_errno := w_errno w; w_trace := w_trace w |}.

Definition with_os (o : os_env) (w : world) : world :=
  {| w_chan := w_chan w; w_proc := w_proc w; w_sterm := w_sterm w;
     w_child_t := w_child_t w; w_sock := w_sock w; w_os := o;
     w_errno := w_errno w; w_trace := w_trace w |}.

Definition with_errno (e : errno) (w : world) : world :=
  {| w_chan := w_chan w; w_proc := w_proc w; w_sterm := w_sterm w;
     w_child_t := w_child_t w; w_sock := w_sock w; w_os := w_os w;
     w_errno := e; w_trace := w_trace w |}.

Definition log (ev : event) (w : world) : world :=
  {| w_chan := w_chan w; w_proc := w_proc w; w_sterm := w_sterm w;
     w_child_t := w_child_t w; w_sock := w_sock w; w_os := w_os w;
     w_errno := w_errno w; w_trace := w_trace w ++ [ev] |}.

(** ** The monad *)

Inductive fault :=
  | NullDeref
  | UseAfterFree
  | OutOfBounds (index : Z)
  | AssertFail (what : string)
  | HeapOverflow.

Inductive outcome (A : Type) :=
  | Ok (a : A) (w : world)
  | Fault (f : fault) (w : world)      (* undefined behaviour or abort() *)
  | Blocked (w : world)                (* a select that never returns *)
  | Exited (code : Z) (w : world)      (* _exit *)
  | Execed (argv : list string) (w : world)
  | OutOfFuel.

Arguments Ok {A} a w.
Arguments Fault {A} f w.
Arguments Blocked {A} w.
Arguments Exited {A} code w.
Arguments Execed {A} argv w.
Arguments OutOfFuel {A}.

Definition M (A : Type) : Type := world -> outcome A.

Definition ret {A} (a : A) : M A := fun w => Ok a w.

Definition bind {A B} (m : M A) (k : A -> M B) : M B :=
  fun w =>
    match m w with
    | Ok a w' => k a w'
    | Fault f w' => Fault f w'
    | Blocked w' => Blocked w'
    | Exited c w' => Exited c w'
    | Execed v w' => Execed v w'
    | OutOfFuel => OutOfFuel
    end.

Notation "'do' x <- m ; k" := (bind m (fun x => k))
  (at level 10, x pattern, m at level 100, k at level 200).
Notation "m ;; k" := (bind m (fun _ => k))
  (at level 100, k at level 200, right associativity).

Definition get : M world := fun w => Ok w w.
Definition modify (f : world -> world) : M unit := fun w => Ok tt (f w).
Definition emit (ev : event) : M unit := modify (log ev).
Definition set_errno (e : errno) : M unit := modify (with_errno e).
Definition crash {A} (f : fault) : M A := fun w => Fault f w.
Definition assert (b : bool) (what : string) : M unit :=
  if b then ret tt else crash (AssertFail what).
Definition _exit {A} (code : Z) : M A := fun w => Exited code w.
(** A successful [execvp]. *)
Definition execvp {A} (argv : list string) : M A := fun w => Execed argv w.

(** ** System calls on the control socket *)

Definition set_rd (r : list rd_ret) (s : sock_env) : sock_env :=
  {| s_rd := r; s_sel := s_sel s; s_wr := s_wr s; s_out := s_out s |}.
Definition set_sel (l : list sel_ret) (s : sock_env) : sock_env :=
  {| s_rd := s_rd s; s_sel := l; s_wr := s_wr s; s_out := s_out s |}.
Definition set_wr (l : list wr_ret) (out : list byte) (s : sock_env) : sock_env :=
  {| s_rd := s_rd s; s_sel := s_sel s; s_wr := l; s_out := out |}.

(** [read(fd, buf, n)] *)
Definition sock_read (fd n : Z) : M rd_ret := fun w =>
  if fd <? 0 then Ok (RdErr EBADF) (with_errno EBADF w)
  else
    let s := w_sock w in
    match s_rd s with
    | [] => Ok (RdErr EAGAIN) (with_errno EAGAIN w)
    | RdErr e :: rest => Ok (RdErr e) (with_errno e (with_sock (set_rd rest s) w))
    | RdData bs :: rest =>
        let got := take (Z.to_nat n) bs in
        let rest' := match drop (Z.to_nat n) bs with
                     | [] => rest
                     | more => RdData more :: rest
                     end in
        let w' := with_sock (set_rd rest' s) w in
        Ok (RdData got) (match got with [] => log (EvReadEof fd) w' | _ => w' end)
    end.

(** [select(fd + 1, &rfd, NULL, NULL, NULL)] *)
Definition sock_select (fd : Z) : M sel_ret := fun w =>
  let s := w_sock w in
  match s_sel s with
  | SelIntr :: rest => Ok SelIntr (with_errno EINTR (with_sock (set_sel rest s) w))
  | SelFail :: rest => Ok SelFail (with_errno EBADF (with_sock (set_sel rest s) w))
  | SelReady :: rest => Ok SelReady (with_sock (set_sel rest s) w)
  | [] => match s_rd s with
          | [] => Blocked w
          | _ => Ok SelReady w
          end
  end.

(** [write(fd, buf, length bs)] *)
Definition sock_write (fd : Z) (bs : list byte) : M wr_ret := fun w =>
  if fd <? 0 then Ok (WrErr EBADF) (with_errno EBADF w)
  else
    let s := w_sock w in
    match s_wr s with
    | [] => Ok (WrSome (length bs)) (with_sock (set_wr [] (s_out s ++ bs) s) w)
    | WrErr e :: rest => Ok (WrErr e) (with_errno e (with_sock (set_wr rest (s_out s) s) w))
    | WrSome k :: rest =>
        Ok (WrSome (length (take k bs)))
           (with_sock (set_wr rest (s_out s ++ take k bs) s) w)
    end.

Definition set_alloc (l : list bool) (o : os_env) : os_env :=
  {| o_alloc := l; o_junk := o_junk o; o_child := o_child o;
     o_sigint := o_sigint o; o_pty_sel := o_pty_sel o; o_pty_rd := o_pty_rd o;
     o_clock := o_clock o; o_tcset_fail := o_tcset_fail o; o_tty := o_tty o;
     o_sys := o_sys o; o_alarm := o_alarm o |}.

(** [malloc]/[calloc]: true when the allocation succeeds. *)
Definition malloc : M bool := fun w =>
  match o_alloc (w_os w) with
  | [] => Ok true w
  | true :: rest => Ok true (with_os (set_alloc rest (w_os w)) w)
  | false :: rest => Ok false (with_errno ENOMEM (with_os (set_alloc rest (w_os w)) w))
  end.

(** ** orch_ipc.c *)

Definition set_callbacks (cb : list (option orch_ipc_handler)) (c : orch_ipc) : orch_ipc :=
  {| callbacks := cb; queue := queue c; sockfd := sockfd c |}.
Definition set_queue (q : list orch_ipc_msg) (c : orch_ipc) : orch_ipc :=
  {| callbacks := callbacks c; queue := q; sockfd := sockfd c |}.
Definition set_sockfd (fd : Z) (c : orch_ipc) : orch_ipc :=
  {| callbacks := callbacks c; queue := queue c; sockfd := fd |}.

(** [*ipc] *)
Definition deref (ipc : orch_ipc_t) : M orch_ipc := fun w =>
  match ipc with
  | NULL => Fault NullDeref w
  | ChanPtr =>
      match w_chan w with
      | Some c => Ok c w
      | None => Fault UseAfterFree w
      end
  end.

(** [*ipc = c], after a successful [deref]. *)
Definition store (c : orch_ipc) : M unit := modify (with_chan (Some c)).

Definition orch_ipc_open (fd : Z) : M orch_ipc_t :=
  do ok <- malloc;
  if ok : bool then
    store {| callbacks := replicate 5 None; queue := []; sockfd := fd |};;
    ret ChanPtr
  else ret NULL.

Definition orch_ipc_okay (ipc : orch_ipc_t) : M bool :=
  do c <- deref ipc;
  ret (0 <=? sockfd c).

Definition orch_ipc_msg_tag (m : orch_ipc_msg) : Z := msg_tag m.

(** [orch_ipc_msg_payload]: the payload size, and the payload or [None]
    for the NULL it returns when the payload is empty. *)
Definition orch_ipc_msg_payload (m : orch_ipc_msg) : option (list byte) * Z :=
  let datasz := IPC_MSG_PAYLOAD_SIZE m in
  (if datasz =? 0 then None else Some (msg_data m), datasz).

(** [orch_ipc_msg_alloc]: the payload is zeroed, the caller fills it. *)
Definition orch_ipc_msg_alloc (tag : Z) (payloadsz : nat) : M (option orch_ipc_msg) :=
  assert (negb (tag =? IPC_NOXMIT)) "tag != IPC_NOXMIT";;
  do ok <- malloc;
  if ok : bool then
    ret (Some {| msg_tag := tag; msg_data := replicate payloadsz Byte.x00 |})
  else ret None.

Definition fill (m : orch_ipc_msg) (bs : list byte) : orch_ipc_msg :=
  {| msg_tag := msg_tag m; msg_data := bs |}.

Definition orch_ipc_msg_free (m : option orch_ipc_msg) : M unit :=
  match m with
  | Some m => emit (EvFreeMsg m)
  | None => ret tt
  end.

Fixpoint orch_ipc_poll (fuel : nat) (ipc : orch_ipc_t) : M (Z * bool) :=
  match fuel with
  | O => fun _ => OutOfFuel
  | S fuel =>
      do c <- deref ipc;
      if sockfd c =? -1 then ret (0, true)
      else
        do r <- sock_select (sockfd c);
        match r with
        | SelIntr => orch_ipc_poll fuel ipc
        | SelFail => ret (-1, false)
        | SelReady => ret (1, false)
        end
  end.

(** [orch_ipc_wait]: the second component is what was stored through
    [eof_seen], [None] when nothing was. *)
Definition orch_ipc_wait (fuel : nat) (ipc : orch_ipc_t) : M (Z * option bool) :=
  do c <- deref ipc;
  match queue c with
  | _ :: _ => ret (0, None)
  | [] => do r <- orch_ipc_poll fuel ipc; ret (fst r, Some (snd r))
  end.

(** The [eof:] label of [orch_ipc_drain]. *)
Definition drain_eof (ipc : orch_ipc_t) : M Z :=
  do c <- deref ipc;
  assert (0 <=? sockfd c) "ipc->sockfd >= 0";;
  emit (EvClose (sockfd c));;
  store (set_sockfd (-1) c);;
  ret 0.

Inductive payload_ret :=
  | PayloadDone (data : list byte)
  | PayloadEof
  | PayloadErr.

(** The inner [while (resid != 0)] loop of [orch_ipc_drain]; [acc] is
    [msg->data[0 .. off)]. *)
Fixpoint drain_payload (fuel : nat) (ipc : orch_ipc_t) (tag : Z)
    (acc : list byte) (resid : Z) : M payload_ret :=
  match fuel with
  | O => fun _ => OutOfFuel
  | S fuel =>
      if resid =? 0 then ret (PayloadDone acc)
      else
        do c <- deref ipc;
        do r <- sock_read (sockfd c) resid;
        match r with
        | RdErr EAGAIN =>
            do p <- orch_ipc_poll fuel ipc;
            if fst p =? -1 then
              emit (EvFreeMsg {| msg_tag := tag; msg_data := acc |});;
              ret PayloadErr
            else drain_payload fuel ipc tag acc resid
        | RdErr _ =>
            emit (EvFreeMsg {| msg_tag := tag; msg_data := acc |});;
            ret PayloadErr
        | RdData [] =>
            emit (EvFreeMsg {| msg_tag := tag; msg_data := acc |});;
            ret PayloadEof
        | RdData bs =>
            drain_payload fuel ipc tag (acc ++ bs) (resid - Z.of_nat (length bs))
        end
  end.

(** The [for (;;)] loop of [orch_ipc_drain]; [hdrbuf] is the memory of the
    local [hdr], which a short read overwrites only in part. *)
Fixpoint drain_loop (fuel : nat) (ipc : orch_ipc_t) (hdrbuf : list byte) : M Z :=
  match fuel with
  | O => fun _ => OutOfFuel
  | S fuel =>
      do c <- deref ipc;
      do r <- sock_read (sockfd c) sizeof_hdr;
      match r with
      | RdErr EAGAIN => ret 0
      | RdErr _ => ret (-1)
      | RdData [] => drain_eof ipc
      | RdData bs =>
          let hdrbuf := bs ++ drop (length bs) hdrbuf in
          let '(size, tag) := decode_hdr hdrbuf in
          if (size <? sizeof_hdr) || (tag =? IPC_NOXMIT) then
            set_errno EINVAL;; ret (-1)
          else
            do ok <- malloc;
            if negb ok then ret (-1)
            else if SIZE_MODULUS <=? IPC_MSG_SIZE size then crash HeapOverflow
            else
              do ok <- malloc;
              if negb ok then
                emit (EvFreeMsg {| msg_tag := tag; msg_data := [] |});;
                set_errno ENOMEM;; ret (-1)
              else
                do p <- drain_payload fuel ipc tag [] (size - sizeof_hdr);
                match p with
                | PayloadErr => ret (-1)
                | PayloadEof => drain_eof ipc
                | PayloadDone data =>
                    do c <- deref ipc;
                    store (set_queue
                             (queue c ++ [{| msg_tag := tag; msg_data := data |}]) c);;
                    drain_loop fuel ipc hdrbuf
                end
      end
  end.

Definition orch_ipc_drain (fuel : nat) (ipc : orch_ipc_t) : M Z :=
  do ok <- orch_ipc_okay ipc;
  if negb ok then ret 0
  else
    do w <- get;
    drain_loop fuel ipc (o_junk (w_os w)).

(** The payload loop of [orch_ipc_send]; [rest] is [msg->data[off ..]]. *)
Fixpoint send_payload (fuel : nat) (ipc : orch_ipc_t) (rest : list byte) : M Z :=
  match fuel with
  | O => fun _ => OutOfFuel
  | S fuel =>
      match rest with
      | [] => ret 0
      | _ =>
          do c <- deref ipc;
          do r <- sock_write (sockfd c) rest;
          match r with
          | WrErr EAGAIN => send_payload fuel ipc rest
          | WrErr _ => ret (-1)
          | WrSome k => send_payload fuel ipc (drop k rest)
          end
      end
  end.

Fixpoint orch_ipc_send (fuel : nat) (ipc : orch_ipc_t) (msg : orch_ipc_msg) : M Z :=
  match fuel with
  | O => fun _ => OutOfFuel
  | S fuel =>
      do e <- orch_ipc_drain fuel ipc;
      if negb (e =? 0) then ret (-1)
      else
        do c <- deref ipc;
        do r <- sock_write (sockfd c) (encode_hdr (hdr_size msg) (msg_tag msg));
        match r with
        | WrErr EAGAIN => orch_ipc_send fuel ipc msg
        | WrErr _ => ret (-1)
        | WrSome k =>
            if Z.of_nat k <? sizeof_hdr then set_errno EIO;; ret (-1)
            else send_payload fuel ipc (msg_data msg)
        end
  end.

Definition orch_ipc_send_nodata (fuel : nat) (ipc : orch_ipc_t) (tag : Z) : M Z :=
  orch_ipc_send fuel ipc {| msg_tag := tag; msg_data := [] |}.

(** [&ipc->callbacks[tag - 1]]: the index, when it lies in the table. *)
Definition callback_slot (c : orch_ipc) (tag : Z) : M nat :=
  if (0 <=? tag - 1) && (tag - 1 <? Z.of_nat (length (callbacks c)))
  then ret (Z.to_nat (tag - 1))
  else crash (OutOfBounds (tag - 1)).

Definition orch_ipc_register (ipc : orch_ipc_t) (tag : Z)
    (handler : option orch_ipc_handler) : M Z :=
  do c <- deref ipc;
  do i <- callback_slot c tag;
  store (set_callbacks (<[i := handler]> (callbacks c)) c);;
  ret 0.

(** ** The termios record on the wire

    [memcpy] of a [struct termios]: four flag words, [NCCS] control
    characters, two speeds. *)

Definition NCCS : nat := 20.
Definition sizeof_termios : Z := 44.

Definition encode_termios (t : termios) : list byte :=
  le_bytes 4 (c_iflag t) ++ le_bytes 4 (c_oflag t) ++
  le_bytes 4 (c_cflag t) ++ le_bytes 4 (c_lflag t) ++
  map byte_of_Z (take NCCS (c_cc t ++ replicate NCCS 0)) ++
  le_bytes 4 (c_ispeed t) ++ le_bytes 4 (c_ospeed t).

Definition decode_termios (bs : list byte) : termios :=
  {| c_iflag := le_value (take 4 bs);
     c_oflag := le_value (take 4 (drop 4 bs));
     c_cflag := le_value (take 4 (drop 8 bs));
     c_lflag := le_value (take 4 (drop 12 bs));
     c_cc := map Z_of_byte (take NCCS (drop 16 bs));
     c_ispeed := le_value (take 4 (drop 36 bs));
     c_ospeed := le_value (take 4 (drop 40 bs)) |}.

(** ** Handlers and dispatch *)

Definition set_error (b : bool) (p : orch_process) : orch_process :=
  {| p_term := p_term p; p_ipc := p_ipc p; p_pid := p_pid p;
     p_status := p_status p; p_termctl := p_termctl p;
     p_released := p_released p; p_eof := p_eof p; p_error := b |}.

Definition set_tty (t : termios) (o : os_env) : os_env :=
  {| o_alloc := o_alloc o; o_junk := o_junk o; o_child := o_child o;
     o_sigint := o_sigint o; o_pty_sel := o_pty_sel o; o_pty_rd := o_pty_rd o;
     o_clock := o_clock o; o_tcset_fail := o_tcset_fail o; o_tty := t;
     o_sys := o_sys o; o_alarm := o_alarm o |}.

(** orch_lua.c *)
Definition orchlua_child_error (msg : orch_ipc_msg) : M Z :=
  let '(_, datasz) := orch_ipc_msg_payload msg in
  (if negb (datasz =? 0) then emit (EvStderr (msg_data msg)) else ret tt);;
  modify (fun w => with_proc (set_error true (w_proc w)) w);;
  ret 0.

(** orch_lua.c *)
Definition orchlua_process_term_set (msg : orch_ipc_msg) : M Z :=
  match orch_ipc_msg_payload msg with
  | (Some child_termios, datasz) =>
      if negb (datasz =? sizeof_termios) then set_errno EINVAL;; ret (-1)
      else
        modify (with_sterm {| term := decode_termios child_termios;
                              initialized := true |});;
        ret 0
  | (None, _) => set_errno EINVAL;; ret (-1)
  end.

Section Handlers.

(** [orch_ipc_close], which [orch_child_error] calls and which itself
    dispatches queued messages. *)
Variable ipc_close : orch_ipc_t -> M Z.
Variable fuel : nat.

(** orch_spawn.c; [text] is the formatted string.  Does not return. *)
Definition orch_child_error {A} (ipc : orch_ipc_t) (text : list byte) : M A :=
  do ok <- malloc;
  (if ok : bool then
     do errmsg <- orch_ipc_msg_alloc IPC_ERROR (length text + 1);
     match errmsg with
     | Some m =>
         let m := fill m (text ++ [Byte.x00]) in
         orch_ipc_send fuel ipc m;;
         orch_ipc_msg_free (Some m)
     | None => ret tt
     end
   else ret tt);;
  ipc_close ipc;;
  _exit 1.

(** orch_spawn.c *)
Definition orch_child_termios_inquiry (ipc : orch_ipc_t) : M Z :=
  do m <- orch_ipc_msg_alloc IPC_TERMIOS_SET (Z.to_nat sizeof_termios);
  match m with
  | None => set_errno EINVAL;; ret (-1)
  | Some m =>
      do w <- get;
      let m := fill m (encode_termios (w_child_t w)) in
      do error <- orch_ipc_send fuel ipc m;
      orch_ipc_msg_free (Some m);;
      ret error
  end.

(** orch_spawn.c *)
Definition orch_child_termios_set (ipc : orch_ipc_t) (msg : orch_ipc_msg) : M Z :=
  match orch_ipc_msg_payload msg with
  | (Some updated_termios, datasz) =>
      if negb (datasz =? sizeof_termios) then set_errno EINVAL;; ret (-1)
      else
        modify (with_child_t (decode_termios updated_termios));;
        do w <- get;
        (if o_tcset_fail (w_os w)
         then orch_child_error ipc (list_byte_of_string "tcsetattr")
         else
           emit (EvTcsetattr (w_child_t w));;
           modify (fun w => with_os (set_tty (w_child_t w) (w_os w)) w));;
        orch_ipc_send_nodata fuel ipc IPC_TERMIOS_ACK
  | (None, _) => set_errno EINVAL;; ret (-1)
  end.

(** The call through [reg->handler], with [reg->cookie]. *)
Definition call_handler (h : orch_ipc_handler) (ipc : orch_ipc_t)
    (msg : orch_ipc_msg) : M Z :=
  match h with
  | fn_orchlua_child_error => orchlua_child_error msg
  | fn_orchlua_process_term_set => orchlua_process_term_set msg
  | fn_orch_child_termios_inquiry => orch_child_termios_inquiry ipc
  | fn_orch_child_termios_set => orch_child_termios_set ipc msg
  end.

End Handlers.

(** The [while (ipc->sockfd != -1 && error == 0)] loop of [orch_ipc_close]. *)
Fixpoint close_drain (fuel : nat) (ipc : orch_ipc_t) (error : Z) : M Z :=
  match fuel with
  | O => fun _ => OutOfFuel
  | S fuel =>
      do c <- deref ipc;
      if negb (sockfd c =? -1) && (error =? 0) then
        orch_ipc_wait fuel ipc;;
        do error <- orch_ipc_drain fuel ipc;
        close_drain fuel ipc error
      else ret error
  end.

(** [orch_ipc_close], given [orch_ipc_pop(ipc, NULL)]. *)
Definition ipc_close_body (pop : orch_ipc_t -> M (Z * option orch_ipc_msg))
    (fuel : nat) (ipc : orch_ipc_t) : M Z :=
  match ipc with
  | NULL => ret 0
  | ChanPtr =>
      do c <- deref ipc;
      (if negb (sockfd c =? -1) then
         emit (EvShutdown (sockfd c));;
         close_drain fuel ipc 0;;
         do c <- deref ipc;
         if negb (sockfd c =? -1) then
           emit (EvClose (sockfd c));;
           store (set_sockfd (-1) c)
         else ret tt
       else ret tt);;
      do r <- pop ipc;
      do c <- deref ipc;
      assert (match queue c with [] => true | _ => false end) "ipc->head == NULL";;
      emit EvFreeIpc;;
      modify (with_chan None);;
      ret (fst r)
  end.

(** [orch_ipc_pop(ipc, omsg)]; [want] is [omsg != NULL], and the second
    component of the result is what was stored through [omsg]. *)
Fixpoint orch_ipc_pop (fuel : nat) (ipc : orch_ipc_t) (want : bool)
    : M (Z * option orch_ipc_msg) :=
  match fuel with
  | O => fun _ => OutOfFuel
  | S fuel =>
      do c <- deref ipc;
      match queue c with
      | [] => ret (0, None)
      | msg :: rest =>
          store (set_queue rest c);;
          do i <- callback_slot c (msg_tag msg);
          match default None (callbacks c !! i) with
          | Some h =>
              emit (EvHandler h msg);;
              do error <- call_handler
                            (ipc_close_body (fun i => orch_ipc_pop fuel i false) fuel)
                            fuel h ipc msg;
              emit (EvFreeMsg msg);;
              if negb (error =? 0) then ret (-1, None)
              else orch_ipc_pop fuel ipc want
          | None =>
              if want then ret (0, Some msg)
              else
                emit (EvFreeMsg msg);;
                orch_ipc_pop fuel ipc want
          end
      end
  end.

Definition orch_ipc_close (fuel : nat) (ipc : orch_ipc_t) : M Z :=
  ipc_close_body (fun i => orch_ipc_pop fuel i false) fuel ipc.

Definition orch_ipc_recv (fuel : nat) (ipc : orch_ipc_t)
    : M (Z * option orch_ipc_msg) :=
  do e <- orch_ipc_drain fuel ipc;
  if negb (e =? 0) then ret (-1, None)
  else
    do r <- orch_ipc_pop fuel ipc true;
    if fst r =? 0 then ret (0, snd r) else ret (fst r, None).

(** ** Processes and signals *)

Definition SIGINT : Z := 2.
Definition SIGKILL : Z := 9.
Definition SIGALRM : Z := 14.

(** The wait status: the low seven bits are the terminating signal. *)
Definition WTERMSIG (status : Z) : Z := Z.land status 127.
Definition WIFSIGNALED (status : Z) : bool :=
  negb (WTERMSIG status =? 0) && negb (WTERMSIG status =? 127).

Definition set_child (c : child_state) (o : os_env) : os_env :=
  {| o_alloc := o_alloc o; o_junk := o_junk o; o_child := c;
     o_sigint := o_sigint o; o_pty_sel := o_pty_sel o; o_pty_rd := o_pty_rd o;
     o_clock := o_clock o; o_tcset_fail := o_tcset_fail o; o_tty := o_tty o;
     o_sys := o_sys o; o_alarm := o_alarm o |}.

Definition set_alarm (b : bool) (o : os_env) : os_env :=
  {| o_alloc := o_alloc o; o_junk := o_junk o; o_child := o_child o;
     o_sigint := o_sigint o; o_pty_sel := o_pty_sel o; o_pty_rd := o_pty_rd o;
     o_clock := o_clock o; o_tcset_fail := o_tcset_fail o; o_tty := o_tty o;
     o_sys := o_sys o; o_alarm := b |}.

Definition set_sys (l : list bool) (o : os_env) : os_env :=
  {| o_alloc := o_alloc o; o_junk := o_junk o; o_child := o_child o;
     o_sigint := o_sigint o; o_pty_sel := o_pty_sel o; o_pty_rd := o_pty_rd o;
     o_clock := o_clock o; o_tcset_fail := o_tcset_fail o; o_tty := o_tty o;
     o_sys := l; o_alarm := o_alarm o |}.

(** [kill(pid, sig)]: SIGKILL ends a running child; SIGINT ends it when
    the child lets it. *)
Definition sys_kill (pid sig : Z) : M unit :=
  emit (EvKill pid sig);;
  modify (fun w =>
    let o := w_os w in
    match o_child o with
    | Running =>
        if sig =? SIGKILL then with_os (set_child (Zombie SIGKILL) o) w
        else if sig =? SIGINT then
          match o_sigint o with
          | Some status => with_os (set_child (Zombie status) o) w
          | None => w
          end
        else w
    | _ => w
    end).

(** [waitpid(pid, &status, nohang ? WNOHANG : 0)]: the return value and
    the status stored.  A blocking wait for a running child ends when the
    armed alarm interrupts it. *)
Definition sys_waitpid (pid : Z) (nohang : bool) : M (Z * option Z) := fun w =>
  let o := w_os w in
  match o_child o with
  | Zombie status =>
      Ok (pid, Some status) (log (EvWaitpid pid nohang pid) (with_os (set_child Reaped o) w))
  | Running =>
      if nohang then Ok (0, None) (log (EvWaitpid pid nohang 0) w)
      else if o_alarm o then
        Ok (-1, None)
           (log (EvWaitpid pid nohang (-1)) (with_errno EINTR (with_os (set_alarm false o) w)))
      else Blocked w
  | Reaped =>
      Ok (-1, None) (log (EvWaitpid pid nohang (-1)) (with_errno ECHILD w))
  end.

Definition sys_alarm (secs : Z) : M unit :=
  emit (EvAlarm secs);;
  modify (fun w => with_os (set_alarm (negb (secs =? 0)) (w_os w)) w).

(** A setup call of the child (setsid, ptsname, open, tcsetsid, tcgetattr,
    execvp): true when it succeeds. *)
Definition sys_call : M bool := fun w =>
  match o_sys (w_os w) with
  | [] => Ok true w
  | b :: rest => Ok b (with_os (set_sys rest (w_os w)) w)
  end.

(** ** orch_spawn.c *)

Fixpoint orch_wait (fuel : nat) (ipc : orch_ipc_t) : M Z :=
  match fuel with
  | O => fun _ => OutOfFuel
  | S fuel =>
      do r <- orch_ipc_wait fuel ipc;
      if fst r =? -1 then ret (-1)
      else if default false (snd r) then ret 0
      else
        do m <- orch_ipc_recv fuel ipc;
        if negb (fst m =? 0) then ret (-1)
        else
          match snd m with
          | None => orch_wait fuel ipc
          | Some msg =>
              let stop := orch_ipc_msg_tag msg =? IPC_RELEASE in
              orch_ipc_msg_free (Some msg);;
              if stop then ret 0 else orch_wait fuel ipc
          end
  end.

Definition orch_release (fuel : nat) (ipc : orch_ipc_t) : M Z :=
  orch_ipc_send_nodata fuel ipc IPC_RELEASE.

(** Does not return: the child exits or executes [argv]. *)
Definition orch_exec {A} (fuel : nat) (ipc : orch_ipc_t) (argv : list string) : M A :=
  emit (EvSigaction SIGINT true);;
  orch_ipc_register ipc IPC_TERMIOS_INQUIRY (Some fn_orch_child_termios_inquiry);;
  orch_ipc_register ipc IPC_TERMIOS_SET (Some fn_orch_child_termios_set);;
  do e <- orch_release fuel ipc;
  if negb (e =? 0) then _exit 1
  else
    do error <- orch_wait fuel ipc;
    orch_ipc_close fuel ipc;;
    if negb (error =? 0) then _exit 1
    else
      do ok <- sys_call;
      if ok : bool then execvp argv else _exit 1.

Definition orch_newsess (fuel : nat) (ipc : orch_ipc_t) : M unit :=
  do ok <- sys_call;
  if ok : bool then ret tt
  else orch_child_error (orch_ipc_close fuel) fuel ipc (list_byte_of_string "setsid").

(** The terminal is made the child's; [t] is read with [tcgetattr]. *)
Definition orch_usept (fuel : nat) (ipc : orch_ipc_t) : M unit :=
  let fail text := orch_child_error (orch_ipc_close fuel) fuel ipc
                     (list_byte_of_string text) in
  do ok <- sys_call;
  if negb ok then fail "ptsname" else
  do ok <- sys_call;
  if negb ok then fail "open" else
  do ok <- sys_call;
  if negb ok then fail "tcsetsid" else
  do ok <- sys_call;
  if negb ok then fail "tcgetattr" else
  modify (fun w => with_child_t (o_tty (w_os w)) w).

Definition set_termctl (fd : Z) (p : orch_process) : orch_process :=
  {| p_term := p_term p; p_ipc := p_ipc p; p_pid := p_pid p;
     p_status := p_status p; p_termctl := fd;
     p_released := p_released p; p_eof := p_eof p; p_error := p_error p |}.

Definition set_pid (pid : Z) (p : orch_process) : orch_process :=
  {| p_term := p_term p; p_ipc := p_ipc p; p_pid := pid;
     p_status := p_status p; p_termctl := p_termctl p;
     p_released := p_released p; p_eof := p_eof p; p_error := p_error p |}.

Definition set_status (status : Z) (p : orch_process) : orch_process :=
  {| p_term := p_term p; p_ipc := p_ipc p; p_pid := p_pid p;
     p_status := status; p_termctl := p_termctl p;
     p_released := p_released p; p_eof := p_eof p; p_error := p_error p |}.

Definition set_ipc (ipc : orch_ipc_t) (p : orch_process) : orch_process :=
  {| p_term := p_term p; p_ipc := ipc; p_pid := p_pid p;
     p_status := p_status p; p_termctl := p_termctl p;
     p_released := p_released p; p_eof := p_eof p; p_error := p_error p |}.

Definition set_released (b : bool) (p : orch_process) : orch_process :=
  {| p_term := p_term p; p_ipc := p_ipc p; p_pid := p_pid p;
     p_status := p_status p; p_termctl := p_termctl p;
     p_released := b; p_eof := p_eof p; p_error := p_error p |}.

Definition set_eof (b : bool) (p : orch_process) : orch_process :=
  {| p_term := p_term p; p_ipc := p_ipc p; p_pid := p_pid p;
     p_status := p_status p; p_termctl := p_termctl p;
     p_released := p_released p; p_eof := b; p_error := p_error p |}.

Definition set_term (t : option orch_term) (p : orch_process) : orch_process :=
  {| p_term := t; p_ipc := p_ipc p; p_pid := p_pid p;
     p_status := p_status p; p_termctl := p_termctl p;
     p_released := p_released p; p_eof := p_eof p; p_error := p_error p |}.

Definition update_proc (f : orch_process -> orch_process) : M unit :=
  modify (fun w => with_proc (f (w_proc w)) w).

Definition self : M orch_process := fun w => Ok (w_proc w) w.

(** The loop [while (waitpid(pid, &status, 0) != pid) continue;]. *)
Fixpoint reap_loop (fuel : nat) (pid : Z) : M unit :=
  match fuel with
  | O => fun _ => OutOfFuel
  | S fuel =>
      do r <- sys_waitpid pid false;
      if fst r =? pid then ret tt else reap_loop fuel pid
  end.

(** [orch_spawn] from the return of [fork]: [cmdsock] is the socket pair,
    [newpt] the pty master [orch_newpt] opened, [pid] what [fork]
    returned in this process. *)
Definition orch_spawn (fuel : nat) (cmdsock : Z * Z) (newpt pid : Z)
    (argv : list string) (child_error_handler : orch_ipc_handler) : M Z :=
  update_proc (set_termctl newpt);;
  if pid =? -1 then _exit 1
  else if pid =? 0 then
    emit (EvClose (fst cmdsock));;
    do ipc <- orch_ipc_open (snd cmdsock);
    match ipc with
    | NULL => emit (EvClose (snd cmdsock));; _exit 1
    | _ =>
        orch_newsess fuel ipc;;
        orch_usept fuel ipc;;
        do p <- self;
        assert (0 <=? p_termctl p) "p->termctl >= 0";;
        emit (EvClose (p_termctl p));;
        update_proc (set_termctl (-1));;
        orch_exec fuel ipc argv
    end
  else
    update_proc (set_released false);;
    update_proc (set_pid pid);;
    do ipc <- orch_ipc_open (fst cmdsock);
    update_proc (set_ipc ipc);;
    emit (EvClose (snd cmdsock));;
    match ipc with
    | NULL =>
        do p <- self;
        assert (0 <=? p_termctl p) "p->termctl >= 0";;
        emit (EvClose (p_termctl p));;
        emit (EvClose (fst cmdsock));;
        sys_kill pid SIGKILL;;
        reap_loop fuel pid;;
        set_errno ENOMEM;;
        ret (-1)
    | _ =>
        orch_ipc_register ipc IPC_ERROR (Some child_error_handler);;
        orch_wait fuel ipc
    end.

(** ** The pty master and the clock *)

Definition LINE_MAX : Z := 2048.

Definition set_pty (sel : list pty_sel_ret) (rd : list rd_ret) (o : os_env) : os_env :=
  {| o_alloc := o_alloc o; o_junk := o_junk o; o_child := o_child o;
     o_sigint := o_sigint o; o_pty_sel := sel; o_pty_rd := rd;
     o_clock := o_clock o; o_tcset_fail := o_tcset_fail o; o_tty := o_tty o;
     o_sys := o_sys o; o_alarm := o_alarm o |}.

Definition set_clock (l : list Z) (o : os_env) : os_env :=
  {| o_alloc := o_alloc o; o_junk := o_junk o; o_child := o_child o;
     o_sigint := o_sigint o; o_pty_sel := o_pty_sel o; o_pty_rd := o_pty_rd o;
     o_clock := l; o_tcset_fail := o_tcset_fail o; o_tty := o_tty o;
     o_sys := o_sys o; o_alarm := o_alarm o |}.

(** [FD_SET(fd, &rfd); select(fd + 1, &rfd, NULL, NULL, tvp)].  Without
    further results a select with a timeout times out, and one without
    returns when a read has something to report. *)
Definition pty_select (fd : Z) (has_timeout : bool) : M pty_sel_ret := fun w =>
  if fd <? 0 then Fault (OutOfBounds fd) w
  else
    let o := w_os w in
    match o_pty_sel o with
    | PtyIntr :: rest => Ok PtyIntr (with_errno EINTR (with_os (set_pty rest (o_pty_rd o) o) w))
    | PtyFail :: rest => Ok PtyFail (with_errno EBADF (with_os (set_pty rest (o_pty_rd o) o) w))
    | PtyTimeout :: rest =>
        Ok (if has_timeout then PtyTimeout else PtyReady)
           (with_os (set_pty rest (o_pty_rd o) o) w)
    | PtyReady :: rest => Ok PtyReady (with_os (set_pty rest (o_pty_rd o) o) w)
    | [] =>
        if has_timeout then Ok PtyTimeout w
        else match o_pty_rd o with
             | [] => Blocked w
             | _ => Ok PtyReady w
             end
    end.

(** [read(fd, buf, sizeof(buf))] on the pty master. *)
Definition pty_read (fd : Z) : M rd_ret := fun w =>
  let o := w_os w in
  match o_pty_rd o with
  | [] => Ok (RdErr EAGAIN) (with_errno EAGAIN w)
  | RdErr e :: rest => Ok (RdErr e) (with_errno e (with_os (set_pty (o_pty_sel o) rest o) w))
  | RdData bs :: rest =>
      let rest' := match drop (Z.to_nat LINE_MAX) bs with
                   | [] => rest
                   | more => RdData more :: rest
                   end in
      Ok (RdData (take (Z.to_nat LINE_MAX) bs))
         (with_os (set_pty (o_pty_sel o) rest' o) w)
  end.

(** [time(NULL)] *)
Definition sys_time : M Z := fun w =>
  match o_clock (w_os w) with
  | [] => Ok 0 w
  | t :: rest => Ok t (with_os (set_clock rest (w_os w)) w)
  end.

(** ** orch_lua.c: the process handle *)

Inductive failmsg :=
  | Msg (s : string)
  | MsgD (fmt : string) (d : Z)
  | MsgS (fmt : string) (name : string) (arg : string)
  | Strerror (e : errno).

(** What a Lua C function leaves on the stack. *)
Inductive lua_ret :=
  | Ltrue                    (* lua_pushboolean(L, 1); return (1) *)
  | Lfail (m : failmsg)      (* luaL_pushfail(L); a message; return (2) *)
  | Lterm                    (* the new term userdata; return (1) *)
  | Lnone.                   (* return (0) *)

(** [orchlua_process_killed]: [None] for false, [Some signo] for true. *)
Definition orchlua_process_killed : M (option Z) :=
  do p <- self;
  assert (negb (p_pid p =? 0)) "self->pid != 0";;
  do r <- sys_waitpid (p_pid p) true;
  match r with
  | (wret, status) =>
      (match status with
       | Some st => update_proc (set_status st)
       | None => ret tt
       end);;
      if negb (wret =? p_pid p) then ret None
      else
        do p <- self;
        let signo := if WIFSIGNALED (p_status p) then WTERMSIG (p_status p) else 0 in
        update_proc (set_pid 0);;
        ret (Some signo)
  end.

(** One pass through the [again:] block of [orchlua_process_close]: true
    when [wret != self->pid]. *)
Definition close_signal (sig : Z) : M bool :=
  do p <- self;
  sys_kill (p_pid p) sig;;
  do r <- sys_waitpid (p_pid p) false;
  (match snd r with
   | Some st => update_proc (set_status st)
   | None => ret tt
   end);;
  sys_alarm 0;;
  ret (negb (fst r =? p_pid p)).

(** The [again:] loop: [sig] starts as SIGINT, and a pass that fails with
    it sets [failed] and is retried once with SIGKILL. *)
Definition close_terminate : M bool :=
  do failed <- close_signal SIGINT;
  if failed : bool then close_signal SIGKILL;; ret true
  else ret false.

(** [orchlua_process_close] after its first test. *)
Definition process_close_rest (fuel : nat) : M lua_ret :=
  do p <- self;
  do failed <-
    (if negb (p_pid p =? 0) then
       emit (EvSigaction SIGALRM false);;
       sys_alarm 5;;
       do failed <- close_terminate;
       emit (EvSigaction SIGALRM true);;
       update_proc (set_pid 0);;
       ret failed
     else ret false);
  do p <- self;
  orch_ipc_close fuel (p_ipc p);;
  update_proc (set_ipc NULL);;
  do p <- self;
  (if negb (p_termctl p =? -1) then emit (EvClose (p_termctl p)) else ret tt);;
  update_proc (set_termctl (-1));;
  if failed : bool then ret (Lfail (Msg "could not kill process with SIGINT"))
  else ret Ltrue.

Definition orchlua_process_close (fuel : nat) : M lua_ret :=
  do p <- self;
  do killed <- (if negb (p_pid p =? 0) then orchlua_process_killed else ret None);
  match killed with
  | Some sig =>
      if negb (sig =? 0) then
        ret (Lfail (MsgD "spawned process killed with signal '%d'" sig))
      else process_close_rest fuel
  | None => process_close_rest fuel
  end.

(** The [while] loop of [orchlua_process_read]; [timeout] is [None] when
    [tvp == NULL], and [callback data] is the truth of what the Lua
    callback returns, [data] being [None] at end-of-file. *)
Fixpoint process_read_loop (fuel : nat) (fd : Z) (timeout : option Z)
    (start now : Z) (callback : option (list byte) -> bool) : M lua_ret :=
  match fuel with
  | O => fun _ => OutOfFuel
  | S fuel =>
      do p <- self;
      if match timeout with None => true | Some t => now - start <? t end
         && negb (p_error p)
      then
        do r <- pty_select fd (bool_decide (timeout <> None));
        match r with
        | PtyIntr =>
            match timeout with
            | Some _ =>
                do now <- sys_time;
                process_read_loop fuel fd timeout start now callback
            | None => process_read_loop fuel fd timeout start now callback
            end
        | PtyFail => do w <- get; ret (Lfail (Strerror (w_errno w)))
        | PtyTimeout => ret Ltrue
        | PtyReady =>
            do rd <- pty_read fd;
            let rd := match rd with RdErr EIO => RdData [] | _ => rd end in
            match rd with
            | RdErr e => ret (Lfail (Strerror e))
            | RdData buf =>
                emit (EvCallback (match buf with [] => None | _ => Some buf end));;
                let done := callback (match buf with [] => None | _ => Some buf end) in
                match buf with
                | [] =>
                    update_proc (set_eof true);;
                    do p <- self;
                    assert (0 <=? p_termctl p) "self->termctl >= 0";;
                    emit (EvClose (p_termctl p));;
                    update_proc (set_termctl (-1));;
                    do killed <- orchlua_process_killed;
                    match killed with
                    | Some signo =>
                        if negb (signo =? 0) then
                          ret (Lfail (MsgD "spawned process killed with signal '%d'" signo))
                        else ret Ltrue
                    | None => ret Ltrue
                    end
                | _ =>
                    if done : bool then ret Ltrue
                    else process_read_loop fuel fd timeout start now callback
                end
            end
        end
      else ret Ltrue
  end.

(** [read(callback[, timeout])]; [timeout] is the third argument when
    there is one. *)
Definition orchlua_process_read (fuel : nat) (callback : option (list byte) -> bool)
    (timeout : option Z) : M lua_ret :=
  match timeout with
  | Some t =>
      if t <? 0 then ret (Lfail (Msg "Invalid timeout"))
      else
        do p <- self;
        do start <- sys_time;
        process_read_loop fuel (p_termctl p) (Some (Z.max t 1)) start start callback
  | None =>
      do p <- self;
      process_read_loop fuel (p_termctl p) None 0 0 callback
  end.

Definition orchlua_process_release (fuel : nat) : M lua_ret :=
  do p <- self;
  do error <- orch_release fuel (p_ipc p);
  orch_ipc_close fuel (p_ipc p);;
  update_proc (set_ipc NULL);;
  if negb (error =? 0) then
    do w <- get; ret (Lfail (Strerror (w_errno w)))
  else
    update_proc (set_released true);;
    ret Ltrue.

Definition orchlua_process_released : M bool :=
  do p <- self; ret (p_released p).

Definition orchlua_process_eof : M bool :=
  do p <- self; ret (p_eof p).

(** orch_tty.c: the userdata is a copy of [*copy], and [*otermp] points to it. *)
Definition orchlua_tty_alloc (copy : orch_term) : M lua_ret :=
  update_proc (set_term (Some copy));;
  ret Lterm.

(** [orchlua_process_term] up to its [out:] label; the result is the [error] and
    the [retvals] with which [out:] is reached. *)
Definition process_term_body (fuel : nat) (ipc : orch_ipc_t) : M (option errno * lua_ret) :=
  do e <- orch_ipc_send_nodata fuel ipc IPC_TERMIOS_INQUIRY;
  if negb (e =? 0) then do w <- get; ret (Some (w_errno w), Lnone)
  else
    do r <- orch_ipc_wait fuel ipc;
    if fst r =? -1 then do w <- get; ret (Some (w_errno w), Lnone)
    else
      do m <- orch_ipc_recv fuel ipc;
      if negb (fst m =? 0) then do w <- get; ret (Some (w_errno w), Lnone)
      else
        match snd m with
        | Some cmsg =>
            orch_ipc_msg_free (Some cmsg);;
            ret (None, Lfail (MsgD "unexpected message type '%d'" (orch_ipc_msg_tag cmsg)))
        | None =>
            do w <- get;
            if negb (initialized (w_sterm w)) then
              ret (None, Lfail (Msg "unknown unexpected message received"))
            else
              do v <- orchlua_tty_alloc (w_sterm w);
              ret (None, v)
        end.

Definition orchlua_process_term (fuel : nat) : M lua_ret :=
  do p <- self;
  do ok <- orch_ipc_okay (p_ipc p);
  if negb ok then ret (Lfail (Msg "process already released"))
  else
    match p_term p with
    | Some _ => ret (Lfail (Msg "process term already generated"))
    | None =>
        modify (fun w => with_sterm {| term := term (w_sterm w); initialized := false |} w);;
        orch_ipc_register (p_ipc p) IPC_TERMIOS_SET (Some fn_orchlua_process_term_set);;
        do r <- process_term_body fuel (p_ipc p);
        orch_ipc_register (p_ipc p) IPC_TERMIOS_SET None;;
        match r with
        | (Some ENONE, Lnone) => ret Lnone
        | (Some error, Lnone) => ret (Lfail (Strerror error))
        | (_, retvals) => ret retvals
        end
    end.

(** ** orch_tty.c: the terminal-attribute handle *)

(** Lua values as the C API sees them; a table is read with
    [lua_getfield] only. *)
Inductive lua_value :=
  | LNil
  | LBool (b : bool)
  | LNum (n : Z)
  | LStr (s : string)
  | LTable (fields : gmap string lua_value).

(** [lua_getfield(L, -1, k)] *)
Definition lua_getfield (t : lua_value) (k : string) : lua_value :=
  match t with
  | LTable fields => default LNil (fields !! k)
  | _ => LNil
  end.

(** The constants of <termios.h> that the tables use. *)
Record termios_h := {
  VEOF : nat; VEOL : nat; VERASE : nat; VINTR : nat; VKILL : nat;
  VMIN : nat; VQUIT : nat; VSUSP : nat; VTIME : nat; VSTART : nat;
  VSTOP : nat; VSTATUS : option nat;
  _POSIX_VDISABLE : Z }.

(** FreeBSD's values. *)
Definition freebsd_termios_h : termios_h :=
  {| VEOF := 0; VEOL := 1; VERASE := 3; VINTR := 8; VKILL := 5;
     VMIN := 16; VQUIT := 9; VSUSP := 10; VTIME := 17; VSTART := 12;
     VSTOP := 13; VSTATUS := Some 18%nat;
     _POSIX_VDISABLE := 255 |}.

Definition CNTRL_CANON : Z := 1.
Definition CNTRL_NCANON : Z := 2.
Definition CNTRL_BOTH : Z := 3.
Definition CNTRL_LITERAL : Z := 4.

Record orchlua_tty_cntrl := {
  cntrl_idx : nat;
  cntrl_name : string;
  cntrl_flags : Z }.

(** [double] to [tcflag_t] and to [cc_t], for values in range. *)
Definition to_tcflag (n : Z) : Z := n mod 2 ^ 32.
Definition to_cc (n : Z) : Z := n mod 256.

Section TTY.

Variable th : termios_h.

(** Lua's conversion of a string to a number, for [lua_tonumberx]. *)
Variable lua_str2number : string -> option Z.

Definition CNTRL_ENTRY (c : nat) (name : string) (m : Z) : orchlua_tty_cntrl :=
  {| cntrl_idx := c; cntrl_name := name; cntrl_flags := m |}.

Definition orchlua_cntrl_chars : list orchlua_tty_cntrl :=
  [ CNTRL_ENTRY (VEOF th) "VEOF" CNTRL_CANON;
    CNTRL_ENTRY (VEOL th) "VEOL" CNTRL_CANON;
    CNTRL_ENTRY (VERASE th) "VERASE" CNTRL_CANON;
    CNTRL_ENTRY (VINTR th) "VINTR" CNTRL_BOTH;
    CNTRL_ENTRY (VKILL th) "VKILL" CNTRL_CANON;
    CNTRL_ENTRY (VMIN th) "VMIN" (Z.lor CNTRL_NCANON CNTRL_LITERAL);
    CNTRL_ENTRY (VQUIT th) "VQUIT" CNTRL_BOTH;
    CNTRL_ENTRY (VSUSP th) "VSUSP" CNTRL_BOTH;
    CNTRL_ENTRY (VTIME th) "VTIME" (Z.lor CNTRL_NCANON CNTRL_LITERAL);
    CNTRL_ENTRY (VSTART th) "VSTART" CNTRL_BOTH;
    CNTRL_ENTRY (VSTOP th) "VSTOP" CNTRL_BOTH ] ++
  match VSTATUS th with
  | Some i => [ CNTRL_ENTRY i "VSTATUS" CNTRL_CANON ]
  | None => []
  end.

(** [lua_tonumberx(L, -1, &valid)]: the number and [valid]. *)
Definition lua_tonumberx (v : lua_value) : Z * bool :=
  match v with
  | LNum n => (n, true)
  | LStr s => match lua_str2number s with
              | Some n => (n, true)
              | None => (0, false)
              end
  | _ => (0, false)
  end.

Definition set_cc (cc : list Z) (t : termios) : termios :=
  {| c_iflag := c_iflag t; c_oflag := c_oflag t; c_cflag := c_cflag t;
     c_lflag := c_lflag t; c_cc := cc;
     c_ispeed := c_ispeed t; c_ospeed := c_ospeed t |}.
Definition set_iflag (v : Z) (t : termios) : termios :=
  {| c_iflag := v; c_oflag := c_oflag t; c_cflag := c_cflag t;
     c_lflag := c_lflag t; c_cc := c_cc t;
     c_ispeed := c_ispeed t; c_ospeed := c_ospeed t |}.
Definition set_oflag (v : Z) (t : termios) : termios :=
  {| c_iflag := c_iflag t; c_oflag := v; c_cflag := c_cflag t;
     c_lflag := c_lflag t; c_cc := c_cc t;
     c_ispeed := c_ispeed t; c_ospeed := c_ospeed t |}.
Definition set_cflag (v : Z) (t : termios) : termios :=
  {| c_iflag := c_iflag t; c_oflag := c_oflag t; c_cflag := v;
     c_lflag := c_lflag t; c_cc := c_cc t;
     c_ispeed := c_ispeed t; c_ospeed := c_ospeed t |}.
Definition set_lflag (v : Z) (t : termios) : termios :=
  {| c_iflag := c_iflag t; c_oflag := c_oflag t; c_cflag := c_cflag t;
     c_lflag := v; c_cc := c_cc t;
     c_ispeed := c_ispeed t; c_ospeed := c_ospeed t |}.

(** The value [orchlua_term_fetch_cc] stores for one character. *)
Definition fetch_cc_value (flags cc : Z) : lua_value :=
  if negb (Z.land flags CNTRL_LITERAL =? 0) then LNum cc
  else if cc =? _POSIX_VDISABLE th then LStr ""
  else if cc =? 127 then LStr "^?"
  else LStr (String "^" (String (ascii_of_nat (Z.to_nat (cc + 64))) "")).

Definition orchlua_term_fetch_cc (t : termios) : lua_value :=
  LTable (foldl
            (fun tbl iter =>
               <[cntrl_name iter :=
                   fetch_cc_value (cntrl_flags iter)
                     (default 0 (c_cc t !! cntrl_idx iter))]> tbl)
            ∅ orchlua_cntrl_chars).

(** [orchlua_term_fetch(self, which...)]: the values returned. *)
Definition orchlua_term_fetch (self : orch_term) (which : list string)
    : list lua_value :=
  match which with
  | [] => [LNil]
  | _ =>
      map (fun which =>
             if String.eqb which "iflag" then LNum (c_iflag (term self))
             else if String.eqb which "oflag" then LNum (c_oflag (term self))
             else if String.eqb which "cflag" then LNum (c_cflag (term self))
             else if String.eqb which "lflag" then LNum (c_lflag (term self))
             else if String.eqb which "cc" then orchlua_term_fetch_cc (term self)
             else LNil)
          which
  end.

(** The control character a non-literal entry is set to. *)
Definition parse_cc (name : string) (v : lua_value) : failmsg + Z :=
  match v with
  | LStr str =>
      match str with
      | EmptyString => inr (_POSIX_VDISABLE th)
      | String c0 (String c1 EmptyString) =>
          if negb (Ascii.eqb c0 "^") then
            inl (MsgS "malformed value for cc '%s': %s" name str)
          else if negb (Ascii.eqb c1 "?")
                  && ((nat_of_ascii c1 <? 64)%nat || (95 <? nat_of_ascii c1)%nat) then
            inl (MsgS "cntrl char for cc '%s' out of bounds: %c" name (String c1 ""))
          else if Ascii.eqb c1 "?" then inr 127
          else inr (Z.of_nat (nat_of_ascii c1) - 64)
      | _ => inl (MsgS "malformed value for cc '%s': %s" name str)
      end
  | _ => inl (MsgS "expected string for cc '%s'" name "")
  end.

(** [orchlua_term_update_cc]: the loop over [orchlua_cntrl_chars]. *)
Fixpoint update_cc_loop (iters : list orchlua_tty_cntrl) (tbl : lua_value)
    (t : termios) : failmsg + termios :=
  match iters with
  | [] => inr t
  | iter :: iters =>
      match lua_getfield tbl (cntrl_name iter) with
      | LNil => update_cc_loop iters tbl t
      | v =>
          let cc :=
            if negb (Z.land (cntrl_flags iter) CNTRL_LITERAL =? 0) then
              match lua_tonumberx v with
              | (n, true) => inr (to_cc n)
              | (_, false) =>
                  inl (MsgS "expected number for cc '%s'" (cntrl_name iter) "")
              end
            else parse_cc (cntrl_name iter) v in
          match cc with
          | inl e => inl e
          | inr cc =>
              update_cc_loop iters tbl
                (set_cc (<[cntrl_idx iter := cc]> (c_cc t)) t)
          end
      end
  end.

Definition orchlua_term_update_cc (tbl : lua_value) (t : termios)
    : failmsg + termios :=
  update_cc_loop orchlua_cntrl_chars tbl t.

(** The names [orchlua_term_update] looks up. *)
Definition update_fields : list string := ["iflag"; "oflag"; "lflag"; "cc"].

(** The loop of [orchlua_term_update] over [fields]. *)
Fixpoint update_loop (fields : list string) (tbl : lua_value)
    (updated : termios) : failmsg + termios :=
  match fields with
  | [] => inr updated
  | field :: fields =>
      match lua_getfield tbl field with
      | LNil => update_loop fields tbl updated
      | v =>
          if String.eqb field "iflag" then
            match lua_tonumberx v with
            | (n, true) => update_loop fields tbl (set_iflag (to_tcflag n) updated)
            | (_, false) => inl (Msg "iflag must be a numeric mask")
            end
          else if String.eqb field "oflag" then
            match lua_tonumberx v with
            | (n, true) => update_loop fields tbl (set_oflag (to_tcflag n) updated)
            | (_, false) => inl (Msg "oflag must be a numeric mask")
            end
          else if String.eqb field "cflag" then
            match lua_tonumberx v with
            | (n, true) => update_loop fields tbl (set_cflag (to_tcflag n) updated)
            | (_, false) => inl (Msg "cflag must be a numeric mask")
            end
          else if String.eqb field "lflag" then
            match lua_tonumberx v with
            | (n, true) => update_loop fields tbl (set_lflag (to_tcflag n) updated)
            | (_, false) => inl (Msg "lflag must be a numeric mask")
            end
          else if String.eqb field "cc" then
            match v with
            | LTable _ =>
                match orchlua_term_update_cc v updated with
                | inl e => inl e
                | inr updated => update_loop fields tbl updated
                end
            | _ => inl (Msg "cc must be a table of characters to remap")
            end
          else update_loop fields tbl updated
      end
  end.

(** [orchlua_term_update(self, tbl)]; [self] is the userdata that
    [proc->term] points to, and [self->proc] is the process handle. *)
Definition orchlua_term_update (fuel : nat) (tbl : lua_value) : M lua_ret :=
  do p <- self;
  match p_term p with
  | None => crash NullDeref
  | Some self =>
      match tbl with
      | LTable _ =>
          match update_loop update_fields tbl (term self) with
          | inl e => ret (Lfail e)
          | inr updated =>
              update_proc (set_term
                (Some {| term := updated; initialized := initialized self |}));;
              do msg <- orch_ipc_msg_alloc IPC_TERMIOS_SET (Z.to_nat sizeof_termios);
              match msg with
              | None => ret (Lfail (Strerror ENOMEM))
              | Some msg =>
                  let msg := fill msg (encode_termios updated) in
                  do error <- orch_ipc_send fuel (p_ipc p) msg;
                  do w <- get;
                  orch_ipc_msg_free (Some msg);;
                  if negb (error =? 0) then ret (Lfail (Strerror (w_errno w)))
                  else
                    do r <- orch_ipc_wait fuel (p_ipc p);
                    if fst r =? -1 then
                      do w <- get; ret (Lfail (Strerror (w_errno w)))
                    else
                      do m <- orch_ipc_recv fuel (p_ipc p);
                      if negb (fst m =? 0) then
                        do w <- get; ret (Lfail (Strerror (w_errno w)))
                      else
                        match snd m with
                        | None =>
                            ret (Lfail (Msg "unknown unexpected message received"))
                        | Some msg =>
                            if negb (orch_ipc_msg_tag msg =? IPC_TERMIOS_ACK) then
                              orch_ipc_msg_free (Some msg);;
                              ret (Lfail (MsgD "unexpected message type '%d'"
                                            (orch_ipc_msg_tag msg)))
                            else
                              orch_ipc_msg_free (Some msg);;
                              ret Ltrue
                        end
              end
          end
      | _ => ret (Lfail (Msg "argument #2 must be table of fields to update"))
      end
  end.

End TTY.

(** ** Scenarios

    Concrete worlds for the examples below. *)

Definition termios_zero : termios :=
  {| c_iflag := 0; c_oflag := 0; c_cflag := 0; c_lflag := 0;
     c_cc := replicate NCCS 0; c_ispeed := 0; c_ospeed := 0 |}.

(** The process handle as [orchlua_spawn] initialises it. *)
Definition fresh_process : orch_process :=
  {| p_term := None; p_ipc := NULL; p_pid := 0; p_status := 0;
     p_termctl := -1; p_released := false; p_eof := false; p_error := false |}.

Definition quiet_sock : sock_env :=
  {| s_rd := []; s_sel := []; s_wr := []; s_out := [] |}.

Definition quiet_os : os_env :=
  {| o_alloc := []; o_junk := replicate 16 Byte.x00; o_child := Running;
     o_sigint := Some SIGINT; o_pty_sel := []; o_pty_rd := []; o_clock := [];
     o_tcset_fail := false; o_tty := termios_zero; o_sys := [];
     o_alarm := false |}.

(** A process before [orch_spawn], with [rd] what its control socket will
    deliver. *)
Definition boot (rd : list rd_ret) : world :=
  {| w_chan := None; w_proc := fresh_process;
     w_sterm := {| term := termios_zero; initialized := false |};
     w_child_t := termios_zero;
     w_sock := set_rd rd quiet_sock; w_os := quiet_os;
     w_errno := ENONE; w_trace := [] |}.

(** A message as it travels. *)
Definition wire (m : orch_ipc_msg) : list byte :=
  encode_hdr (hdr_size m) (msg_tag m) ++ msg_data m.

Definition nodata (tag : Z) : orch_ipc_msg := {| msg_tag := tag; msg_data := [] |}.

(** The handler registered for [tag], if the tag has a slot. *)
Definition handler_for (c : orch_ipc) (tag : Z) : option orch_ipc_handler :=
  default None (callbacks c !! Z.to_nat (tag - 1)).

(** [spawn] in the parent: socket pair (3, 4), pty master 5, child 100. *)
Definition spawn_parent (fuel : nat) : M Z :=
  orch_spawn fuel (3, 4) 5 100 ["cat"%string] fn_orchlua_child_error.

(** What the parent's control socket delivers in the examples: the
    child's RELEASE, later the child's terminal attributes in answer to an
    inquiry, later an acknowledgement, with nothing to read in between. *)
Definition tty1 : termios :=
  {| c_iflag := 11010; c_oflag := 3; c_cflag := 19200; c_lflag := 1483;
     c_cc := [4; 255; 255; 127; 23; 21; 18; 255; 3; 28; 26; 25; 17; 19; 22; 15; 1; 0; 20; 255];
     c_ispeed := 38400; c_ospeed := 38400 |}.

Definition session_script : list rd_ret :=
  [ RdData (wire (nodata IPC_RELEASE)); RdErr EAGAIN;
    RdErr EAGAIN;
    RdData (wire {| msg_tag := IPC_TERMIOS_SET; msg_data := encode_termios tty1 |});
    RdErr EAGAIN;
    RdErr EAGAIN;
    RdData (wire (nodata IPC_TERMIOS_ACK)) ].

(** The script of a parent that releases the child at once: RELEASE, then
    end-of-file once the parent has shut its side down. *)
Definition release_script : list rd_ret :=
  [ RdData (wire (nodata IPC_RELEASE)); RdErr EAGAIN; RdErr EAGAIN; RdData [] ].

(** ** Relations kept by a computation *)

(** [m] never executes a program, and the world in which it ends is
    related by [R] to the one in which it starts. *)
Definition resp (R : world -> world -> Prop) {A} (m : M A) (w : world) : Prop :=
  match m w with
  | Ok _ w' | Fault _ w' | Blocked w' | Exited _ w' => R w w'
  | Execed _ _ => False
  | OutOfFuel => True
  end.

Definition respects (R : world -> world -> Prop) {A} (m : M A) : Prop :=
  forall w, resp R m w.

(** An event other than the call of a handler. *)
Definition quiet (ev : event) : Prop :=
  match ev with
  | EvHandler _ _ => False
  | _ => True
  end.

(** The channel object keeps its handlers and its queued messages, and
    may have more messages behind them. *)
Definition chan_grows (c c' : option orch_ipc) : Prop :=
  match c, c' with
  | Some c, Some c' =>
      callbacks c' = callbacks c /\ exists new, queue c' = queue c ++ new
  | None, None => True
  | _, _ => False
  end.

(** What [orch_ipc_send] may change: it reads, queues and writes, and
    calls no handler. *)
Definition sends (w w' : world) : Prop :=
  w_proc w' = w_proc w /\ w_sterm w' = w_sterm w /\ w_child_t w' = w_child_t w /\
  chan_grows (w_chan w) (w_chan w') /\
  exists tr, w_trace w' = w_trace w ++ tr /\ Forall quiet tr.

(** What [orch_ipc_drain] may change: as [sends], and nothing is written. *)
Definition drains (w w' : world) : Prop :=
  sends w w' /\
  s_out (w_sock w') = s_out (w_sock w) /\ s_wr (w_sock w') = s_wr (w_sock w).

(** The process handle is as it was, but for its [error] flag. *)
Definition same_handle (w w' : world) : Prop :=
  set_error false (w_proc w') = set_error false (w_proc w).

(** What the channel operations may change in the process handle and in
    the trace: the handle keeps all but its [error] flag, and events are
    only added. *)
Definition runs (w w' : world) : Prop :=
  same_handle w w' /\ exists tr, w_trace w' = w_trace w ++ tr.

(** The channel has seen end-of-file: its descriptor is closed. *)
Definition chan_eof (w : world) : Prop :=
  exists c, w_chan w = Some c /\ sockfd c = -1.

(** A process handle that [close] has gone through: no child, no channel,
    no pty descriptor. *)
Definition closed (p : orch_process) : Prop :=
  p_pid p = 0 /\ p_ipc p = NULL /\ p_termctl p = -1.

(** The world in which a computation ends. *)
Definition world_of {A} (o : outcome A) : world :=
  match o with
  | Ok _ w | Fault _ w | Blocked w | Exited _ w | Execed _ w => w
  | OutOfFuel => boot []
  end.

(** The parent after [spawn] has returned, with [release_script] to
    come, and after a close of the process handle. *)
Definition spawned : world :=
  Eval vm_compute in world_of (spawn_parent 20 (boot release_script)).

Definition spawned_closed : world :=
  Eval vm_compute in world_of (orchlua_process_close 20 spawned).

(** The message and the two ends of the round-trip example: the parent
    after it has sent the message, and a receiving end with an open
    channel to which the socket delivers what was sent, in three pieces. *)
Definition termios_msg : orch_ipc_msg :=
  {| msg_tag := IPC_TERMIOS_SET; msg_data := encode_termios tty1 |}.


Definition fresh_chan : orch_ipc :=
  {| callbacks := replicate 5 None; queue := []; sockfd := 4 |}.


(** What [close] does to end a child that is alive: the probe, then
    SIGINT under an alarm of five seconds, then, where the child did not
    go ([sigint] is [None]), SIGKILL and a wait with no alarm. *)
Definition escalation (pid : Z) (sigint : option Z) : list event :=
  [EvWaitpid pid true 0; EvSigaction SIGALRM false; EvAlarm 5; EvKill pid SIGINT] ++
  match sigint with
  | Some _ => [EvWaitpid pid false pid; EvAlarm 0]
  | None => [EvWaitpid pid false (-1); EvAlarm 0;
             EvKill pid SIGKILL; EvWaitpid pid false pid; EvAlarm 0]
  end ++
  [EvSigaction SIGALRM true].

Definition close_verdict (sigint : option Z) : lua_ret :=
  match sigint with
  | Some _ => Ltrue
  | None => Lfail (Msg "could not kill process with SIGINT")
  end.

Definition set_sigint (s : option Z) (o : os_env) : os_env :=
  {| o_alloc := o_alloc o; o_junk := o_junk o; o_child := o_child o;
     o_sigint := s; o_pty_sel := o_pty_sel o; o_pty_rd := o_pty_rd o;
     o_clock := o_clock o; o_tcset_fail := o_tcset_fail o; o_tty := o_tty o;
     o_sys := o_sys o; o_alarm := o_alarm o |}.

(** The spawned parent with a child that ignores SIGINT. *)
Definition stubborn : world := with_os (set_sigint None (w_os spawned)) spawned.

(** What [read] returns at end-of-file, from the state of the child: an
    error exactly for a child that has ended by a signal. *)
Definition eof_verdict (child : child_state) : lua_ret :=
  match child with
  | Zombie status =>
      if WIFSIGNALED status then
        Lfail (MsgD "spawned process killed with signal '%d'" (WTERMSIG status))
      else Ltrue
  | _ => Ltrue
  end.

(** The child after the non-blocking wait of [orchlua_process_killed]. *)
Definition after_probe (child : child_state) : child_state :=
  match child with
  | Zombie _ => Reaped
  | c => c
  end.

(** The loop of [read] goes on: the timeout has not run out and no child
    error is latched. *)
Definition read_goes_on (timeout : option Z) (start now : Z) (w : world) : bool :=
  match timeout with None => true | Some t => now - start <? t end
  && negb (p_error (w_proc w)).

(** The spawned parent when the child has been killed by SIGKILL and the
    pty master reports the closed slave as an I/O error; and after that
    read. *)
Definition at_eof : world :=
  with_os (set_child (Zombie SIGKILL) (set_pty [] [RdErr EIO] (w_os spawned))) spawned.

Definition at_eof_read : world :=
  Eval vm_compute in world_of (pty_read 5 at_eof).

(** The parent after [spawn] and [fetch_term], with the acknowledgement
    of [session_script] still to come. *)
Definition termed : world :=
  Eval vm_compute in
    world_of ((spawn_parent 20;; orchlua_process_term 20) (boot session_script)).


(** A process that owns the channel object [c], with [rd] what its
    control socket will deliver. *)
Definition chan_world (c : orch_ipc) (rd : list rd_ret) : world :=
  with_chan (Some c) (boot rd).


(** The parent after a spawn that could not allocate its channel. *)
Definition spawn_failed : world :=
  Eval vm_compute in
    world_of (orch_spawn 1 (3, 4) 5 100 ["cat"%string] fn_orchlua_child_error
                (with_os (set_alloc [false] quiet_os) (boot []))).


(** What a [struct termios] holds: four 32-bit flag words, [NCCS]
    control characters of eight bits, two 32-bit speeds. *)
Definition termios_wf (t : termios) : Prop :=
  0 <= c_iflag t < 2 ^ 32 /\ 0 <= c_oflag t < 2 ^ 32 /\
  0 <= c_cflag t < 2 ^ 32 /\ 0 <= c_lflag t < 2 ^ 32 /\
  length (c_cc t) = NCCS /\ Forall (fun x => 0 <= x < 256) (c_cc t) /\
  0 <= c_ispeed t < 2 ^ 32 /\ 0 <= c_ospeed t < 2 ^ 32.

(** ** orch_compat.c: [strlcpy] and [strlcat]

    Memory is a list of bytes: [dst] is the whole destination buffer and
    [src] the memory from the source pointer on.  An access past the end
    of either is outside the object, and the function has no result
    ([None]).  Sizes are [size_t] values below the size of the address
    space, so natural numbers. *)

Definition nul (c : byte) : bool := Byte.eqb c Byte.x00.

(** The first loop of [strlcpy], which copies a character for as long as
    the decremented [nleft] is not zero and leaves at the NUL it has
    copied.  [nleft] is its value after the decrement of the loop test,
    [d] and [s] are [dst - odst] and [src - osrc]; the result is the
    buffer, the two offsets and [nleft] when the loop is left. *)
Fixpoint strlcpy_loop (nleft : nat) (dst src : list byte) (d s : nat)
    : option (list byte * nat * nat * nat) :=
  match nleft with
  | O => Some (dst, d, s, O)
  | S n =>
      match src !! s with
      | None => None
      | Some c =>
          if (d <? length dst)%nat then
            if nul c then Some (<[d := c]> dst, S d, S s, S n)
            else strlcpy_loop n (<[d := c]> dst) src (S d) (S s)
          else None
      end
  end.

(** The second loop of [strlcpy], which steps [src] over the rest of the
    string and its NUL, on the memory from [src] on: the offset of [src]
    when it is left. *)
Fixpoint strlcpy_rest (mem : list byte) (s : nat) : option nat :=
  match mem with
  | [] => None
  | c :: mem => if nul c then Some (S s) else strlcpy_rest mem (S s)
  end.

(** [strlcpy(dst, src, dsize)]: the buffer afterwards and the value
    returned. *)
Definition strlcpy (dst src : list byte) (dsize : nat) : option (list byte * nat) :=
  match (match dsize with
         | O => Some (dst, O, O, O)
         | S n => strlcpy_loop n dst src 0 0
         end) with
  | None => None
  | Some (dst, d, s, nleft) =>
      match nleft with
      | O =>
          match (match dsize with
                 | O => Some dst
                 | S _ => if (d <? length dst)%nat then Some (<[d := Byte.x00]> dst) else None
                 end) with
          | None => None
          | Some dst =>
              match strlcpy_rest (drop s src) s with
              | None => None
              | Some s => Some (dst, (s - 1)%nat)
              end
          end
      | S _ => Some (dst, (s - 1)%nat)
      end
  end.

(** [strlen] *)
Fixpoint strlen (mem : list byte) : option nat :=
  match mem with
  | [] => None
  | c :: mem => if nul c then Some O else option_map S (strlen mem)
  end.

(** The first loop of [strlcat], which steps [dst] to its NUL but no
    further than [dsize] bytes: [dst - odst] when it is left. *)
Fixpoint strlcat_find (n : nat) (dst : list byte) (d : nat) : option nat :=
  match n with
  | O => Some d
  | S n =>
      match dst !! d with
      | None => None
      | Some c => if nul c then Some d else strlcat_find n dst (S d)
      end
  end.

(** The second loop of [strlcat], which goes through the source string
    and copies its characters while [n] is not zero, on the memory from
    [src] on. *)
Fixpoint strlcat_loop (mem dst : list byte) (d n s : nat)
    : option (list byte * nat * nat) :=
  match mem with
  | [] => None
  | c :: mem =>
      if nul c then Some (dst, d, s)
      else
        match n with
        | O => strlcat_loop mem dst d O (S s)
        | S n' =>
            if (d <? length dst)%nat
            then strlcat_loop mem (<[d := c]> dst) (S d) n' (S s)
            else None
        end
  end.

(** [strlcat(dst, src, dsize)]: the buffer afterwards and the value
    returned. *)
Definition strlcat (dst src : list byte) (dsize : nat) : option (list byte * nat) :=
  match strlcat_find dsize dst 0 with
  | None => None
  | Some dlen =>
      match (dsize - dlen)%nat with
      | O => option_map (fun l => (dst, (dlen + l)%nat)) (strlen src)
      | S n =>
          match strlcat_loop src dst dlen n 0 with
          | None => None
          | Some (dst, d, s) =>
              if (d <? length dst)%nat
              then Some (<[d := Byte.x00]> dst, (dlen + s)%nat)
              else None
          end
      end
  end.

(** ** orch_lua.c: [write] and [spawn]

    The pty master as [write] sees it: the results of the coming writes,
    after which every write is taken whole, and the bytes written so
    far. *)
Record pty_out := {
  pw_wr : list wr_ret;
  pw_out : list byte }.

(** [write(fd, buf, length bs)] on the pty master. *)
Definition pty_write (fd : Z) (bs : list byte) (p : pty_out) : wr_ret * pty_out :=
  if fd <? 0 then (WrErr EBADF, p)
  else
    match pw_wr p with
    | [] => (WrSome (length bs), {| pw_wr := []; pw_out := pw_out p ++ bs |})
    | WrErr e :: rest => (WrErr e, {| pw_wr := rest; pw_out := pw_out p |})
    | WrSome k :: rest =>
        (WrSome (length (take k bs)),
         {| pw_wr := rest; pw_out := pw_out p ++ take k bs |})
    end.

(** What [orchlua_process_write] leaves on the stack: the number of bytes
    written, or fail and a message. *)
Inductive write_ret :=
  | Wnumber (n : nat)
  | Wfail (m : failmsg).

(** The loop of [orchlua_process_write]; [None] when the fuel is used
    up. *)
Fixpoint process_write_loop (fuel : nat) (fd : Z) (buf : list byte)
    (totalsz : nat) (p : pty_out) : option (write_ret * pty_out) :=
  match fuel with
  | O => None
  | S fuel =>
      if (totalsz <? length buf)%nat then
        match pty_write fd (drop totalsz buf) p with
        | (WrErr EINTR, p) => process_write_loop fuel fd buf totalsz p
        | (WrErr e, p) => Some (Wfail (Strerror e), p)
        | (WrSome k, p) => process_write_loop fuel fd buf (totalsz + k) p
        end
      else Some (Wnumber totalsz, p)
  end.

Definition orchlua_process_write (fuel : nat) (self : orch_process)
    (buf : list byte) (p : pty_out) : option (write_ret * pty_out) :=
  process_write_loop fuel (p_termctl self) buf 0 p.

(** What [orchlua_spawn] leaves on the stack: the process handle, or fail
    and a message. *)
Inductive spawn_ret :=
  | SpawnHandle
  | SpawnFail (m : failmsg).

Section LuaSpawn.

(** Lua's conversion of a number to a string, for [lua_tostring]. *)
Variable lua_number2str : Z -> string.

(** [lua_tostring]: [None] for NULL. *)
Definition lua_tostring (v : lua_value) : option string :=
  match v with
  | LStr s => Some s
  | LNum n => Some (lua_number2str n)
  | _ => None
  end.

(** The loop of [orchlua_spawn] over the arguments from index [i] on.
    [argv] is what [calloc] returned, which the function does not look
    at before it stores through it; the result is the index of the
    first argument that is not a string, or the vector. *)
Fixpoint spawn_argv (argv : bool) (i : Z) (args : list lua_value)
    : M (Z + list string) :=
  match args with
  | [] => ret (inr [])
  | v :: rest =>
      if argv then
        match lua_tostring v with
        | None => ret (inl (i + 1))
        | Some s =>
            do r <- spawn_argv argv (i + 1) rest;
            ret match r with
                | inl bad => inl bad
                | inr l => inr (s :: l)
                end
        end
      else crash NullDeref
  end.

(** [orchlua_spawn] on the arguments [args]; the descriptors of the
    socket pair, the pty master and the result of [fork] are given as
    they are to [orch_spawn].  [lua_newuserdata] is taken to return: the
    handle is the process's one, whose fields hold what they held. *)
Definition orchlua_spawn (fuel : nat) (cmdsock : Z * Z) (newpt pid : Z)
    (args : list lua_value) : M spawn_ret :=
  match args with
  | [] => ret (SpawnFail (Msg "No command specified to spawn"))
  | _ =>
      do argv <- malloc;
      do r <- spawn_argv argv 0 args;
      match r with
      | inl bad => ret (SpawnFail (MsgD "Argument at index %d not a string" bad))
      | inr argv =>
          update_proc (set_term None);;
          update_proc (set_status 0);;
          update_proc (set_pid 0);;
          update_proc (set_released false);;
          update_proc (set_eof false);;
          update_proc (set_error false);;
          do error <- orch_spawn fuel cmdsock newpt pid argv fn_orchlua_child_error;
          if negb (error =? 0) then
            do w <- get; ret (SpawnFail (Strerror (w_errno w)))
          else ret SpawnHandle
      end
  end.

End LuaSpawn.

(** ** orch_lua.c: [open] and [reset]

    The sandbox of the script: [orchlua_cfg], the PATH of the
    environment, and the system calls made so far. *)
Module Sandbox.

Record orchlua_cfg := {
  dirfd : Z;
  initialized : bool }.

Inductive sys_event :=
  | SysSetenv (value : string)                     (* setenv("PATH", value, 1) *)
  | SysOpen (path : string) (fd : Z)               (* open(path, O_DIRECTORY | ...) *)
  | SysClose (fd : Z)
  | SysDup (fd : Z)                                (* dup(STDIN_FILENO) *)
  | SysOpenat (dir : Z) (name : string) (fd : Z)   (* openat(dir, name, ...) *)
  | SysFdopen (fd : Z) (ok : bool).

Record state := {
  cfg : orchlua_cfg;
  env_path : option string;
  strace : list sys_event }.

(** The static initializer of [orchlua_cfg]. *)
Definition cfg0 : orchlua_cfg := {| dirfd := -1; initialized := false |}.

Definition set_cfg (c : orchlua_cfg) (st : state) : state :=
  {| cfg := c; env_path := env_path st; strace := strace st |}.

Definition set_env_path (p : option string) (st : state) : state :=
  {| cfg := cfg st; env_path := p; strace := strace st |}.

Definition log (ev : sys_event) (st : state) : state :=
  {| cfg := cfg st; env_path := env_path st; strace := strace st ++ [ev] |}.

(** What the library and system calls of one [open] return. *)
Record syscalls := {
  realpath : option string;     (* the resolved path, or NULL *)
  strdup_ok : bool;
  asprintf_ok : bool;
  setenv_ok : bool;
  open_dir : Z;                 (* open(scriptroot, O_DIRECTORY | O_PATH | O_CLOEXEC) *)
  dup_stdin : Z;
  openat_fd : Z;
  fdopen_ok : bool }.

Inductive result (A : Type) :=
  | Returns (a : A) (st : state)
  | Exits (code : Z) (st : state)          (* err(1, ...) *)
  | Aborts (what : string) (st : state).   (* a failed assert *)

Arguments Returns {A} a st.
Arguments Exits {A} code st.
Arguments Aborts {A} what st.

Definition state_of {A} (r : result A) : state :=
  match r with
  | Returns _ st | Exits _ st | Aborts _ st => st
  end.

(** [strrchr(s, '/')]: the text before the last slash and the text after
    it, [None] for NULL. *)
Fixpoint strrchr_slash (s : string) : option (string * string) :=
  match s with
  | EmptyString => None
  | String c rest =>
      match strrchr_slash rest with
      | Some (pre, post) => Some (String c pre, post)
      | None => if Ascii.eqb c "/" then Some (EmptyString, rest) else None
      end
  end.

(** [orchlua_add_execpath]: the value returned, zero as [ENONE]. *)
Definition orchlua_add_execpath (sys : syscalls) (path : string) (st : state)
    : errno * state :=
  match env_path st with
  | None =>
      if setenv_ok sys
      then (ENONE, log (SysSetenv path) (set_env_path (Some path) st))
      else (ENOMEM, st)
  | Some curpath =>
      if negb (asprintf_ok sys) then (ENOMEM, st)
      else
        let newpath := (path ++ ":" ++ curpath)%string in
        if setenv_ok sys
        then (ENONE, log (SysSetenv newpath) (set_env_path (Some newpath) st))
        else (ENOMEM, st)
  end.

(** What [*script] points to: [filename] itself, or a string of its own
    from [strdup]. *)
Inductive script_ptr :=
  | ScriptFilename
  | ScriptCopy (s : string).

(** [orchlua_open_init]: the error returned, or [*script] when it
    returns zero. *)
Definition orchlua_open_init (sys : syscalls) (filename : string)
    (alter_path : bool) (st : state) : result (errno + script_ptr) :=
  if initialized (cfg st) then Aborts "!orchlua_cfg.initialized" st
  else if negb (dirfd (cfg st) =? -1) then Aborts "orchlua_cfg.dirfd == -1" st
  else if String.eqb filename "-" then
    Returns (inr ScriptFilename)
            (set_cfg {| dirfd := dirfd (cfg st); initialized := true |} st)
  else
    match realpath sys with
    | None => Exits 1 st
    | Some fpath =>
        let '(scriptroot, name) :=
          match strrchr_slash fpath with
          | Some (root, name) => (root, name)
          | None => ("."%string, fpath)
          end in
        if negb (strdup_ok sys) then Returns (inl ENOMEM) st
        else
          let st := if alter_path : bool
                    then snd (orchlua_add_execpath sys scriptroot st)
                    else st in
          let fd := open_dir sys in
          let st := log (SysOpen scriptroot fd)
                        (set_cfg {| dirfd := fd; initialized := initialized (cfg st) |} st) in
          if fd =? -1 then Exits 1 st
          else Returns (inr (ScriptCopy name))
                       (set_cfg {| dirfd := dirfd (cfg st); initialized := true |} st)
    end.

(** [orchlua_reset], which returns true. *)
Definition orchlua_reset (st : state) : result unit :=
  if initialized (cfg st) then
    let st := if 0 <=? dirfd (cfg st)
              then set_cfg {| dirfd := -1; initialized := initialized (cfg st) |}
                           (log (SysClose (dirfd (cfg st))) st)
              else st in
    Returns tt (set_cfg {| dirfd := dirfd (cfg st); initialized := false |} st)
  else Returns tt st.

(** What [orchlua_open] leaves on the stack. *)
Inductive open_ret :=
  | OpenFile                        (* the file handle; return (1) *)
  | OpenMessage (e : errno)         (* fail and strerror(e) pushed; return (true) *)
  | OpenFail (m : string)           (* fail and a message; return (2) *)
  | OpenFileError (name : string).  (* luaL_fileresult(L, 0, name) *)

(** [orchlua_open] from [fd = -1] on, with [*script] set. *)
Definition open_script (sys : syscalls) (filename : string) (script : script_ptr)
    (st : state) : result open_ret :=
  let name := match script with
              | ScriptFilename => filename
              | ScriptCopy s => s
              end in
  let finish (fd : Z) (st : state) : result open_ret :=
    let fd_st := if fd =? -1
                 then let fd := openat_fd sys in
                      (fd, log (SysOpenat (dirfd (cfg st)) name fd) st)
                 else (fd, st) in
    let fd := fst fd_st in
    let st := snd fd_st in
    if negb (fd =? -1) then
      if fdopen_ok sys then Returns OpenFile (log (SysFdopen fd true) st)
      else Returns (OpenFileError filename) (log (SysFdopen fd false) st)
    else Returns (OpenFileError filename) st in
  if dirfd (cfg st) =? -1 then
    match script with
    | ScriptFilename =>
        let fd := dup_stdin sys in
        let st := log (SysDup fd) st in
        if fd =? -1 then Returns (OpenFileError "stdin") st
        else finish fd st
    | ScriptCopy _ => Aborts "script == filename" st
    end
  else finish (-1) st.

Definition orchlua_open (sys : syscalls) (filename : string) (alter_path : bool)
    (st : state) : result open_ret :=
  if negb (initialized (cfg st)) then
    match orchlua_open_init sys filename alter_path st with
    | Returns (inr script) st => open_script sys filename script st
    | Returns (inl error) st => Returns (OpenMessage error) st
    | Exits code st => Exits code st
    | Aborts what st => Aborts what st
    end
  else if dirfd (cfg st) =? -1 then
    Returns (OpenFail "No sandbox granted (script opened from stdin)") st
  else open_script sys filename ScriptFilename st.

(** A call of the script into the library, and a run of calls from a
    state on, which ends with the process when a call does not return. *)
Inductive call :=
  | CallOpen (sys : syscalls) (filename : string) (alter_path : bool)
  | CallReset.

Definition do_call (c : call) (st : state) : result unit :=
  match c with
  | CallOpen sys filename alter_path =>
      match orchlua_open sys filename alter_path st with
      | Returns _ st => Returns tt st
      | Exits code st => Exits code st
      | Aborts what st => Aborts what st
      end
  | CallReset => orchlua_reset st
  end.

Fixpoint run (calls : list call) (st : state) : result unit :=
  match calls with
  | [] => Returns tt st
  | c :: calls =>
      match do_call c st with
      | Returns _ st => run calls st
      | r => r
      end
  end.

(** The descriptors [open] and [dup] return are -1 or not negative. *)
Definition sane (c : call) : Prop :=
  match c with
  | CallOpen sys _ _ => -1 <= open_dir sys
  | CallReset => True
  end.

(** The directory descriptor that is open after the system calls [tr],
    when it was [cur] before. *)
Fixpoint dir_after (cur : option Z) (tr : list sys_event) : option Z :=
  match tr with
  | [] => cur
  | SysOpen _ fd :: tr => dir_after (Some fd) tr
  | SysClose fd :: tr =>
      dir_after (if bool_decide (cur = Some fd) then None else cur) tr
  | _ :: tr => dir_after cur tr
  end.

(** Every [openat] of [tr] is on the directory descriptor open at that
    point. *)
Fixpoint confined (cur : option Z) (tr : list sys_event) : Prop :=
  match tr with
  | [] => True
  | SysOpenat dir name fd :: tr' =>
      cur = Some dir /\ confined cur tr'
  | ev :: tr' => confined (dir_after cur [ev]) tr'
  end.

End Sandbox.

(** The configuration is well formed: its descriptor is -1 or not
    negative, and -1 while it is not initialized. *)
Definition cfg_wf (c : Sandbox.orchlua_cfg) : Prop :=
  -1 <= Sandbox.dirfd c /\ (Sandbox.initialized c = false -> Sandbox.dirfd c = -1).

(** The state of the sandbox agrees with the system calls made: the
    calls are confined, and the directory descriptor open after them is
    the one of the configuration. *)
Definition agrees (st : Sandbox.state) : Prop :=
  Sandbox.confined None (Sandbox.strace st) /\
  Sandbox.dir_after None (Sandbox.strace st) =
    (if Sandbox.dirfd (Sandbox.cfg st) =? -1 then None
     else Some (Sandbox.dirfd (Sandbox.cfg st))).

(** System calls that neither open nor close a directory and are no
    [openat]. *)
Definition plain (tr : list Sandbox.sys_event) : Prop :=
  forall cur, Sandbox.dir_after cur tr = cur /\ Sandbox.confined cur tr.

(** ** The turns of [orch_wait]

    One turn of the loop of [orch_wait] that does not leave it: the wait
    neither fails nor finds the channel at end-of-file, and the receive
    hands over nothing, or a message other than RELEASE, which is
    freed. *)
Inductive wait_turn (ipc : orch_ipc_t) : world -> world -> Prop :=
  | turn_nothing fuel w r w1 w2 :
      orch_ipc_wait fuel ipc w = Ok r w1 ->
      fst r <> -1 -> default false (snd r) = false ->
      orch_ipc_recv fuel ipc w1 = Ok (0, None) w2 ->
      wait_turn ipc w w2
  | turn_other fuel w r w1 msg w2 :
      orch_ipc_wait fuel ipc w = Ok r w1 ->
      fst r <> -1 -> default false (snd r) = false ->
      orch_ipc_recv fuel ipc w1 = Ok (0, Some msg) w2 ->
      orch_ipc_msg_tag msg <> IPC_RELEASE ->
      wait_turn ipc w (log (EvFreeMsg msg) w2).

(** The turn that leaves the loop with success: the wait finds the
    channel at end-of-file, or the receive hands over a RELEASE message,
    which is freed. *)
Inductive wait_exit (ipc : orch_ipc_t) : world -> world -> Prop :=
  | exit_eof fuel w e w' :
      orch_ipc_wait fuel ipc w = Ok (e, Some true) w' ->
      e <> -1 -> chan_eof w' ->
      wait_exit ipc w w'
  | exit_release fuel w r w1 msg w2 :
      orch_ipc_wait fuel ipc w = Ok r w1 ->
      fst r <> -1 -> default false (snd r) = false ->
      orch_ipc_recv fuel ipc w1 = Ok (0, Some msg) w2 ->
      orch_ipc_msg_tag msg = IPC_RELEASE ->
      wait_exit ipc w (log (EvFreeMsg msg) w2).

(** A run of the loop from [w] that ends with success in [w']: turns
    that go on, then the turn that leaves. *)
Definition wait_ends (ipc : orch_ipc_t) (w w' : world) : Prop :=
  exists wl, rtc (wait_turn ipc) w wl /\ wait_exit ipc wl w'.

(** * Properties *)

(** ** Termios update *)

(** C1 (code bug).  [update] is to apply each named field of iflag, oflag,
    cflag, lflag and cc; the list of names it walks leaves out "cflag", so
    its own cflag branch is never reached.  After spawn and fetch_term the
    handle holds [tty1]; [update {cflag = 768}] succeeds, sends [tty1]
    unchanged as TERMIOS_SET, and the handle still holds control word
    19200. *)
Lemma C1_update_drops_cflag :
  exists w1 w2,
    (spawn_parent 20;; orchlua_process_term 20) (boot session_script) = Ok Lterm w1 /\
    p_term (w_proc w1) = Some {| term := tty1; initialized := true |} /\
    orchlua_term_update freebsd_termios_h (fun _ => None) 20
      (LTable {[ "cflag"%string := LNum 768 ]}) w1 = Ok Ltrue w2 /\
    p_term (w_proc w2) = Some {| term := tty1; initialized := true |} /\
    s_out (w_sock w2) =
      s_out (w_sock w1) ++
      wire {| msg_tag := IPC_TERMIOS_SET; msg_data := encode_termios tty1 |} /\
    orchlua_term_fetch freebsd_termios_h {| term := tty1; initialized := true |}
      ["cflag"%string] = [LNum 19200].
Proof.
  do 2 eexists.
  split; [vm_compute; reflexivity|].
  split; [reflexivity|].
  split; [vm_compute; reflexivity|].
  split; [reflexivity|].
  split; vm_compute; reflexivity.
Qed.

(** The sibling fields are applied: the same call with "lflag". *)
Example update_applies_lflag :
  exists w1 w2,
    (spawn_parent 20;; orchlua_process_term 20) (boot session_script) = Ok Lterm w1 /\
    orchlua_term_update freebsd_termios_h (fun _ => None) 20
      (LTable {[ "lflag"%string := LNum 768 ]}) w1 = Ok Ltrue w2 /\
    p_term (w_proc w2) =
      Some {| term := set_lflag 768 tty1; initialized := true |} /\
    s_out (w_sock w2) =
      s_out (w_sock w1) ++
      wire {| msg_tag := IPC_TERMIOS_SET;
              msg_data := encode_termios (set_lflag 768 tty1) |}.
Proof.
  do 2 eexists.
  split; [vm_compute; reflexivity|].
  split; [vm_compute; reflexivity|].
  split; vm_compute; reflexivity.
Qed.

(** ** Dispatch bounds *)

(** C9 (code bug).  [orch_ipc_drain] rejects a short length and the tag
    IPC_NOXMIT only: a header with tag IPC_LAST is queued, and
    [orch_ipc_pop] then reads [callbacks[5]] of a table of five entries. *)
Lemma C9_drain_accepts_tag_past_table :
  exists w1 w2 w3 c,
    spawn_parent 20 (boot [RdData (wire (nodata IPC_RELEASE)); RdErr EAGAIN;
                           RdData (wire (nodata IPC_LAST))]) = Ok 0 w1 /\
    orch_ipc_drain 20 ChanPtr w1 = Ok 0 w2 /\
    w_chan w2 = Some c /\
    length (callbacks c) = 5%nat /\
    queue c = [nodata IPC_LAST] /\
    orch_ipc_pop 20 ChanPtr true w2 = Fault (OutOfBounds 5) w3.
Proof.
  do 4 eexists.
  split; [vm_compute; reflexivity|].
  split; [vm_compute; reflexivity|].
  split; [reflexivity|].
  split; [reflexivity|].
  split; [reflexivity|].
  vm_compute; reflexivity.
Qed.

(** ** Use after release *)

(** C10 (code bug).  [release] closes the channel and stores NULL in the
    handle; [fetch_term] then calls [orch_ipc_okay] on that NULL, which
    reads [ipc->sockfd]: a null dereference where the "process already
    released" failure was meant. *)
Lemma C10_term_after_release_derefs_null :
  exists w1 w2,
    spawn_parent 20 (boot release_script) = Ok 0 w1 /\
    orchlua_process_release 20 w1 = Ok Ltrue w2 /\
    p_ipc (w_proc w2) = NULL /\
    orchlua_process_term 20 w2 = Fault NullDeref w2.
Proof.
  do 2 eexists.
  split; [vm_compute; reflexivity|].
  split; [vm_compute; reflexivity|].
  split; reflexivity.
Qed.

(** ** Registering handlers *)

(** C2 as stated fails.  Installing a handler for a tag that has one:
    during the inquiry of [fetch_term] the one-shot TERMIOS_SET handler is
    in place, and a second installation for the same tag returns 0 and
    replaces it. *)
Lemma C2_second_install_succeeds :
  exists w0 w1 w2 c1 c2,
    spawn_parent 20 (boot release_script) = Ok 0 w0 /\
    orch_ipc_register ChanPtr IPC_TERMIOS_SET (Some fn_orchlua_process_term_set) w0
      = Ok 0 w1 /\
    w_chan w1 = Some c1 /\
    handler_for c1 IPC_TERMIOS_SET = Some fn_orchlua_process_term_set /\
    orch_ipc_register ChanPtr IPC_TERMIOS_SET (Some fn_orch_child_termios_set) w1
      = Ok 0 w2 /\
    w_chan w2 = Some c2 /\
    handler_for c2 IPC_TERMIOS_SET = Some fn_orch_child_termios_set.
Proof.
  do 5 eexists.
  split; [vm_compute; reflexivity|].
  split; [vm_compute; reflexivity|].
  split; [reflexivity|].
  split; [reflexivity|].
  split; [vm_compute; reflexivity|].
  split; reflexivity.
Qed.

(** C2 (amended).  For every live channel and every tag of the table,
    [orch_ipc_register] returns 0 whatever was registered before; the
    slot of the tag then holds the handler given (or none, when it is
    cleared), the slots of the other tags, the queue and the descriptor
    are as they were. *)
Theorem C2_register_always_replaces (w : world) (c : orch_ipc) (tag : Z)
    (h : option orch_ipc_handler) :
  w_chan w = Some c ->
  length (callbacks c) = 5%nat ->
  IPC_NOXMIT < tag < IPC_LAST ->
  exists c',
    orch_ipc_register ChanPtr tag h w = Ok 0 (with_chan (Some c') w) /\
    handler_for c' tag = h /\
    (forall tag', tag' <> tag -> IPC_NOXMIT < tag' < IPC_LAST ->
                  handler_for c' tag' = handler_for c tag') /\
    queue c' = queue c /\ sockfd c' = sockfd c.
Proof.
  intros Hc Hlen [Hlo Hhi]. unfold IPC_NOXMIT, IPC_LAST in *.
  exists (set_callbacks (<[Z.to_nat (tag - 1) := h]> (callbacks c)) c).
  split.
  - unfold orch_ipc_register, bind, deref, callback_slot. rewrite Hc, Hlen.
    replace (0 <=? tag - 1) with true by (symmetry; apply Z.leb_le; lia).
    replace (tag - 1 <? Z.of_nat 5) with true by (symmetry; apply Z.ltb_lt; lia).
    reflexivity.
  - split; [|split; [|split; reflexivity]].
    + unfold handler_for. simpl. rewrite list_lookup_insert_eq; [reflexivity|lia].
    + intros tag' Hne [Hlo' Hhi']. unfold handler_for. simpl.
      rewrite list_lookup_insert_ne; [reflexivity|lia].
Qed.

Lemma C2_register_always_replaces_witness :
  exists c',
    orch_ipc_register ChanPtr IPC_TERMIOS_SET (Some fn_orch_child_termios_set)
      (with_chan (Some {| callbacks := [None; None; None; Some fn_orchlua_process_term_set; None];
                          queue := []; sockfd := 3 |}) (boot []))
    = Ok 0 (with_chan (Some c') (with_chan (Some {| callbacks := [None; None; None; Some fn_orchlua_process_term_set; None];
                          queue := []; sockfd := 3 |}) (boot []))) /\
    handler_for c' IPC_TERMIOS_SET = Some fn_orch_child_termios_set.
Proof.
  destruct (C2_register_always_replaces
              (with_chan (Some {| callbacks := [None; None; None; Some fn_orchlua_process_term_set; None];
                                  queue := []; sockfd := 3 |}) (boot []))
              {| callbacks := [None; None; None; Some fn_orchlua_process_term_set; None];
                 queue := []; sockfd := 3 |}
              IPC_TERMIOS_SET (Some fn_orch_child_termios_set))
    as (c' & H1 & H2 & _).
  - reflexivity.
  - reflexivity.
  - unfold IPC_NOXMIT, IPC_TERMIOS_SET, IPC_LAST. lia.
  - exists c'. split; assumption.
Defined.

(** ** Relations kept by a computation *)

Section Respects.

Variable R : world -> world -> Prop.
Hypothesis R_refl : forall w, R w w.
Hypothesis R_trans : forall a b c, R a b -> R b c -> R a c.

Lemma resp_bind {A B} (m : M A) (k : A -> M B) w :
  resp R m w -> (forall a w1, m w = Ok a w1 -> resp R (k a) w1) ->
  resp R (bind m k) w.
Proof.
  unfold resp, bind. intros Hm Hk.
  destruct (m w) as [a w1| | | | |]; try assumption.
  specialize (Hk a w1 eq_refl).
  destruct (k a w1); try assumption; eapply R_trans; eassumption.
Qed.

Lemma respects_ret {A} (a : A) : respects R (ret a).
Proof. intros w. apply R_refl. Qed.

Lemma respects_bind {A B} (m : M A) (k : A -> M B) :
  respects R m -> (forall a, respects R (k a)) -> respects R (bind m k).
Proof. intros Hm Hk w. apply resp_bind; [apply Hm|]. intros a w1 _. apply Hk. Qed.

Lemma respects_get : respects R get.
Proof. intros w. apply R_refl. Qed.

Lemma respects_self : respects R self.
Proof. intros w. apply R_refl. Qed.

Lemma respects_crash {A} f : respects R (@crash A f).
Proof. intros w. apply R_refl. Qed.

Lemma respects_assert b what : respects R (assert b what).
Proof. destruct b; [apply respects_ret|apply respects_crash]. Qed.

Lemma respects_exit {A} code : respects R (@_exit A code).
Proof. intros w. apply R_refl. Qed.

Lemma respects_fuel {A} : respects R (fun _ : world => @OutOfFuel A).
Proof. intros w. exact I. Qed.

Lemma respects_modify f : (forall w, R w (f w)) -> respects R (modify f).
Proof. intros H w. apply H. Qed.

Lemma respects_deref ipc : respects R (deref ipc).
Proof.
  intros w. unfold resp, deref.
  destruct ipc; [apply R_refl|]. destruct (w_chan w); apply R_refl.
Qed.

(** After [deref] the continuation runs in the same world and knows
    the channel object. *)
Lemma resp_deref {B} ipc (k : orch_ipc -> M B) w :
  (forall c, ipc = ChanPtr -> w_chan w = Some c -> resp R (k c) w) ->
  resp R (bind (deref ipc) k) w.
Proof.
  intros H. unfold resp, bind, deref.
  destruct ipc; [apply R_refl|].
  destruct (w_chan w) as [c|] eqn:E; [|apply R_refl].
  apply (H c eq_refl eq_refl).
Qed.

Lemma respects_ok {A} (m : M A) w a w' : respects R m -> m w = Ok a w' -> R w w'.
Proof. intros H E. specialize (H w). unfold resp in H. rewrite E in H. exact H. Qed.

Lemma respects_not_exec {A} (m : M A) w argv w' :
  respects R m -> m w <> Execed argv w'.
Proof. intros H E. specialize (H w). unfold resp in H. rewrite E in H. exact H. Qed.

End Respects.

Lemma respects_weaken (R R' : world -> world -> Prop) {A} (m : M A) :
  (forall w w', R w w' -> R' w w') -> respects R m -> respects R' m.
Proof.
  intros Hsub Hm w. specialize (Hm w). unfold resp in *.
  destruct (m w); auto.
Qed.

(** Inversion of a [bind] that returns. *)
Lemma bind_ok {A B} (m : M A) (k : A -> M B) w b w' :
  bind m k w = Ok b w' ->
  exists a w1, m w = Ok a w1 /\ k a w1 = Ok b w'.
Proof.
  unfold bind. destruct (m w) as [a w1| | | | |]; try discriminate.
  intros H. exists a, w1. split; [reflexivity|exact H].
Qed.

(** ** What draining and sending leave alone *)

Lemma chan_grows_refl c : chan_grows c c.
Proof. destruct c; simpl; [|exact I]. split; [reflexivity|]. exists []. symmetry. apply app_nil_r. Qed.

Lemma chan_grows_trans a b c : chan_grows a b -> chan_grows b c -> chan_grows a c.
Proof.
  destruct a, b, c; simpl; try tauto.
  intros [H1 [n1 Q1]] [H2 [n2 Q2]]. split; [congruence|].
  exists (n1 ++ n2). rewrite Q2, Q1. symmetry. apply app_assoc.
Qed.

Lemma sends_refl w : sends w w.
Proof.
  repeat split; try reflexivity; [apply chan_grows_refl|].
  exists []. split; [symmetry; apply app_nil_r|constructor].
Qed.

Lemma sends_trans a b c : sends a b -> sends b c -> sends a c.
Proof.
  intros (P1 & S1 & T1 & C1 & tr1 & E1 & Q1) (P2 & S2 & T2 & C2 & tr2 & E2 & Q2).
  repeat split; try congruence; [eapply chan_grows_trans; eassumption|].
  exists (tr1 ++ tr2). split.
  - rewrite E2, E1. symmetry. apply app_assoc.
  - apply Forall_app. split; assumption.
Qed.

Lemma drains_refl w : drains w w.
Proof. split; [apply sends_refl|split; reflexivity]. Qed.

Lemma drains_trans a b c : drains a b -> drains b c -> drains a c.
Proof.
  intros (H1 & O1 & W1) (H2 & O2 & W2).
  split; [eapply sends_trans; eassumption|split; congruence].
Qed.

Lemma drains_sends w w' : drains w w' -> sends w w'.
Proof. intros [H _]. exact H. Qed.

Lemma sends_same_handle w w' : sends w w' -> same_handle w w'.
Proof. intros (P & _). unfold same_handle. rewrite P. reflexivity. Qed.

Lemma same_handle_refl w : same_handle w w.
Proof. reflexivity. Qed.

Lemma same_handle_trans a b c : same_handle a b -> same_handle b c -> same_handle a c.
Proof. unfold same_handle. congruence. Qed.

(** The steps a drain is made of. *)
Lemma drains_errno w x e : drains w x -> drains w (with_errno e x).
Proof. intros H. eapply drains_trans; [exact H|]. destruct (drains_refl x) as (S & O & W). split; [|split]; assumption. Qed.

Lemma drains_rd w x r : drains w x -> drains w (with_sock (set_rd r (w_sock x)) x).
Proof. intros H. eapply drains_trans; [exact H|]. destruct (drains_refl x) as (S & O & W). split; [|split]; assumption. Qed.

Lemma drains_sel w x r : drains w x -> drains w (with_sock (set_sel r (w_sock x)) x).
Proof. intros H. eapply drains_trans; [exact H|]. destruct (drains_refl x) as (S & O & W). split; [|split]; assumption. Qed.

Lemma drains_os w x o : drains w x -> drains w (with_os o x).
Proof. intros H. eapply drains_trans; [exact H|]. destruct (drains_refl x) as (S & O & W). split; [|split]; assumption. Qed.

Lemma drains_log w x ev : quiet ev -> drains w x -> drains w (log ev x).
Proof.
  intros Q H. eapply drains_trans; [exact H|].
  split; [|split; reflexivity].
  repeat split; try reflexivity; [apply chan_grows_refl|].
  exists [ev]. split; [reflexivity|]. constructor; [exact Q|constructor].
Qed.

Lemma drains_store w x c c' :
  w_chan x = Some c -> callbacks c' = callbacks c ->
  (exists new, queue c' = queue c ++ new) ->
  drains w x -> drains w (with_chan (Some c') x).
Proof.
  intros E Hcb Hq H. eapply drains_trans; [exact H|].
  split; [|split; reflexivity].
  repeat split; try reflexivity.
  - simpl. rewrite E. split; assumption.
  - exists []. split; [symmetry; apply app_nil_r|constructor].
Qed.

Ltac drains_tac :=
  repeat first
    [ apply drains_refl
    | apply drains_errno
    | apply drains_rd
    | apply drains_sel
    | apply drains_os
    | apply drains_log; [exact I|] ].

Lemma drains_sock_read fd n : respects drains (sock_read fd n).
Proof.
  intros w. unfold resp, sock_read.
  destruct (fd <? 0); [drains_tac|].
  destruct (s_rd (w_sock w)) as [|[e|bs] rest]; [drains_tac..|].
  destruct (take (Z.to_nat n) bs); drains_tac.
Qed.

Lemma drains_sock_select fd : respects drains (sock_select fd).
Proof.
  intros w. unfold resp, sock_select.
  destruct (s_sel (w_sock w)) as [|[] rest]; [|drains_tac..].
  destruct (s_rd (w_sock w)); drains_tac.
Qed.

Lemma drains_malloc : respects drains malloc.
Proof.
  intros w. unfold resp, malloc.
  destruct (o_alloc (w_os w)) as [|[] rest]; drains_tac.
Qed.

Lemma drains_emit ev : quiet ev -> respects drains (emit ev).
Proof. intros Q w. unfold resp, emit, modify. apply drains_log; [exact Q|apply drains_refl]. Qed.

Lemma drains_set_errno e : respects drains (set_errno e).
Proof. intros w. unfold resp, set_errno, modify. drains_tac. Qed.

Create HintDb respects.

(** Decomposes a computation along its binds and case distinctions;
    [refl] and [trans] are the reflexivity and transitivity of the
    relation, the leaves are looked up in the hint database. *)
Ltac respects_step refl trans :=
  match goal with
  | |- respects _ (ret _) => apply (respects_ret _ refl)
  | |- respects _ (bind _ _) => apply (respects_bind _ trans); [ | intro ]
  | |- respects _ (crash _) => apply (respects_crash _ refl)
  | |- respects _ (assert _ _) => apply (respects_assert _ refl)
  | |- respects _ (_exit _) => apply (respects_exit _ refl)
  | |- respects _ get => apply (respects_get _ refl)
  | |- respects _ self => apply (respects_self _ refl)
  | |- respects _ (deref _) => apply (respects_deref _ refl)
  | |- respects _ (fun _ => OutOfFuel) => apply respects_fuel
  | |- respects _ (if ?b then _ else _) => destruct b
  | |- respects _ (match ?x with _ => _ end) => destruct x
  | |- respects _ _ => solve [auto with respects]
  end.

Tactic Notation "respects_auto" constr(refl) constr(trans) :=
  repeat respects_step refl trans.

Tactic Notation "respects_auto" constr(refl) constr(trans) "first" tactic3(pre) :=
  repeat first [ pre | respects_step refl trans ].

#[export] Hint Resolve drains_sock_read drains_sock_select drains_malloc
  drains_set_errno : respects.
#[export] Hint Extern 1 (respects drains (emit _)) =>
  (apply drains_emit; exact I) : respects.

Lemma drains_poll fuel ipc : respects drains (orch_ipc_poll fuel ipc).
Proof.
  induction fuel as [|fuel IH]; simpl; respects_auto drains_refl drains_trans.
Qed.
#[export] Hint Resolve drains_poll : respects.

Lemma drains_okay ipc : respects drains (orch_ipc_okay ipc).
Proof. unfold orch_ipc_okay. respects_auto drains_refl drains_trans. Qed.
#[export] Hint Resolve drains_okay : respects.

Lemma drains_wait fuel ipc : respects drains (orch_ipc_wait fuel ipc).
Proof. unfold orch_ipc_wait. respects_auto drains_refl drains_trans. Qed.
#[export] Hint Resolve drains_wait : respects.

Lemma drains_eof ipc : respects drains (drain_eof ipc).
Proof.
  intros w. unfold drain_eof. apply (resp_deref _ drains_refl). intros c _ E.
  unfold resp, bind, assert, emit, modify, store, ret, crash.
  destruct (0 <=? sockfd c); [|apply drains_refl].
  eapply drains_store; [exact E|reflexivity|exists []; symmetry; apply app_nil_r|].
  drains_tac.
Qed.
#[export] Hint Resolve drains_eof : respects.

Lemma drains_payload fuel ipc tag acc resid :
  respects drains (drain_payload fuel ipc tag acc resid).
Proof.
  revert acc resid. induction fuel as [|fuel IH]; intros acc resid; simpl;
    respects_auto drains_refl drains_trans.
Qed.
#[export] Hint Resolve drains_payload : respects.

Lemma drains_enqueue {A} ipc m (k : M A) :
  respects drains k ->
  respects drains (do c <- deref ipc; store (set_queue (queue c ++ [m]) c);; k).
Proof.
  intros Hk w. apply (resp_deref _ drains_refl). intros c _ E.
  apply (resp_bind _ drains_trans); [|intros; apply Hk].
  unfold resp, store, modify.
  eapply drains_store; [exact E|reflexivity|exists [m]; reflexivity|apply drains_refl].
Qed.

Lemma drains_loop fuel ipc hdrbuf : respects drains (drain_loop fuel ipc hdrbuf).
Proof.
  revert hdrbuf. induction fuel as [|fuel IH]; intros hdrbuf; simpl;
    respects_auto drains_refl drains_trans first (apply drains_enqueue, IH).
Qed.
#[export] Hint Resolve drains_loop : respects.

Lemma drains_drain fuel ipc : respects drains (orch_ipc_drain fuel ipc).
Proof. unfold orch_ipc_drain. respects_auto drains_refl drains_trans. Qed.

(** Sending adds to what was written and otherwise behaves as a drain. *)
Lemma sends_wr w x l out : sends w x -> sends w (with_sock (set_wr l out (w_sock x)) x).
Proof. intros H. eapply sends_trans; [exact H|]. apply (sends_refl x). Qed.

Lemma sends_errno w x e : sends w x -> sends w (with_errno e x).
Proof. intros H. eapply sends_trans; [exact H|]. apply (sends_refl x). Qed.

Lemma sends_sock_write fd bs : respects sends (sock_write fd bs).
Proof.
  intros w. unfold resp, sock_write.
  destruct (fd <? 0); [apply sends_errno, sends_refl|].
  destruct (s_wr (w_sock w)) as [|[e|k] rest];
    repeat first [apply sends_refl | apply sends_errno | apply sends_wr].
Qed.

Lemma sends_set_errno e : respects sends (set_errno e).
Proof. intros w. apply sends_errno, sends_refl. Qed.

Lemma sends_drain fuel ipc : respects sends (orch_ipc_drain fuel ipc).
Proof. eapply respects_weaken; [apply drains_sends|apply drains_drain]. Qed.

#[export] Hint Resolve sends_sock_write sends_set_errno sends_drain : respects.

Lemma sends_payload fuel ipc rest : respects sends (send_payload fuel ipc rest).
Proof.
  revert rest. induction fuel as [|fuel IH]; intros rest; simpl;
    respects_auto sends_refl sends_trans.
Qed.
#[export] Hint Resolve sends_payload : respects.

Lemma sends_send fuel ipc msg : respects sends (orch_ipc_send fuel ipc msg).
Proof.
  induction fuel as [|fuel IH]; simpl; respects_auto sends_refl sends_trans.
Qed.

(** C4 as stated fails.  Sending with an ERROR message waiting on the
    socket and the ERROR handler registered: the send succeeds, the
    message is in the queue,
    the handler has not been called and the [error] flag is not set; the
    next receive calls it. *)
Lemma C4_send_leaves_message_queued :
  exists w1 w2 w3 c,
    spawn_parent 20
      (boot [RdData (wire (nodata IPC_RELEASE)); RdErr EAGAIN;
             RdData (wire {| msg_tag := IPC_ERROR;
                             msg_data := list_byte_of_string "setsid" |})])
      = Ok 0 w1 /\
    orch_ipc_send 20 ChanPtr (nodata IPC_TERMIOS_INQUIRY) w1 = Ok 0 w2 /\
    w_chan w2 = Some c /\
    handler_for c IPC_ERROR = Some fn_orchlua_child_error /\
    queue c = [{| msg_tag := IPC_ERROR; msg_data := list_byte_of_string "setsid" |}] /\
    w_trace w2 = w_trace w1 /\
    p_error (w_proc w2) = false /\
    orch_ipc_recv 20 ChanPtr w2 = Ok (0, None) w3 /\
    p_error (w_proc w3) = true /\
    w_trace w3 =
      w_trace w2 ++
      [EvHandler fn_orchlua_child_error
         {| msg_tag := IPC_ERROR; msg_data := list_byte_of_string "setsid" |};
       EvStderr (list_byte_of_string "setsid");
       EvFreeMsg {| msg_tag := IPC_ERROR; msg_data := list_byte_of_string "setsid" |}].
Proof.
  do 4 eexists.
  split; [vm_compute; reflexivity|].
  split; [vm_compute; reflexivity|].
  split; [reflexivity|].
  split; [reflexivity|].
  split; [reflexivity|].
  split; [reflexivity|].
  split; [reflexivity|].
  split; [vm_compute; reflexivity|].
  split; reflexivity.
Qed.

(** ** What the channel operations leave alone *)

Lemma runs_refl w : runs w w.
Proof. split; [reflexivity|]. exists []. symmetry. apply app_nil_r. Qed.

Lemma runs_trans a b c : runs a b -> runs b c -> runs a c.
Proof.
  intros [H1 [t1 E1]] [H2 [t2 E2]]. split.
  - eapply same_handle_trans; eassumption.
  - exists (t1 ++ t2). rewrite E2, E1. symmetry. apply app_assoc.
Qed.

Lemma sends_runs w w' : sends w w' -> runs w w'.
Proof.
  intros H. split; [apply sends_same_handle, H|].
  destruct H as (_ & _ & _ & _ & tr & E & _). exists tr. exact E.
Qed.

Lemma runs_of_sends {A} (m : M A) : respects sends m -> respects runs m.
Proof. apply respects_weaken, sends_runs. Qed.

Lemma runs_of_drains {A} (m : M A) : respects drains m -> respects runs m.
Proof. intros H. apply runs_of_sends. revert H. apply respects_weaken, drains_sends. Qed.

Lemma runs_emit ev : respects runs (emit ev).
Proof. intros w. split; [reflexivity|]. exists [ev]. reflexivity. Qed.

Lemma runs_modify f :
  (forall w, w_proc (f w) = w_proc w /\ w_trace (f w) = w_trace w) ->
  respects runs (modify f).
Proof.
  intros H. apply respects_modify. intros w. destruct (H w) as [P T].
  split; [unfold same_handle; rewrite P; reflexivity|].
  exists []. rewrite T. symmetry. apply app_nil_r.
Qed.

Lemma runs_store c : respects runs (store c).
Proof. apply runs_modify. intros w. split; reflexivity. Qed.

Lemma runs_set_error b : respects runs (modify (fun w => with_proc (set_error b (w_proc w)) w)).
Proof.
  apply respects_modify. intros w. split; [reflexivity|].
  exists []. symmetry. apply app_nil_r.
Qed.

Lemma runs_sys_call : respects runs sys_call.
Proof.
  intros w. unfold resp, sys_call. destruct (o_sys (w_os w)); [apply runs_refl|].
  split; [reflexivity|]. exists []. symmetry. apply app_nil_r.
Qed.

#[export] Hint Resolve runs_emit runs_store runs_set_error runs_sys_call : respects.
#[export] Hint Extern 1 (respects runs (orch_ipc_drain _ _)) =>
  (apply runs_of_drains, drains_drain) : respects.
#[export] Hint Extern 1 (respects runs (orch_ipc_send _ _ _)) =>
  (apply runs_of_sends, sends_send) : respects.
#[export] Hint Extern 1 (respects runs (orch_ipc_send_nodata _ _ _)) =>
  (apply runs_of_sends, sends_send) : respects.
#[export] Hint Extern 1 (respects runs (orch_ipc_wait _ _)) =>
  (apply runs_of_drains, drains_wait) : respects.
#[export] Hint Extern 1 (respects runs malloc) =>
  (apply runs_of_drains, drains_malloc) : respects.
#[export] Hint Extern 1 (respects runs (set_errno _)) =>
  (apply runs_of_drains, drains_set_errno) : respects.
#[export] Hint Extern 2 (respects runs (modify _)) =>
  (apply runs_modify; intros ?; split; reflexivity) : respects.

Ltac runs_auto := respects_auto runs_refl runs_trans.

Lemma runs_msg_alloc tag n : respects runs (orch_ipc_msg_alloc tag n).
Proof. unfold orch_ipc_msg_alloc. runs_auto. Qed.

Lemma runs_msg_free m : respects runs (orch_ipc_msg_free m).
Proof. unfold orch_ipc_msg_free. runs_auto. Qed.

Lemma runs_child_error m : respects runs (orchlua_child_error m).
Proof. unfold orchlua_child_error. runs_auto. Qed.

Lemma runs_term_set m : respects runs (orchlua_process_term_set m).
Proof. unfold orchlua_process_term_set. runs_auto. Qed.

#[export] Hint Resolve runs_msg_alloc runs_msg_free runs_child_error runs_term_set : respects.

Section RunsHandlers.
Variable ipc_close : orch_ipc_t -> M Z.
Hypothesis runs_ipc_close : forall ipc, respects runs (ipc_close ipc).
Variable fuel : nat.

Lemma runs_orch_child_error {A} ipc text :
  respects runs (@orch_child_error ipc_close fuel A ipc text).
Proof using runs_ipc_close.
  unfold orch_child_error. runs_auto; apply runs_ipc_close.
Qed.

Lemma runs_inquiry ipc : respects runs (orch_child_termios_inquiry fuel ipc).
Proof. unfold orch_child_termios_inquiry. runs_auto. Qed.

Lemma runs_termios_set ipc m :
  respects runs (orch_child_termios_set ipc_close fuel ipc m).
Proof using runs_ipc_close.
  unfold orch_child_termios_set. runs_auto. apply runs_orch_child_error.
Qed.

Lemma runs_call_handler h ipc m :
  respects runs (call_handler ipc_close fuel h ipc m).
Proof using runs_ipc_close.
  destruct h; simpl; auto with respects.
  - apply runs_inquiry.
  - apply runs_termios_set.
Qed.
End RunsHandlers.

Lemma runs_close_drain fuel ipc error : respects runs (close_drain fuel ipc error).
Proof.
  revert error. induction fuel as [|fuel IH]; intros error; simpl; runs_auto.
Qed.
#[export] Hint Resolve runs_close_drain : respects.

Lemma runs_close_body pop fuel ipc :
  (forall i, respects runs (pop i)) ->
  respects runs (ipc_close_body pop fuel ipc).
Proof.
  intros Hpop. unfold ipc_close_body. runs_auto.
Qed.

Lemma runs_callback_slot c tag : respects runs (callback_slot c tag).
Proof. unfold callback_slot. runs_auto. Qed.
#[export] Hint Resolve runs_callback_slot : respects.

Lemma runs_pop fuel ipc want : respects runs (orch_ipc_pop fuel ipc want).
Proof.
  revert ipc want. induction fuel as [|fuel IH]; intros ipc want; simpl; runs_auto.
  apply runs_call_handler. intros i. apply runs_close_body. intros j. apply IH.
Qed.
#[export] Hint Resolve runs_pop : respects.

Lemma runs_close fuel ipc : respects runs (orch_ipc_close fuel ipc).
Proof. apply runs_close_body. intros i. apply runs_pop. Qed.

Lemma runs_recv fuel ipc : respects runs (orch_ipc_recv fuel ipc).
Proof. unfold orch_ipc_recv. runs_auto. Qed.
#[export] Hint Resolve runs_close runs_recv : respects.

Lemma runs_orch_wait fuel ipc : respects runs (orch_wait fuel ipc).
Proof. induction fuel as [|fuel IH]; simpl; runs_auto. Qed.

Lemma runs_release fuel ipc : respects runs (orch_release fuel ipc).
Proof. unfold orch_release. auto with respects. Qed.

Lemma runs_register ipc tag h : respects runs (orch_ipc_register ipc tag h).
Proof. unfold orch_ipc_register. runs_auto. Qed.
#[export] Hint Resolve runs_orch_wait runs_release runs_register : respects.

(** ** The release handshake *)

Lemma bind_execed {A B} R (m : M A) (k : A -> M B) w argv w' :
  respects R m ->
  bind m k w = Execed argv w' ->
  exists a w1, m w = Ok a w1 /\ R w w1 /\ k a w1 = Execed argv w'.
Proof.
  intros Hm. specialize (Hm w). unfold resp in Hm. unfold bind.
  destruct (m w) as [a w1| | | | |]; try discriminate; [|contradiction].
  intros H. exists a, w1. auto.
Qed.

Lemma deref_ok ipc w c w' :
  deref ipc w = Ok c w' -> ipc = ChanPtr /\ w' = w /\ w_chan w = Some c.
Proof.
  unfold deref. destruct ipc; [discriminate|].
  destruct (w_chan w); [|discriminate]. intros H. injection H as -> ->. auto.
Qed.

Lemma poll_eof fuel ipc w e w' :
  orch_ipc_poll fuel ipc w = Ok (e, true) w' -> chan_eof w'.
Proof.
  revert w. induction fuel as [|fuel IH]; intros w H; [discriminate|].
  simpl in H. apply bind_ok in H as (c & w1 & Hc & H).
  apply deref_ok in Hc as (_ & -> & Hc).
  destruct (sockfd c =? -1) eqn:Hfd.
  - injection H as _ <-. exists c. split; [exact Hc|]. apply Z.eqb_eq, Hfd.
  - apply bind_ok in H as (r & w2 & _ & H). destruct r.
    + discriminate.
    + apply (IH _ H).
    + discriminate.
Qed.

Lemma wait_eof fuel ipc w e w' :
  orch_ipc_wait fuel ipc w = Ok (e, Some true) w' -> chan_eof w'.
Proof.
  unfold orch_ipc_wait. intros H.
  apply bind_ok in H as (c & w1 & Hc & H).
  apply deref_ok in Hc as (_ & -> & Hc).
  destruct (queue c); [|discriminate].
  apply bind_ok in H as ([e' b] & w2 & Hp & H).
  injection H as _ Hb <-. simpl in Hb. subst b.
  apply (poll_eof _ _ _ _ _ Hp).
Qed.

(** C3 as stated fails.  With end-of-file on the control socket and no
    message at all, [spawn] returns success in the parent, and the child
    executes the command. *)
Lemma C3_eof_ends_the_wait :
  (exists w',
     spawn_parent 20 (boot [RdData []]) = Ok 0 w' /\
     w_trace w' = [EvClose 4; EvReadEof 3; EvClose 3]) /\
  (exists w',
     orch_spawn 20 (3, 4) 5 0 ["cat"%string] fn_orchlua_child_error
       (boot [RdErr EAGAIN; RdData []]) = Execed ["cat"%string] w' /\
     w_trace w' =
       [EvClose 3; EvClose 5; EvSigaction SIGINT true; EvReadEof 4; EvClose 4;
        EvFreeIpc]).
Proof.
  split; eexists; (split; [vm_compute; reflexivity|reflexivity]).
Qed.

(** ** Closing twice *)

Lemma waitpid_frame pid nohang w r w1 :
  sys_waitpid pid nohang w = Ok r w1 ->
  w_chan w1 = w_chan w /\ w_proc w1 = w_proc w /\
  exists ret, w_trace w1 = w_trace w ++ [EvWaitpid pid nohang ret].
Proof.
  unfold sys_waitpid.
  destruct (o_child (w_os w)); [destruct nohang; [|destruct (o_alarm (w_os w))]|..];
    intros H; try discriminate; injection H as <- <-.
  all: split; [reflexivity|split; [reflexivity|eexists; reflexivity]].
Qed.
Lemma killed_spec w k w0 :
  orchlua_process_killed w = Ok k w0 ->
  w_chan w0 = w_chan w /\
  p_ipc (w_proc w0) = p_ipc (w_proc w) /\
  p_termctl (w_proc w0) = p_termctl (w_proc w) /\
  (exists r, w_trace w0 = w_trace w ++ [EvWaitpid (p_pid (w_proc w)) true r]) /\
  (k <> None -> p_pid (w_proc w0) = 0) /\
  (k = None -> p_pid (w_proc w0) = p_pid (w_proc w)).
Proof.
  unfold orchlua_process_killed. intros H.
  apply bind_ok in H as (p & w' & Hp & H). injection Hp as <- <-.
  apply bind_ok in H as (? & w' & Ha & H).
  assert (w' = w) as ->.
  { unfold assert in Ha. destruct (negb (p_pid (w_proc w) =? 0)); [|discriminate].
    injection Ha as _ <-. reflexivity. }
  apply bind_ok in H as ([wret status] & w1 & Hw & H).
  apply waitpid_frame in Hw as (C1 & P1 & r & T1).
  apply bind_ok in H as (? & w2 & Hs & H).
  assert (w_chan w2 = w_chan w /\ p_ipc (w_proc w2) = p_ipc (w_proc w) /\
          p_termctl (w_proc w2) = p_termctl (w_proc w) /\
          p_pid (w_proc w2) = p_pid (w_proc w) /\ w_trace w2 = w_trace w1)
    as (C2 & I2 & F2 & D2 & T2).
  { destruct status; injection Hs as _ <-; cbn [w_chan w_proc w_trace with_proc set_status p_ipc p_termctl p_pid];
      rewrite ?C1, ?P1; auto. }
  destruct (negb (wret =? p_pid (w_proc w))).
  - injection H as <- <-.
    repeat split; try assumption; try congruence.
    exists r. congruence.
  - apply bind_ok in H as (p2 & w3 & Hp & H). injection Hp as <- <-.
    apply bind_ok in H as (? & w4 & H4 & H). injection H4 as _ <-.
    injection H as <- <-.
    cbn [w_chan w_proc w_trace with_proc set_pid p_ipc p_termctl p_pid].
    repeat split; try assumption; try congruence.
    exists r. congruence.
Qed.

Lemma close_rest_closed fuel w r w1 :
  process_close_rest fuel w = Ok r w1 ->
  closed (w_proc w1) /\ (p_pid (w_proc w) = 0 -> r = Ltrue).
Proof.
  unfold process_close_rest. intros H.
  apply bind_ok in H as (p & w0 & Hp & H). injection Hp as <- <-.
  apply bind_ok in H as (failed & w2 & Hf & H).
  assert (p_pid (w_proc w2) = 0 /\ (p_pid (w_proc w) = 0 -> failed = false))
    as [Hpid Hfailed].
  { destruct (p_pid (w_proc w) =? 0) eqn:E; simpl in Hf.
    - injection Hf as <- <-. split; [apply Z.eqb_eq, E|reflexivity].
    - apply bind_ok in Hf as (? & wa & _ & Hf).
      apply bind_ok in Hf as (? & wb & _ & Hf).
      apply bind_ok in Hf as (? & wc & _ & Hf).
      apply bind_ok in Hf as (? & wd & _ & Hf).
      apply bind_ok in Hf as (? & we & He & Hf).
      injection He as _ <-. injection Hf as _ <-.
      split; [reflexivity|]. apply Z.eqb_neq in E. tauto. }
  apply bind_ok in H as (p2 & w3 & Hp & H). injection Hp as <- <-.
  apply bind_ok in H as (e & w4 & Hclose & H).
  apply (respects_ok _ _ _ _ _ (runs_close fuel _)) in Hclose as [Hsame _].
  apply bind_ok in H as (? & w5 & H5 & H). injection H5 as _ <-.
  apply bind_ok in H as (p5 & w6 & Hp & H). injection Hp as <- <-.
  apply bind_ok in H as (? & w7 & H7 & H).
  assert (w_proc w7 = set_ipc NULL (w_proc w4)) as Hw7.
  { simpl in H7. destruct (negb (p_termctl (w_proc w4) =? -1));
      injection H7 as _ <-; reflexivity. }
  apply bind_ok in H as (? & w8 & H8 & H). injection H8 as _ <-.
  assert (p_pid (w_proc w4) = 0) as Hpid4.
  { unfold same_handle in Hsame.
    apply (f_equal p_pid) in Hsame. simpl in Hsame. congruence. }
  split.
  - destruct failed; injection H as _ <-; simpl; rewrite Hw7; simpl;
      repeat split; assumption.
  - intros H0. rewrite (Hfailed H0) in H. injection H as <- _. reflexivity.
Qed.

Lemma close_closed_noop fuel w :
  closed (w_proc w) -> orchlua_process_close fuel w = Ok Ltrue w.
Proof.
  destruct w as [ch [tm ipc pid st fd rel eof err] stm ct so os er tr].
  unfold closed. simpl. intros (-> & -> & ->). reflexivity.
Qed.

Lemma close_second fuel w r w1 :
  p_pid (w_proc w) = 0 ->
  orchlua_process_close fuel w = Ok r w1 ->
  r = Ltrue /\ closed (w_proc w1).
Proof.
  intros Hpid H. unfold orchlua_process_close in H.
  apply bind_ok in H as (p & w0 & Hp & H). injection Hp as <- <-.
  rewrite Hpid in H. simpl in H.
  apply close_rest_closed in H as [Hc Hr]. split; [apply Hr, Hpid|exact Hc].
Qed.

(** C5 as stated fails on the Channel.  Closing the same Channel twice
    through [orch_ipc_close]: the first call frees the object, the second
    reads [ipc->sockfd] in it. *)
Lemma C5_channel_close_twice_reads_freed_object :
  exists w0 w1,
    spawn_parent 20 (boot release_script) = Ok 0 w0 /\
    orch_ipc_close 20 ChanPtr w0 = Ok 0 w1 /\
    w_chan w1 = None /\
    w_trace w1 = w_trace w0 ++ [EvShutdown 3; EvReadEof 3; EvClose 3; EvFreeIpc] /\
    orch_ipc_close 20 ChanPtr w1 = Fault UseAfterFree w1.
Proof.
  do 2 eexists.
  split; [vm_compute; reflexivity|].
  split; [vm_compute; reflexivity|].
  split; [reflexivity|].
  split; reflexivity.
Qed.

(** C5 (amended).  Close is idempotent on the process handle.  A close
    that returns leaves the handle either closed (no child, a NULL
    channel pointer, no pty descriptor), and then every further close
    returns success and changes nothing: it frees nothing and closes no
    descriptor; or, when it reported a child killed by a signal, it has
    only reaped the child and released nothing, and the next close
    releases the channel and the pty once, returns success and leaves the
    handle closed.  On the Channel itself close is idempotent for the
    NULL handle only, which is what a closed process handle holds. *)
Theorem C5_process_close_idempotent fuel w r1 w1 :
  orchlua_process_close fuel w = Ok r1 w1 ->
  ((closed (w_proc w1) /\
    forall fuel2, orchlua_process_close fuel2 w1 = Ok Ltrue w1)
   \/
   (exists sig,
      r1 = Lfail (MsgD "spawned process killed with signal '%d'" sig) /\
      w_chan w1 = w_chan w /\
      p_ipc (w_proc w1) = p_ipc (w_proc w) /\
      p_termctl (w_proc w1) = p_termctl (w_proc w) /\
      (exists r, w_trace w1 = w_trace w ++ [EvWaitpid (p_pid (w_proc w)) true r]) /\
      forall fuel2 r2 w2,
        orchlua_process_close fuel2 w1 = Ok r2 w2 ->
        r2 = Ltrue /\ closed (w_proc w2)))
  /\ forall fuel2 w', orch_ipc_close fuel2 NULL w' = Ok 0 w'.
Proof.
  intros H. split; [|reflexivity].
  unfold orchlua_process_close in H.
  apply bind_ok in H as (p & w0 & Hp & H). injection Hp as <- <-.
  apply bind_ok in H as (k & w0 & Hk & H).
  destruct (negb (p_pid (w_proc w) =? 0)) eqn:Hpid.
  - apply killed_spec in Hk as (C & I & F & T & Z & _).
    destruct k as [sig|].
    + destruct (negb (sig =? 0)).
      * injection H as <- <-. right. exists sig.
        split; [reflexivity|]. split; [exact C|]. split; [exact I|].
        split; [exact F|]. split; [exact T|].
        intros fuel2 r2 w2 H2. apply (close_second _ _ _ _ (Z ltac:(discriminate)) H2).
      * apply close_rest_closed in H as [Hc _]. left.
        split; [exact Hc|]. intros fuel2. apply close_closed_noop, Hc.
    + apply close_rest_closed in H as [Hc _]. left.
      split; [exact Hc|]. intros fuel2. apply close_closed_noop, Hc.
  - injection Hk as <- <-.
    apply close_rest_closed in H as [Hc _]. left.
    split; [exact Hc|]. intros fuel2. apply close_closed_noop, Hc.
Qed.

(** A spawned child that exits on SIGINT: the first close returns
    success, and so does the second. *)
Lemma C5_process_close_idempotent_witness :
  orchlua_process_close 20 spawned = Ok Ltrue spawned_closed /\
  closed (w_proc spawned_closed) /\
  orchlua_process_close 20 spawned_closed = Ok Ltrue spawned_closed.
Proof.
  assert (orchlua_process_close 20 spawned = Ok Ltrue spawned_closed) as H
    by (vm_compute; reflexivity).
  split; [exact H|].
  destruct (C5_process_close_idempotent 20 spawned Ltrue spawned_closed H)
    as [[[Hc Hnoop]|(sig & Hr & _)] _].
  - split; [exact Hc|apply Hnoop].
  - discriminate Hr.
Defined.

(** ** The message round trip *)

Lemma Z_of_byte_of_Z z : Z_of_byte (byte_of_Z z) = z mod 256.
Proof.
  unfold Z_of_byte, byte_of_Z.
  assert (0 <= z mod 256 < 256) as Hr by (apply Z.mod_pos_bound; lia).
  destruct (Byte.of_N (Z.to_N (z mod 256))) as [b|] eqn:E.
  - rewrite (Byte.to_of_N _ E). apply Z2N.id. lia.
  - apply Byte.of_N_None_iff in E. lia.
Qed.

Lemma le_value_le_bytes n z :
  le_value (le_bytes n z) = z mod 2 ^ (8 * Z.of_nat n).
Proof.
  revert z. induction n as [|n IH]; intros z.
  - simpl. rewrite Z.mod_1_r. reflexivity.
  - cbn [le_bytes le_value]. rewrite IH, Z_of_byte_of_Z.
    replace (8 * Z.of_nat (S n)) with (8 + 8 * Z.of_nat n) by lia.
    rewrite Z.pow_add_r by lia. change (2 ^ 8) with 256.
    rewrite Z.rem_mul_r; [reflexivity|lia|]. apply Z.pow_pos_nonneg; lia.
Qed.

Lemma signed32_wrap t :
  - 2 ^ 31 <= t < 2 ^ 31 -> signed32 (t mod 2 ^ 32) = t.
Proof.
  intros H. unfold signed32.
  change (2 ^ 31) with 2147483648 in *. change (2 ^ 32) with 4294967296.
  destruct (Z.ltb_spec (t mod 4294967296) 2147483648) as [L|L].
  - destruct (Z_lt_le_dec t 0) as [N|N].
    + rewrite <- (Z.mod_add t 1) in L by lia. rewrite Z.mod_small in L; lia.
    + apply Z.mod_small. lia.
  - destruct (Z_lt_le_dec t 0) as [N|N].
    + rewrite <- (Z.mod_add t 1) by lia. rewrite Z.mod_small; lia.
    + rewrite Z.mod_small in L; lia.
Qed.

Lemma decode_encode_hdr size tag extra :
  0 <= size < SIZE_MODULUS ->
  - 2 ^ 31 <= tag < 2 ^ 31 ->
  decode_hdr (encode_hdr size tag ++ extra) = (size, tag).
Proof.
  intros Hs Ht. unfold decode_hdr, encode_hdr.
  cbn [le_bytes app firstn skipn].
  change ((le_value (le_bytes 8 size), signed32 (le_value (le_bytes 4 tag))) = (size, tag)).
  rewrite !le_value_le_bytes. change (8 * Z.of_nat 8) with 64.
  change (8 * Z.of_nat 4) with 32.
  rewrite signed32_wrap by exact Ht.
  rewrite Z.mod_small by exact Hs. reflexivity.
Qed.

Lemma length_encode_hdr size tag : length (encode_hdr size tag) = 16%nat.
Proof. reflexivity. Qed.

Lemma take_drop_length {A} k (l : list A) :
  take k l ++ drop (length (take k l)) l = l.
Proof.
  rewrite length_take. destruct (Nat.le_gt_cases k (length l)) as [H|H].
  - rewrite Nat.min_l by exact H. apply take_drop.
  - rewrite Nat.min_r by lia. rewrite take_ge, drop_all by lia. apply app_nil_r.
Qed.

(** *** The sender *)

Lemma sock_write_out fd bs w r w1 :
  sock_write fd bs w = Ok r w1 ->
  (exists e, r = WrErr e /\ s_out (w_sock w1) = s_out (w_sock w)) \/
  (exists k, r = WrSome (length (take k bs)) /\
             s_out (w_sock w1) = s_out (w_sock w) ++ take k bs).
Proof.
  unfold sock_write. destruct (fd <? 0).
  { intros H. injection H as <- <-. left. eauto. }
  destruct (s_wr (w_sock w)) as [|[e|k] rest]; intros H; injection H as <- <-.
  - right. exists (length bs). rewrite firstn_all. auto.
  - left. eauto.
  - right. exists k. auto.
Qed.



(** *** The receiver *)

Lemma bind_run {A B} (m : M A) (k : A -> M B) w a w1 :
  m w = Ok a w1 -> bind m k w = k a w1.
Proof. unfold bind. intros ->. reflexivity. Qed.

Lemma deref_run w c : w_chan w = Some c -> deref ChanPtr w = Ok c w.
Proof. unfold deref. intros ->. reflexivity. Qed.

Lemma okay_run w c :
  w_chan w = Some c -> orch_ipc_okay ChanPtr w = Ok (0 <=? sockfd c) w.
Proof. intros H. unfold orch_ipc_okay. rewrite (bind_run _ _ _ _ _ (deref_run _ _ H)). reflexivity. Qed.

Lemma malloc_run w : o_alloc (w_os w) = [] -> malloc w = Ok true w.
Proof. unfold malloc. intros ->. reflexivity. Qed.

Lemma sock_read_data fd n w b bs rest :
  0 <= fd -> (0 < Z.to_nat n)%nat ->
  s_rd (w_sock w) = RdData (b :: bs) :: rest ->
  sock_read fd n w =
    Ok (RdData (take (Z.to_nat n) (b :: bs)))
       (with_sock (set_rd match drop (Z.to_nat n) (b :: bs) with
                          | [] => rest
                          | more => RdData more :: rest
                          end (w_sock w)) w).
Proof.
  intros Hfd Hn Hrd. unfold sock_read.
  replace (fd <? 0) with false by (symmetry; apply Z.ltb_ge; exact Hfd).
  rewrite Hrd. destruct (Z.to_nat n) as [|k]; [lia|]. reflexivity.
Qed.

Lemma sock_read_none fd n w :
  0 <= fd -> s_rd (w_sock w) = [] ->
  sock_read fd n w = Ok (RdErr EAGAIN) (with_errno EAGAIN w).
Proof.
  intros Hfd Hrd. unfold sock_read.
  replace (fd <? 0) with false by (symmetry; apply Z.ltb_ge; exact Hfd).
  rewrite Hrd. reflexivity.
Qed.

(** One piece of the payload that fits in what is still to come. *)
Lemma drain_payload_piece fuel w c tag acc resid b bs rest :
  w_chan w = Some c -> 0 <= sockfd c ->
  s_rd (w_sock w) = RdData (b :: bs) :: rest ->
  Z.of_nat (length (b :: bs)) <= resid ->
  drain_payload (S fuel) ChanPtr tag acc resid w =
    drain_payload fuel ChanPtr tag (acc ++ b :: bs)
      (resid - Z.of_nat (length (b :: bs)))
      (with_sock (set_rd rest (w_sock w)) w).
Proof.
  intros Hc Hfd Hrd Hle. cbn [drain_payload].
  replace (resid =? 0) with false
    by (symmetry; apply Z.eqb_neq; cbn [length] in Hle; lia).
  rewrite (bind_run _ _ _ _ _ (deref_run _ _ Hc)).
  assert (0 < Z.to_nat resid)%nat as Hn by (cbn [length] in Hle; lia).
  rewrite (bind_run _ _ _ _ _ (sock_read_data _ _ _ _ _ _ Hfd Hn Hrd)).
  rewrite take_ge by lia. rewrite drop_ge by lia. reflexivity.
Qed.

(** The payload is read in the pieces in which it arrives. *)
Lemma drain_payload_pieces fuel pieces : forall w c tag acc rest,
  w_chan w = Some c -> 0 <= sockfd c ->
  Forall (fun p => p <> []) pieces ->
  s_rd (w_sock w) = map RdData pieces ++ rest ->
  drain_payload (S (length pieces + fuel)) ChanPtr tag acc
    (Z.of_nat (length (concat pieces))) w =
    Ok (PayloadDone (acc ++ concat pieces))
       (with_sock (set_rd rest (w_sock w)) w).
Proof.
  induction pieces as [|p ps IH]; intros w c tag acc rest Hc Hfd Hne Hrd.
  - simpl. rewrite app_nil_r. f_equal.
    destruct w as [? ? ? ? [] ? ? ?]. simpl in *. subst. reflexivity.
  - inversion Hne as [|? ? Hp Hps]; subst.
    destruct p as [|b bs]; [congruence|].
    change (S (length ((b :: bs) :: ps) + fuel)) with (S (S (length ps + fuel))).
    rewrite (drain_payload_piece _ w c tag acc _ b bs (map RdData ps ++ rest) Hc Hfd Hrd)
      by (cbn [concat]; rewrite length_app; lia).
    replace (Z.of_nat (length (concat ((b :: bs) :: ps))) - Z.of_nat (length (b :: bs)))
      with (Z.of_nat (length (concat ps)))
      by (cbn [concat]; rewrite length_app; lia).
    erewrite IH; [|exact Hc|exact Hfd|exact Hps|reflexivity].
    cbn [concat]. rewrite <- app_assoc. reflexivity.
Qed.

Lemma sock_read_header fd w size tag more rest :
  0 <= fd ->
  s_rd (w_sock w) = RdData (encode_hdr size tag ++ more) :: rest ->
  sock_read fd sizeof_hdr w =
    Ok (RdData (encode_hdr size tag))
       (with_sock (set_rd match more with
                          | [] => rest
                          | b :: l => RdData (b :: l) :: rest
                          end (w_sock w)) w).
Proof.
  intros Hfd Hrd. unfold sock_read.
  replace (fd <? 0) with false by (symmetry; apply Z.ltb_ge; exact Hfd).
  rewrite Hrd. change (Z.to_nat sizeof_hdr) with 16%nat.
  rewrite take_app_length' by reflexivity.
  rewrite drop_app_length' by reflexivity. reflexivity.
Qed.

(** A message is read and queued when its header arrives whole, with or
    without the first bytes of the payload, and the rest of the payload
    in any pieces. *)
Lemma drain_loop_message fuel w c m more pieces rest hdrbuf :
  w_chan w = Some c -> 0 <= sockfd c ->
  s_rd (w_sock w) =
    RdData (encode_hdr (hdr_size m) (msg_tag m) ++ more) :: map RdData pieces ++ rest ->
  more ++ concat pieces = msg_data m ->
  Forall (fun p => p <> []) pieces ->
  o_alloc (w_os w) = [] ->
  msg_tag m <> IPC_NOXMIT -> - 2 ^ 31 <= msg_tag m < 2 ^ 31 ->
  Z.of_nat (length (msg_data m)) + 32 < SIZE_MODULUS ->
  drain_loop (S (S (S (length pieces + fuel)))) ChanPtr hdrbuf w =
    drain_loop (S (S (length pieces + fuel))) ChanPtr
      (encode_hdr (hdr_size m) (msg_tag m) ++ drop 16 hdrbuf)
      (with_chan (Some (set_queue (queue c ++ [m]) c))
         (with_sock (set_rd rest (w_sock w)) w)).
Proof.
  intros Hc Hfd Hrd Hdata Hne Halloc Htag Hint Hlen.
  assert (SIZE_MODULUS = 18446744073709551616) as HM by reflexivity.
  cbn [drain_loop].
  rewrite (bind_run _ _ _ _ _ (deref_run _ _ Hc)).
  rewrite (bind_run _ _ _ _ _ (sock_read_header _ _ _ _ _ _ Hfd Hrd)).
  assert (decode_hdr (encode_hdr (hdr_size m) (msg_tag m) ++ drop 16 hdrbuf)
          = (hdr_size m, msg_tag m)) as Hdec.
  { apply decode_encode_hdr; [|exact Hint].
    unfold hdr_size, IPC_MSG_HDR_SIZE, sizeof_hdr. lia. }
  destruct (encode_hdr (hdr_size m) (msg_tag m)) as [|b0 bs0] eqn:E.
  { apply (f_equal length) in E. rewrite length_encode_hdr in E. discriminate E. }
  cbv beta iota.
  replace (length (b0 :: bs0)) with 16%nat
    by (rewrite <- E; symmetry; apply length_encode_hdr).
  rewrite Hdec.
  replace (hdr_size m <? sizeof_hdr) with false
    by (symmetry; apply Z.ltb_ge; unfold hdr_size, IPC_MSG_HDR_SIZE; lia).
  replace (msg_tag m =? IPC_NOXMIT) with false
    by (symmetry; apply Z.eqb_neq; exact Htag).
  cbn [orb].
  erewrite bind_run by (apply malloc_run; exact Halloc). cbn [negb].
  replace (SIZE_MODULUS <=? IPC_MSG_SIZE (hdr_size m)) with false
    by (symmetry; apply Z.leb_gt;
        unfold IPC_MSG_SIZE, hdr_size, IPC_MSG_HDR_SIZE, sizeof_msg, sizeof_hdr; lia).
  erewrite bind_run by (apply malloc_run; exact Halloc). cbn [negb].
  set (arrived := match more with [] => pieces | _ => more :: pieces end).
  assert (concat arrived = msg_data m) as Hcat
    by (subst arrived; destruct more; exact Hdata).
  assert (Forall (fun p => p <> []) arrived) as Hne'
    by (subst arrived; destruct more; [exact Hne|constructor; [discriminate|exact Hne]]).
  assert (exists extra, (S (S (length pieces + fuel)) = S (length arrived + extra))%nat)
    as [extra Hfuel].
  { subst arrived. destruct more; [exists (S fuel)|exists fuel]; simpl; lia. }
  rewrite Hfuel.
  replace (hdr_size m - sizeof_hdr) with (Z.of_nat (length (concat arrived)))
    by (rewrite Hcat; unfold hdr_size, IPC_MSG_HDR_SIZE; lia).
  erewrite bind_run.
  2:{ apply (drain_payload_pieces _ arrived _ c); [exact Hc|exact Hfd|exact Hne'|].
      subst arrived. destruct more; reflexivity. }
  cbv beta iota. rewrite Hcat. cbn [app].
  erewrite bind_run by (apply deref_run; exact Hc).
  unfold store at 1. unfold modify at 1. unfold bind at 1.
  destruct m as [tag data]. destruct w as [? ? ? ? [] ? ? ?]. reflexivity.
Qed.

Lemma drain_loop_silent fuel w c hdrbuf :
  w_chan w = Some c -> 0 <= sockfd c -> s_rd (w_sock w) = [] ->
  drain_loop (S fuel) ChanPtr hdrbuf w = Ok 0 (with_errno EAGAIN w).
Proof.
  intros Hc Hfd Hrd. cbn [drain_loop].
  rewrite (bind_run _ _ _ _ _ (deref_run _ _ Hc)).
  rewrite (bind_run _ _ _ _ _ (sock_read_none _ _ _ Hfd Hrd)). reflexivity.
Qed.

Lemma pop_unhandled fuel w c m rest :
  w_chan w = Some c -> queue c = m :: rest ->
  length (callbacks c) = 5%nat ->
  IPC_NOXMIT < msg_tag m < IPC_LAST ->
  handler_for c (msg_tag m) = None ->
  orch_ipc_pop (S fuel) ChanPtr true w =
    Ok (0, Some m) (with_chan (Some (set_queue rest c)) w).
Proof.
  intros Hc Hq Hlen [Hlo Hhi] Hh. unfold IPC_NOXMIT, IPC_LAST in *.
  cbn [orch_ipc_pop].
  rewrite (bind_run _ _ _ _ _ (deref_run _ _ Hc)). rewrite Hq.
  unfold store at 1. unfold modify at 1. unfold bind at 1.
  unfold callback_slot. rewrite Hlen.
  replace (0 <=? msg_tag m - 1) with true by (symmetry; apply Z.leb_le; lia).
  replace (msg_tag m - 1 <? Z.of_nat 5) with true by (symmetry; apply Z.ltb_lt; lia).
  cbn [andb]. unfold bind at 1. unfold ret at 1.
  unfold handler_for in Hh. rewrite Hh. reflexivity.
Qed.

Lemma drain_message fuel w c m more pieces :
  w_chan w = Some c -> 0 <= sockfd c ->
  s_rd (w_sock w) =
    RdData (encode_hdr (hdr_size m) (msg_tag m) ++ more) :: map RdData pieces ->
  more ++ concat pieces = msg_data m ->
  Forall (fun p => p <> []) pieces ->
  o_alloc (w_os w) = [] ->
  IPC_NOXMIT < msg_tag m < IPC_LAST ->
  Z.of_nat (length (msg_data m)) + 32 < SIZE_MODULUS ->
  orch_ipc_drain (S (S (S (length pieces + fuel)))) ChanPtr w =
    Ok 0 (with_errno EAGAIN
            (with_chan (Some (set_queue (queue c ++ [m]) c))
               (with_sock (set_rd [] (w_sock w)) w))).
Proof.
  intros Hc Hfd Hrd Hdata Hne Halloc Htag Hsz. unfold orch_ipc_drain.
  rewrite (bind_run _ _ _ _ _ (okay_run _ _ Hc)).
  replace (0 <=? sockfd c) with true by (symmetry; apply Z.leb_le; exact Hfd).
  cbn [negb]. rewrite (bind_run get _ w w w eq_refl).
  rewrite (drain_loop_message fuel w c m more pieces [] _ Hc Hfd);
    [|rewrite app_nil_r; exact Hrd|exact Hdata|exact Hne|exact Halloc
     |unfold IPC_NOXMIT, IPC_LAST in *; lia..|exact Hsz].
  apply (drain_loop_silent _ _ (set_queue (queue c ++ [m]) c));
    [reflexivity|exact Hfd|reflexivity].
Qed.


Lemma sock_write_whole fd bs w :
  0 <= fd -> s_wr (w_sock w) = [] ->
  sock_write fd bs w =
    Ok (WrSome (length bs))
       (with_sock (set_wr [] (s_out (w_sock w) ++ bs) (w_sock w)) w).
Proof.
  intros Hfd Hwr. unfold sock_write.
  replace (fd <? 0) with false by (symmetry; apply Z.ltb_ge; exact Hfd).
  rewrite Hwr. reflexivity.
Qed.




(** ** Termination escalation *)

Lemma close_escalates_aux fuel w :
  0 < p_pid (w_proc w) -> o_child (w_os w) = Running ->
  exists w1,
    (forall e w2,
       orch_ipc_close fuel (p_ipc (w_proc w)) w1 = Ok e w2 ->
       orchlua_process_close fuel w =
         Ok (close_verdict (o_sigint (w_os w)))
            (with_proc (set_termctl (-1) (set_ipc NULL (w_proc w2)))
               (if negb (p_termctl (w_proc w2) =? -1)
                then log (EvClose (p_termctl (w_proc w2))) w2 else w2))) /\
    w_trace w1 = w_trace w ++ escalation (p_pid (w_proc w)) (o_sigint (w_os w)) /\
    o_child (w_os w1) = Reaped /\
    p_pid (w_proc w1) = 0 /\
    w_chan w1 = w_chan w /\ w_sock w1 = w_sock w /\
    p_ipc (w_proc w1) = p_ipc (w_proc w) /\
    p_termctl (w_proc w1) = p_termctl (w_proc w).
Proof.
  intros Hpid Hrun.
  destruct w as [ch [tm ipc pid st fd rel eof err] stm ct so
                   [al jk chd sg psel prd clk tcf tty sys alm] er tr].
  simpl in *. subst chd. destruct pid as [|q|q]; try lia.
  destruct sg as [s|].
  - eexists. split.
    + intros e w2 H.
      unfold orchlua_process_close, process_close_rest, orchlua_process_killed,
        close_terminate, close_signal, sys_kill, sys_waitpid, sys_alarm, bind, self,
        assert, emit, modify, update_proc, ret, crash.
      cbn -[orch_ipc_close]. rewrite ?Pos.eqb_refl. cbn -[orch_ipc_close].
      rewrite H. destruct (p_termctl (w_proc w2) =? -1); reflexivity.
    + split; [cbn; rewrite <- !app_assoc; reflexivity|].
      cbn. repeat split; reflexivity.
  - eexists. split.
    + intros e w2 H.
      unfold orchlua_process_close, process_close_rest, orchlua_process_killed,
        close_terminate, close_signal, sys_kill, sys_waitpid, sys_alarm, bind, self,
        assert, emit, modify, update_proc, ret, crash.
      cbn -[orch_ipc_close]. rewrite ?Pos.eqb_refl. cbn -[orch_ipc_close].
      rewrite H. destruct (p_termctl (w_proc w2) =? -1); reflexivity.
    + split; [cbn; rewrite <- !app_assoc; reflexivity|].
      cbn. repeat split; reflexivity.
Qed.

(** A child that exits on SIGINT, and one that ignores it. *)
Example close_graceful :
  exists w',
    orchlua_process_close 20 spawned = Ok Ltrue w' /\
    w_trace w' =
      w_trace spawned ++ escalation 100 (Some SIGINT) ++
      [EvShutdown 3; EvReadEof 3; EvClose 3; EvFreeIpc; EvClose 5].
Proof. eexists. split; [vm_compute; reflexivity|reflexivity]. Qed.

Example close_escalated :
  exists w',
    orchlua_process_close 20 stubborn
      = Ok (Lfail (Msg "could not kill process with SIGINT")) w' /\
    w_trace w' =
      w_trace stubborn ++ escalation 100 None ++
      [EvShutdown 3; EvReadEof 3; EvClose 3; EvFreeIpc; EvClose 5] /\
    o_child (w_os w') = Reaped /\ closed (w_proc w').
Proof.
  eexists. split; [vm_compute; reflexivity|].
  split; [reflexivity|]. split; [reflexivity|]. repeat split; reflexivity.
Qed.

(** ** The end conditions of read *)

Lemma pty_select_frame fd tm w r w0 :
  pty_select fd tm w = Ok r w0 ->
  w_proc w0 = w_proc w /\ w_trace w0 = w_trace w /\
  o_child (w_os w0) = o_child (w_os w).
Proof.
  unfold pty_select. destruct (fd <? 0); [discriminate|].
  destruct (o_pty_sel (w_os w)) as [|[] rest].
  - destruct tm; [|destruct (o_pty_rd (w_os w)); [discriminate|]];
      intros H; injection H as _ <-; auto.
  - intros H; injection H as _ <-; auto.
  - intros H; injection H as _ <-; auto.
  - intros H; injection H as _ <-; auto.
  - intros H; injection H as _ <-; auto.
Qed.

Lemma pty_read_frame fd w r w1 :
  pty_read fd w = Ok r w1 ->
  w_proc w1 = w_proc w /\ w_trace w1 = w_trace w /\
  o_child (w_os w1) = o_child (w_os w).
Proof.
  unfold pty_read. destruct (o_pty_rd (w_os w)) as [|[e|bs] rest];
    intros H; injection H as _ <-; auto.
Qed.

(** What [read] does once the pty has reported end-of-file. *)
Lemma read_eof_tail w1 :
  0 < p_pid (w_proc w1) -> 0 <= p_termctl (w_proc w1) ->
  exists w',
    (update_proc (set_eof true);;
     do p <- self;
     assert (0 <=? p_termctl p) "self->termctl >= 0";;
     emit (EvClose (p_termctl p));;
     update_proc (set_termctl (-1));;
     do killed <- orchlua_process_killed;
     match killed with
     | Some signo =>
         if negb (signo =? 0) then
           ret (Lfail (MsgD "spawned process killed with signal '%d'" signo))
         else ret Ltrue
     | None => ret Ltrue
     end) w1 = Ok (eof_verdict (o_child (w_os w1))) w' /\
    p_eof (w_proc w') = true /\
    p_termctl (w_proc w') = -1 /\
    (exists r, w_trace w' =
               w_trace w1 ++ [EvClose (p_termctl (w_proc w1));
                              EvWaitpid (p_pid (w_proc w1)) true r]) /\
    o_child (w_os w') = after_probe (o_child (w_os w1)) /\
    p_pid (w_proc w') =
      match o_child (w_os w1) with Zombie _ => 0 | _ => p_pid (w_proc w1) end.
Proof.
  intros Hpid Hfd.
  destruct w1 as [ch [tm ipc pid st fd rel eof err] stm ct so
                    [al jk chd sg psel prd clk tcf tty sys alm] er tr].
  simpl in *. destruct pid as [|q|q]; try lia.
  unfold orchlua_process_killed, sys_waitpid, bind, self, assert, emit, modify,
    update_proc, ret, crash.
  cbn -[WIFSIGNALED WTERMSIG Z.leb].
  replace (0 <=? fd) with true by (symmetry; apply Z.leb_le; exact Hfd).
  destruct chd as [|status|]; cbn -[WIFSIGNALED WTERMSIG].
  - eexists. split; [reflexivity|]. cbn. rewrite <- app_assoc. eauto 10.
  - rewrite Pos.eqb_refl. cbn -[WIFSIGNALED WTERMSIG].
    destruct (WIFSIGNALED status) eqn:E.
    + assert (negb (WTERMSIG status =? 0) = true) as ->
        by (unfold WIFSIGNALED in E; apply andb_prop in E; tauto).
      eexists. split; [reflexivity|]. cbn. rewrite <- app_assoc. eauto 10.
    + eexists. split; [reflexivity|]. cbn. rewrite <- app_assoc. eauto 10.
  - eexists. split; [reflexivity|]. cbn. rewrite <- app_assoc. eauto 10.
Qed.

(** The end conditions of the loop of [read] for a handle whose child
    has not been reaped, at an iteration that goes on.  When the pty is
    readable and its read fails with EIO or returns no bytes - the two
    are treated alike - read calls the callback with no data, latches the
    end-of-file flag, closes the parent-side pty descriptor, and makes
    the non-blocking wait for the child; it fails exactly when that wait
    finds the child ended by a signal, and reports a clean end-of-file
    otherwise.  When select times out, and when the timeout has run out,
    read returns success with no error. *)
Lemma read_end_conditions fuel fd timeout start now callback w :
  (forall w0 r w1,
     read_goes_on timeout start now w = true ->
     pty_select fd (bool_decide (timeout <> None)) w = Ok PtyReady w0 ->
     pty_read fd w0 = Ok r w1 ->
     r = RdErr EIO \/ r = RdData [] ->
     0 < p_pid (w_proc w) -> 0 <= p_termctl (w_proc w) ->
     exists w',
       process_read_loop (S fuel) fd timeout start now callback w
         = Ok (eof_verdict (o_child (w_os w))) w' /\
       p_eof (w_proc w') = true /\
       p_termctl (w_proc w') = -1 /\
       (exists ret,
          w_trace w' =
            w_trace w ++ [EvCallback None; EvClose (p_termctl (w_proc w));
                          EvWaitpid (p_pid (w_proc w)) true ret]) /\
       o_child (w_os w') = after_probe (o_child (w_os w))) /\
  (forall sig,
     eof_verdict (o_child (w_os w))
       = Lfail (MsgD "spawned process killed with signal '%d'" sig) <->
     exists status,
       o_child (w_os w) = Zombie status /\ WIFSIGNALED status = true /\
       sig = WTERMSIG status) /\
  (forall w0,
     read_goes_on timeout start now w = true ->
     pty_select fd (bool_decide (timeout <> None)) w = Ok PtyTimeout w0 ->
     process_read_loop (S fuel) fd timeout start now callback w = Ok Ltrue w0) /\
  (forall t,
     timeout = Some t -> t <= now - start ->
     process_read_loop (S fuel) fd timeout start now callback w = Ok Ltrue w).
Proof.
  split; [|split; [|split]].
  - intros w0 r w1 Hon Hsel Hread Hr Hpid Hfd.
    destruct (pty_select_frame _ _ _ _ _ Hsel) as (P0 & T0 & C0).
    destruct (pty_read_frame _ _ _ _ Hread) as (P1 & T1 & C1).
    destruct (read_eof_tail (log (EvCallback None) w1)) as (w' & Hrun & He & Ht & [ret Htr] & Hc & _).
    { simpl. rewrite P1, P0. exact Hpid. }
    { simpl. rewrite P1, P0. exact Hfd. }
    exists w'. split; [|split; [exact He|split; [exact Ht|split]]].
    + cbn [process_read_loop].
      rewrite (bind_run self _ w (w_proc w) w eq_refl).
      change (match timeout with Some t => now - start <? t | None => true end
              && negb (p_error (w_proc w)))
        with (read_goes_on timeout start now w).
      rewrite Hon.
      rewrite (bind_run _ _ _ _ _ Hsel). cbv iota.
      rewrite (bind_run _ _ _ _ _ Hread).
      assert (o_child (w_os w) = o_child (w_os (log (EvCallback None) w1))) as ->
        by (simpl; congruence).
      rewrite <- Hrun.
      destruct Hr as [-> | ->]; reflexivity.
    + exists ret. rewrite Htr. simpl. rewrite T1, T0, P1, P0, <- app_assoc. reflexivity.
    + rewrite Hc. simpl. rewrite C1, C0. reflexivity.
  - intros sig. unfold eof_verdict. destruct (o_child (w_os w)) as [|status|].
    + split; [discriminate|]. intros (s & H & _). discriminate H.
    + destruct (WIFSIGNALED status) eqn:E.
      * split.
        -- intros H. injection H as <-. exists status. auto.
        -- intros (s & H & _ & ->). injection H as <-. reflexivity.
      * split; [discriminate|]. intros (s & H & Hs & _). injection H as <-. congruence.
    + split; [discriminate|]. intros (s & H & _). discriminate H.
  - intros w0 Hon Hsel. cbn [process_read_loop].
    rewrite (bind_run self _ w (w_proc w) w eq_refl).
    change (match timeout with Some t => now - start <? t | None => true end
            && negb (p_error (w_proc w)))
      with (read_goes_on timeout start now w).
    rewrite Hon. rewrite (bind_run _ _ _ _ _ Hsel). reflexivity.
  - intros t -> Hexp. cbn [process_read_loop].
    rewrite (bind_run self _ w (w_proc w) w eq_refl).
    replace (now - start <? t) with false by (symmetry; apply Z.ltb_ge; exact Hexp).
    reflexivity.
Qed.

(** The same end-of-file seen as a read of no bytes, with a child that
    has exited by itself; and a timeout. *)
Example read_clean_eof :
  exists w',
    orchlua_process_read 5 (fun _ => false) None
      (with_os (set_child (Zombie 0) (set_pty [] [RdData []] (w_os spawned))) spawned)
      = Ok Ltrue w' /\
    p_eof (w_proc w') = true /\ p_termctl (w_proc w') = -1 /\ p_pid (w_proc w') = 0.
Proof. eexists. split; [vm_compute; reflexivity|]. repeat split; reflexivity. Qed.

Example read_timeout :
  orchlua_process_read 5 (fun _ => false) (Some 3) spawned = Ok Ltrue spawned.
Proof. vm_compute. reflexivity. Qed.

(** * Further properties *)

(** ** Control characters of the terminal-attribute handle *)

Section TtyProperties.

Variable th : termios_h.
Variable lua_str2number : string -> option Z.

(** X1.  The strings [update] takes for a control character that is not a
    literal number are exactly the empty string, which disables the
    character, "^?", which is DEL, and "^c" for [c] from '@' to '_', which
    is [c] less 64; so a character set from a string is the disabled one,
    127, or one of 0 .. 31.  Anything else, and any value that is not a
    string, is refused. *)
Theorem parse_cc_accepts name v cc :
  parse_cc th name v = inr cc <->
  exists s, v = LStr s /\
    (s = ""%string /\ cc = _POSIX_VDISABLE th \/
     s = "^?"%string /\ cc = 127 \/
     exists c, s = String "^" (String c "") /\
       (64 <= nat_of_ascii c <= 95)%nat /\
       cc = Z.of_nat (nat_of_ascii c) - 64).
Proof.
  split.
  - destruct v as [| | |s|]; try discriminate. simpl.
    intros H. exists s. split; [reflexivity|].
    destruct s as [|c0 [|c1 [|c2 s]]]; try discriminate.
    + left. injection H as <-. auto.
    + right.
      destruct (Ascii.eqb c0 "^") eqn:E0; [|discriminate]. apply Ascii.eqb_eq in E0. subst c0.
      destruct (Ascii.eqb c1 "?") eqn:E1; simpl in H.
      * apply Ascii.eqb_eq in E1. subst c1. injection H as <-. left. auto.
      * right.
        destruct (nat_of_ascii c1 <? 64)%nat eqn:Elo; [discriminate|].
        destruct (95 <? nat_of_ascii c1)%nat eqn:Ehi; [discriminate|].
        injection H as <-. exists c1. apply Nat.ltb_ge in Elo, Ehi. auto.
  - intros (s & -> & [[-> ->]|[[-> ->]|(c & -> & [Hlo Hhi] & ->)]]); try reflexivity.
    simpl.
    destruct (Ascii.eqb c "?") eqn:E1.
    + apply Ascii.eqb_eq in E1. subst c. vm_compute in Hlo. lia.
    + simpl.
      replace (nat_of_ascii c <? 64)%nat with false by (symmetry; apply Nat.ltb_ge; lia).
      replace (95 <? nat_of_ascii c)%nat with false by (symmetry; apply Nat.ltb_ge; lia).
      reflexivity.
Qed.

(** The table that [fetch] fills holds, under the name of each entry, the
    value of the last entry of that name. *)
Lemma fetch_cc_lookup (g : orchlua_tty_cntrl -> lua_value) iters :
  NoDup (map cntrl_name iters) ->
  forall (tbl : gmap string lua_value) iter, iter ∈ iters ->
    foldl (fun tbl it => <[cntrl_name it := g it]> tbl) tbl iters !! cntrl_name iter
    = Some (g iter).
Proof.
  induction iters as [|it iters IH]; intros Hnd tbl iter Hin.
  - inversion Hin.
  - simpl in Hnd. apply NoDup_cons in Hnd as [Hnot Hnd]. simpl.
    apply elem_of_cons in Hin as [->|Hin]; [|apply (IH Hnd _ _ Hin)].
    clear IH. revert tbl. induction iters as [|it' iters IH]; intros tbl.
    + simpl. apply lookup_insert_eq.
    + simpl. simpl in Hnot. apply not_elem_of_cons in Hnot as [Hne Hnot].
      apply NoDup_cons in Hnd as [_ Hnd].
      rewrite insert_insert_ne by congruence. apply (IH Hnot Hnd).
Qed.

Lemma cntrl_names_NoDup : NoDup (map cntrl_name (orchlua_cntrl_chars th)).
Proof.
  unfold orchlua_cntrl_chars. destruct (VSTATUS th); simpl;
    (eapply bool_decide_unpack; vm_compute; reflexivity).
Qed.

Lemma caret_round_trip name cc :
  0 <= cc < 32 ->
  parse_cc th name (LStr (String "^" (String (ascii_of_nat (Z.to_nat (cc + 64))) "")))
  = inr cc.
Proof.
  intros Hcc. cbn [parse_cc]. change (Ascii.eqb "^" "^") with true. cbn [negb].
  assert (nat_of_ascii (ascii_of_nat (Z.to_nat (cc + 64))) = Z.to_nat (cc + 64)) as E
    by (apply nat_ascii_embedding; lia).
  destruct (Ascii.eqb (ascii_of_nat (Z.to_nat (cc + 64))) "?") eqn:Eq.
  - apply Ascii.eqb_eq in Eq. rewrite Eq in E. change (nat_of_ascii "?") with 63%nat in E. lia.
  - rewrite E. cbn [negb andb].
    replace (Z.to_nat (cc + 64) <? 64)%nat with false by (symmetry; apply Nat.ltb_ge; lia).
    replace (95 <? Z.to_nat (cc + 64))%nat with false by (symmetry; apply Nat.ltb_ge; lia).
    cbn [orb]. f_equal. lia.
Qed.

(** What [fetch] stores for a character is taken back by [update] as the
    same character. *)
Lemma fetch_update_value iters tbl t :
  Forall (fun iter =>
            exists cc, c_cc t !! cntrl_idx iter = Some cc /\
              lua_getfield tbl (cntrl_name iter) = fetch_cc_value th (cntrl_flags iter) cc /\
              if Z.land (cntrl_flags iter) CNTRL_LITERAL =? 0
              then cc = _POSIX_VDISABLE th \/ cc = 127 \/ 0 <= cc < 32
              else 0 <= cc < 256) iters ->
  update_cc_loop th lua_str2number iters tbl t = inr t.
Proof.
  induction 1 as [|iter iters (cc & Hcc & Hget & Hrep) _ IH]; [reflexivity|].
  cbn [update_cc_loop]. rewrite Hget. unfold fetch_cc_value.
  assert (set_cc (<[cntrl_idx iter := cc]> (c_cc t)) t = t) as Hsame.
  { rewrite list_insert_id by exact Hcc. destruct t; reflexivity. }
  destruct (Z.land (cntrl_flags iter) CNTRL_LITERAL =? 0) eqn:Hlit; cbn [negb].
  - destruct (cc =? _POSIX_VDISABLE th) eqn:Hdis.
    + apply Z.eqb_eq in Hdis. cbn [parse_cc]. rewrite <- Hdis, Hsame. exact IH.
    + destruct (cc =? 127) eqn:Hdel.
      * apply Z.eqb_eq in Hdel. cbn. rewrite <- Hdel, Hsame. exact IH.
      * apply Z.eqb_neq in Hdis, Hdel.
        rewrite caret_round_trip by (destruct Hrep as [?|[?|?]]; [congruence..|assumption]).
        rewrite Hsame. exact IH.
  - cbn [lua_tonumberx]. unfold to_cc. rewrite Z.mod_small by exact Hrep.
    rewrite Hsame. exact IH.
Qed.

(** X2.  Fetching the control characters and passing the table back to
    [update] changes nothing, when every character of the table is one
    that has a notation: a byte for the literal entries (VMIN, VTIME), and
    the disabled character, DEL or one of 0 .. 31 for the others. *)
Theorem cc_fetch_update_round_trip t :
  Forall (fun iter =>
            exists cc, c_cc t !! cntrl_idx iter = Some cc /\
              if Z.land (cntrl_flags iter) CNTRL_LITERAL =? 0
              then cc = _POSIX_VDISABLE th \/ cc = 127 \/ 0 <= cc < 32
              else 0 <= cc < 256) (orchlua_cntrl_chars th) ->
  orchlua_term_update_cc th lua_str2number (orchlua_term_fetch_cc th t) t = inr t.
Proof.
  intros Hall. unfold orchlua_term_update_cc. apply fetch_update_value.
  apply Forall_forall. intros iter Hin.
  rewrite Forall_forall in Hall. destruct (Hall iter Hin) as (cc & Hcc & Hrep).
  exists cc. split; [exact Hcc|]. split; [|exact Hrep].
  unfold orchlua_term_fetch_cc, lua_getfield.
  rewrite (fetch_cc_lookup
             (fun it => fetch_cc_value th (cntrl_flags it)
                          (default 0 (c_cc t !! cntrl_idx it)))
             _ cntrl_names_NoDup ∅ iter Hin).
  rewrite Hcc. reflexivity.
Qed.

(** X3.  An update of control characters that succeeds leaves the flag
    words and the speeds as they were, and changes no character but those
    of the entries the table names: a character whose entries are all
    absent from the table keeps its value. *)
Theorem update_cc_changes_named_only tbl t t' :
  orchlua_term_update_cc th lua_str2number tbl t = inr t' ->
  c_iflag t' = c_iflag t /\ c_oflag t' = c_oflag t /\ c_cflag t' = c_cflag t /\
  c_lflag t' = c_lflag t /\ c_ispeed t' = c_ispeed t /\ c_ospeed t' = c_ospeed t /\
  length (c_cc t') = length (c_cc t) /\
  forall i,
    (forall iter, iter ∈ orchlua_cntrl_chars th -> cntrl_idx iter = i ->
       lua_getfield tbl (cntrl_name iter) = LNil) ->
    c_cc t' !! i = c_cc t !! i.
Proof.
  unfold orchlua_term_update_cc. revert t t'.
  generalize (orchlua_cntrl_chars th) as iters.
  induction iters as [|iter iters IH]; intros t t' H.
  - injection H as <-. repeat split; reflexivity.
  - cbn [update_cc_loop] in H.
    assert (forall cc,
              update_cc_loop th lua_str2number iters tbl
                (set_cc (<[cntrl_idx iter := cc]> (c_cc t)) t) = inr t' ->
              lua_getfield tbl (cntrl_name iter) <> LNil ->
              c_iflag t' = c_iflag t /\ c_oflag t' = c_oflag t /\ c_cflag t' = c_cflag t /\
              c_lflag t' = c_lflag t /\ c_ispeed t' = c_ispeed t /\ c_ospeed t' = c_ospeed t /\
              length (c_cc t') = length (c_cc t) /\
              forall i,
                (forall it, it ∈ iter :: iters -> cntrl_idx it = i ->
                   lua_getfield tbl (cntrl_name it) = LNil) ->
                c_cc t' !! i = c_cc t !! i) as Hset.
    { intros cc Hrec Hsome.
      destruct (IH _ _ Hrec) as (Hi & Ho & Hc & Hl & His & Hos & Hlen & Hcc).
      cbn [set_cc c_iflag c_oflag c_cflag c_lflag c_ispeed c_ospeed c_cc] in *.
      rewrite length_insert in Hlen. repeat (split; [assumption|]).
      intros i Hnil. rewrite Hcc by (intros it Hin; apply Hnil; right; exact Hin).
      apply list_lookup_insert_ne. intros Heq.
      apply Hsome, (Hnil iter); [left|exact Heq]. }
    destruct (lua_getfield tbl (cntrl_name iter)) as [| b | n | str | fields] eqn:Hget.
    + destruct (IH _ _ H) as (Hi & Ho & Hc & Hl & His & Hos & Hlen & Hcc).
      repeat (split; [assumption|]).
      intros i Hnil. apply Hcc. intros it Hin. apply Hnil. right. exact Hin.
    + destruct (negb (Z.land (cntrl_flags iter) CNTRL_LITERAL =? 0));
        [destruct (lua_tonumberx lua_str2number (LBool b)) as [n [|]]
        |destruct (parse_cc th (cntrl_name iter) (LBool b))]; try discriminate;
        apply (Hset _ H); discriminate.
    + destruct (negb (Z.land (cntrl_flags iter) CNTRL_LITERAL =? 0));
        [destruct (lua_tonumberx lua_str2number (LNum n)) as [n' [|]]
        |destruct (parse_cc th (cntrl_name iter) (LNum n))]; try discriminate;
        apply (Hset _ H); discriminate.
    + destruct (negb (Z.land (cntrl_flags iter) CNTRL_LITERAL =? 0));
        [destruct (lua_tonumberx lua_str2number (LStr str)) as [n' [|]]
        |destruct (parse_cc th (cntrl_name iter) (LStr str))]; try discriminate;
        apply (Hset _ H); discriminate.
    + destruct (negb (Z.land (cntrl_flags iter) CNTRL_LITERAL =? 0));
        [destruct (lua_tonumberx lua_str2number (LTable fields)) as [n' [|]]
        |destruct (parse_cc th (cntrl_name iter) (LTable fields))]; try discriminate;
        apply (Hset _ H); discriminate.
Qed.

(** X4.  [update] first checks the whole table and only then changes
    anything: when a field is refused, nothing is sent and the handle is
    as it was, earlier fields of the same table included.  Once the table
    is accepted the handle holds the new attributes, whatever becomes of
    sending them and of the acknowledgement. *)
Theorem update_checks_then_commits fuel tbl w cur r w' :
  p_term (w_proc w) = Some cur ->
  orchlua_term_update th lua_str2number fuel tbl w = Ok r w' ->
  match tbl with
  | LTable _ =>
      match update_loop th lua_str2number update_fields tbl (term cur) with
      | inl e => r = Lfail e /\ w' = w
      | inr updated =>
          p_term (w_proc w') =
            Some {| term := updated; initialized := initialized cur |}
      end
  | _ => r = Lfail (Msg "argument #2 must be table of fields to update") /\ w' = w
  end.
Proof.
  intros Hterm H. unfold orchlua_term_update in H.
  apply bind_ok in H as (p & w0 & Hself & H).
  unfold self in Hself. injection Hself as <- <-. rewrite Hterm in H.
  destruct tbl; try (injection H as <- <-; split; reflexivity).
  destruct (update_loop th lua_str2number update_fields (LTable fields) (term cur))
    as [e|updated]; [injection H as <- <-; split; reflexivity|].
  apply bind_ok in H as ([] & w1 & Hupd & H).
  unfold update_proc, modify in Hupd. injection Hupd as <-.
  match type of H with
  | ?m _ = _ => assert (respects runs m) as Hruns by runs_auto
  end.
  destruct (respects_ok _ _ _ _ _ Hruns H) as [Hsame _].
  unfold same_handle in Hsame. apply (f_equal p_term) in Hsame.
  cbn in Hsame. exact Hsame.
Qed.

End TtyProperties.

Lemma cc_fetch_update_round_trip_witness :
  orchlua_term_update_cc freebsd_termios_h (fun _ => None)
    (orchlua_term_fetch_cc freebsd_termios_h tty1) tty1 = inr tty1.
Proof.
  apply (cc_fetch_update_round_trip freebsd_termios_h (fun _ => None) tty1).
  let l := eval vm_compute in (orchlua_cntrl_chars freebsd_termios_h) in
  change (orchlua_cntrl_chars freebsd_termios_h) with l.
  repeat (apply Forall_cons; split;
          [eexists; split; [reflexivity|]; cbv [cntrl_flags]; simpl; lia|]).
  apply Forall_nil_2.
Defined.

(** [update {cc = {VEOF = "^C", VMIN = 7}}] on the attributes of the
    example terminal. *)
Lemma update_cc_changes_named_only_witness :
  exists t',
    orchlua_term_update_cc freebsd_termios_h (fun _ => None)
      (LTable {[ "VEOF"%string := LStr "^C"; "VMIN"%string := LNum 7 ]}) tty1 = inr t' /\
    c_lflag t' = 1483 /\ c_cc t' !! 3%nat = Some 127 /\
    c_cc t' !! 0%nat = Some 3 /\ c_cc t' !! 16%nat = Some 7.
Proof.
  eexists. split; [vm_compute; reflexivity|].
  destruct (update_cc_changes_named_only freebsd_termios_h (fun _ => None)
              (LTable {[ "VEOF"%string := LStr "^C"; "VMIN"%string := LNum 7 ]}) tty1
              (set_cc (<[16%nat := 7]> (<[0%nat := 3]> (c_cc tty1))) tty1))
    as (_ & _ & _ & Hl & _ & _ & _ & Hcc).
  - vm_compute. reflexivity.
  - split; [exact Hl|]. split; [|split; reflexivity].
    rewrite Hcc; [reflexivity|].
    intros iter Hin Hidx. apply list_elem_of_In in Hin.
    let l := eval vm_compute in (orchlua_cntrl_chars freebsd_termios_h) in
    change (orchlua_cntrl_chars freebsd_termios_h) with l in Hin.
    simpl in Hin.
    repeat (destruct Hin as [<-|Hin]; [first [discriminate Hidx|reflexivity]|]).
    contradiction.
Defined.

(** [update {iflag = 5, oflag = true}]: the second field is refused, and
    the first is not applied. *)
Lemma update_checks_then_commits_witness :
  exists r w',
    orchlua_term_update freebsd_termios_h (fun _ => None) 20
      (LTable {[ "iflag"%string := LNum 5; "oflag"%string := LBool true ]}) termed
      = Ok r w' /\
    r = Lfail (Msg "oflag must be a numeric mask") /\ w' = termed.
Proof.
  do 2 eexists. split; [vm_compute; reflexivity|].
  exact (update_checks_then_commits freebsd_termios_h (fun _ => None) 20
           (LTable {[ "iflag"%string := LNum 5; "oflag"%string := LBool true ]}) termed
           {| term := tty1; initialized := true |} _ _ eq_refl eq_refl).
Defined.

(** ** Draining the control socket *)

(** X5.  A header whose length is below that of a header, or whose tag is
    IPC_NOXMIT, ends the drain with -1 and EINVAL; nothing is allocated,
    queued or freed, and what follows the header on the socket is left
    there. *)
Theorem drain_rejects_bad_header fuel w c size tag extra rest :
  w_chan w = Some c -> 0 <= sockfd c ->
  s_rd (w_sock w) = RdData (encode_hdr size tag ++ extra) :: rest ->
  0 <= size < SIZE_MODULUS -> - 2 ^ 31 <= tag < 2 ^ 31 ->
  size < sizeof_hdr \/ tag = IPC_NOXMIT ->
  exists w1,
    orch_ipc_drain (S fuel) ChanPtr w = Ok (-1) w1 /\
    w_errno w1 = EINVAL /\ w_chan w1 = Some c /\ w_trace w1 = w_trace w /\
    s_rd (w_sock w1) = match extra with [] => rest | b :: l => RdData (b :: l) :: rest end.
Proof.
  intros Hc Hfd Hrd Hsize Htag Hbad. eexists. split.
  - unfold orch_ipc_drain.
    rewrite (bind_run _ _ _ _ _ (okay_run _ _ Hc)).
    replace (0 <=? sockfd c) with true by (symmetry; apply Z.leb_le; exact Hfd).
    cbn [negb]. rewrite (bind_run get _ w w w eq_refl).
    cbn [drain_loop].
    rewrite (bind_run _ _ _ _ _ (deref_run _ _ Hc)).
    rewrite (bind_run _ _ _ _ _ (sock_read_header _ _ _ _ _ _ Hfd Hrd)).
    destruct (encode_hdr size tag) as [|b0 bs0] eqn:E.
    { apply (f_equal length) in E. rewrite length_encode_hdr in E. discriminate E. }
    cbv beta iota.
    replace (length (b0 :: bs0)) with 16%nat
      by (rewrite <- E; symmetry; apply length_encode_hdr).
    rewrite <- E, (decode_encode_hdr size tag _ Hsize Htag).
    replace ((size <? sizeof_hdr) || (tag =? IPC_NOXMIT)) with true.
    + reflexivity.
    + symmetry. apply orb_true_iff. destruct Hbad as [H|H].
      * left. apply Z.ltb_lt, H.
      * right. apply Z.eqb_eq, H.
  - split; [reflexivity|]. split; [exact Hc|]. split; reflexivity.
Qed.

Lemma sock_read_eof fd n w rest :
  0 <= fd -> s_rd (w_sock w) = RdData [] :: rest ->
  sock_read fd n w =
    Ok (RdData []) (log (EvReadEof fd) (with_sock (set_rd rest (w_sock w)) w)).
Proof.
  intros Hfd Hrd. unfold sock_read.
  replace (fd <? 0) with false by (symmetry; apply Z.ltb_ge; exact Hfd).
  rewrite Hrd, take_nil, drop_nil. reflexivity.
Qed.

Lemma drain_eof_run w c :
  w_chan w = Some c -> 0 <= sockfd c ->
  drain_eof ChanPtr w =
    Ok 0 (with_chan (Some (set_sockfd (-1) c)) (log (EvClose (sockfd c)) w)).
Proof.
  intros Hc Hfd. unfold drain_eof.
  rewrite (bind_run _ _ _ _ _ (deref_run _ _ Hc)).
  replace (0 <=? sockfd c) with true by (symmetry; apply Z.leb_le; exact Hfd).
  reflexivity.
Qed.

Lemma drain_run fuel w c :
  w_chan w = Some c -> 0 <= sockfd c ->
  orch_ipc_drain fuel ChanPtr w = drain_loop fuel ChanPtr (o_junk (w_os w)) w.
Proof.
  intros Hc Hfd. unfold orch_ipc_drain.
  rewrite (bind_run _ _ _ _ _ (okay_run _ _ Hc)).
  replace (0 <=? sockfd c) with true by (symmetry; apply Z.leb_le; exact Hfd).
  reflexivity.
Qed.

Lemma drain_closed fuel w c :
  w_chan w = Some c -> sockfd c = -1 -> orch_ipc_drain fuel ChanPtr w = Ok 0 w.
Proof.
  intros Hc Hfd. unfold orch_ipc_drain.
  rewrite (bind_run _ _ _ _ _ (okay_run _ _ Hc)), Hfd. reflexivity.
Qed.

(** X6.  A zero-length read where a header is expected is the end of the
    channel: the drain closes the descriptor, stores -1 for it and returns
    0, with the queue as it was.  From then on a drain returns 0 at once
    and reads nothing, whatever the socket would deliver. *)
Theorem drain_eof_closes fuel w c rest :
  w_chan w = Some c -> 0 <= sockfd c ->
  s_rd (w_sock w) = RdData [] :: rest ->
  exists w1,
    orch_ipc_drain (S fuel) ChanPtr w = Ok 0 w1 /\
    w_chan w1 = Some (set_sockfd (-1) c) /\
    w_trace w1 = w_trace w ++ [EvReadEof (sockfd c); EvClose (sockfd c)] /\
    s_rd (w_sock w1) = rest /\
    forall fuel2, orch_ipc_drain fuel2 ChanPtr w1 = Ok 0 w1.
Proof.
  intros Hc Hfd Hrd. eexists. split.
  - rewrite (drain_run _ _ _ Hc Hfd). cbn [drain_loop].
    rewrite (bind_run _ _ _ _ _ (deref_run _ _ Hc)).
    rewrite (bind_run _ _ _ _ _ (sock_read_eof _ _ _ _ Hfd Hrd)).
    cbv beta iota. apply drain_eof_run; [exact Hc|exact Hfd].
  - split; [reflexivity|]. split; [cbn; rewrite <- app_assoc; reflexivity|].
    split; [reflexivity|].
    intros fuel2. apply (drain_closed _ _ (set_sockfd (-1) c)); reflexivity.
Qed.

Lemma drain_eof_closes_witness :
  exists w1,
    orch_ipc_drain 1 ChanPtr (chan_world fresh_chan [RdData []; RdData (wire (nodata IPC_RELEASE))])
      = Ok 0 w1 /\
    w_trace w1 = [EvReadEof 4; EvClose 4] /\
    orch_ipc_drain 7 ChanPtr w1 = Ok 0 w1.
Proof.
  destruct (drain_eof_closes 0
              (chan_world fresh_chan [RdData []; RdData (wire (nodata IPC_RELEASE))])
              fresh_chan [RdData (wire (nodata IPC_RELEASE))])
    as (w1 & Hrun & _ & Htr & _ & Hidle).
  - reflexivity.
  - simpl. lia.
  - reflexivity.
  - exists w1. split; [exact Hrun|]. split; [exact Htr|]. apply Hidle.
Defined.

(** X7.  A channel whose descriptor is closed does not read, write or
    block: a drain returns 0, a send fails with EBADF, and with nothing
    queued a wait reports the end of the channel and a receive returns 0
    with no message; none of them changes anything but [errno]. *)
Theorem closed_channel_is_inert w c msg :
  w_chan w = Some c -> sockfd c = -1 ->
  (forall fuel, orch_ipc_drain fuel ChanPtr w = Ok 0 w) /\
  (forall fuel, orch_ipc_send (S fuel) ChanPtr msg w = Ok (-1) (with_errno EBADF w)) /\
  (queue c = [] ->
   (forall fuel, orch_ipc_wait (S fuel) ChanPtr w = Ok (0, Some true) w) /\
   (forall fuel, orch_ipc_recv (S fuel) ChanPtr w = Ok (0, None) w)).
Proof.
  intros Hc Hfd.
  assert (forall fuel, orch_ipc_drain fuel ChanPtr w = Ok 0 w) as Hdrain
    by (intros fuel; apply (drain_closed _ _ c Hc Hfd)).
  split; [exact Hdrain|]. split.
  - intros fuel. cbn [orch_ipc_send].
    rewrite (bind_run _ _ _ _ _ (Hdrain fuel)). cbn [Z.eqb negb].
    rewrite (bind_run _ _ _ _ _ (deref_run _ _ Hc)).
    unfold bind, sock_write. rewrite Hfd. reflexivity.
  - intros Hq. split; intros fuel.
    + unfold orch_ipc_wait.
      rewrite (bind_run _ _ _ _ _ (deref_run _ _ Hc)), Hq.
      cbn [orch_ipc_poll].
      unfold bind at 1.
      rewrite (bind_run _ _ _ _ _ (deref_run _ _ Hc)), Hfd. reflexivity.
    + unfold orch_ipc_recv.
      rewrite (bind_run _ _ _ _ _ (Hdrain (S fuel))). cbn [Z.eqb negb].
      cbn [orch_ipc_pop].
      unfold bind at 1.
      rewrite (bind_run _ _ _ _ _ (deref_run _ _ Hc)), Hq. reflexivity.
Qed.

Lemma closed_channel_is_inert_witness :
  orch_ipc_send 1 ChanPtr (nodata IPC_RELEASE)
    (chan_world (set_sockfd (-1) fresh_chan) [RdData (wire (nodata IPC_RELEASE))])
  = Ok (-1) (with_errno EBADF
               (chan_world (set_sockfd (-1) fresh_chan) [RdData (wire (nodata IPC_RELEASE))])).
Proof.
  destruct (closed_channel_is_inert
              (chan_world (set_sockfd (-1) fresh_chan) [RdData (wire (nodata IPC_RELEASE))])
              (set_sockfd (-1) fresh_chan) (nodata IPC_RELEASE) eq_refl eq_refl)
    as (_ & Hsend & _).
  apply Hsend.
Defined.

Lemma drain_payload_eof fuel w c tag acc resid rest :
  w_chan w = Some c -> 0 <= sockfd c -> resid <> 0 ->
  s_rd (w_sock w) = RdData [] :: rest ->
  drain_payload (S fuel) ChanPtr tag acc resid w =
    Ok PayloadEof
       (log (EvFreeMsg {| msg_tag := tag; msg_data := acc |})
          (log (EvReadEof (sockfd c)) (with_sock (set_rd rest (w_sock w)) w))).
Proof.
  intros Hc Hfd Hres Hrd. cbn [drain_payload].
  replace (resid =? 0) with false by (symmetry; apply Z.eqb_neq; exact Hres).
  rewrite (bind_run _ _ _ _ _ (deref_run _ _ Hc)).
  rewrite (bind_run _ _ _ _ _ (sock_read_eof _ _ _ _ Hfd Hrd)). reflexivity.
Qed.

(** The header of a message has been read: up to the payload loop. *)
Lemma drain_loop_header fuel w c m more rest hdrbuf :
  w_chan w = Some c -> 0 <= sockfd c ->
  s_rd (w_sock w) = RdData (encode_hdr (hdr_size m) (msg_tag m) ++ more) :: rest ->
  o_alloc (w_os w) = [] ->
  msg_tag m <> IPC_NOXMIT -> - 2 ^ 31 <= msg_tag m < 2 ^ 31 ->
  Z.of_nat (length (msg_data m)) + 32 < SIZE_MODULUS ->
  drain_loop (S fuel) ChanPtr hdrbuf w =
    (do p <- drain_payload fuel ChanPtr (msg_tag m) [] (Z.of_nat (length (msg_data m)));
     match p with
     | PayloadErr => ret (-1)
     | PayloadEof => drain_eof ChanPtr
     | PayloadDone data =>
         do c <- deref ChanPtr;
         store (set_queue (queue c ++ [{| msg_tag := msg_tag m; msg_data := data |}]) c);;
         drain_loop fuel ChanPtr (encode_hdr (hdr_size m) (msg_tag m) ++ drop 16 hdrbuf)
     end)
      (with_sock (set_rd match more with
                         | [] => rest
                         | b :: l => RdData (b :: l) :: rest
                         end (w_sock w)) w).
Proof.
  intros Hc Hfd Hrd Halloc Htag Hint Hlen.
  assert (SIZE_MODULUS = 18446744073709551616) as HM by reflexivity.
  cbn [drain_loop].
  rewrite (bind_run _ _ _ _ _ (deref_run _ _ Hc)).
  rewrite (bind_run _ _ _ _ _ (sock_read_header _ _ _ _ _ _ Hfd Hrd)).
  assert (decode_hdr (encode_hdr (hdr_size m) (msg_tag m) ++ drop 16 hdrbuf)
          = (hdr_size m, msg_tag m)) as Hdec.
  { apply decode_encode_hdr; [|exact Hint].
    unfold hdr_size, IPC_MSG_HDR_SIZE, sizeof_hdr. lia. }
  destruct (encode_hdr (hdr_size m) (msg_tag m)) as [|b0 bs0] eqn:E.
  { apply (f_equal length) in E. rewrite length_encode_hdr in E. discriminate E. }
  cbv beta iota.
  replace (length (b0 :: bs0)) with 16%nat
    by (rewrite <- E; symmetry; apply length_encode_hdr).
  rewrite Hdec.
  replace (hdr_size m <? sizeof_hdr) with false
    by (symmetry; apply Z.ltb_ge; unfold hdr_size, IPC_MSG_HDR_SIZE; lia).
  replace (msg_tag m =? IPC_NOXMIT) with false
    by (symmetry; apply Z.eqb_neq; exact Htag).
  cbn [orb].
  erewrite bind_run by (apply malloc_run; exact Halloc). cbn [negb].
  replace (SIZE_MODULUS <=? IPC_MSG_SIZE (hdr_size m)) with false
    by (symmetry; apply Z.leb_gt;
        unfold IPC_MSG_SIZE, hdr_size, IPC_MSG_HDR_SIZE, sizeof_msg, sizeof_hdr; lia).
  erewrite bind_run by (apply malloc_run; exact Halloc). cbn [negb].
  replace (hdr_size m - sizeof_hdr) with (Z.of_nat (length (msg_data m)))
    by (unfold hdr_size, IPC_MSG_HDR_SIZE; lia).
  reflexivity.
Qed.

(** X8.  When the channel ends in the middle of a message, the part that
    has arrived is freed and not queued, the descriptor is closed, and the
    drain returns 0 as for an end of the channel between messages. *)
Theorem drain_drops_truncated_message fuel w c m more rest :
  w_chan w = Some c -> 0 <= sockfd c -> o_alloc (w_os w) = [] ->
  s_rd (w_sock w) =
    RdData (encode_hdr (hdr_size m) (msg_tag m) ++ more) :: RdData [] :: rest ->
  (length more < length (msg_data m))%nat ->
  msg_tag m <> IPC_NOXMIT -> - 2 ^ 31 <= msg_tag m < 2 ^ 31 ->
  Z.of_nat (length (msg_data m)) + 32 < SIZE_MODULUS ->
  exists w1,
    orch_ipc_drain (S (S (S fuel))) ChanPtr w = Ok 0 w1 /\
    w_chan w1 = Some (set_sockfd (-1) c) /\
    w_trace w1 =
      w_trace w ++ [EvReadEof (sockfd c);
                    EvFreeMsg {| msg_tag := msg_tag m; msg_data := more |};
                    EvClose (sockfd c)] /\
    s_rd (w_sock w1) = rest.
Proof.
  intros Hc Hfd Halloc Hrd Hshort Htag Hint Hlen. eexists. split.
  - rewrite (drain_run _ _ _ Hc Hfd).
    rewrite (drain_loop_header _ _ _ _ _ _ _ Hc Hfd Hrd Halloc Htag Hint Hlen).
    destruct more as [|b l].
    + erewrite bind_run.
      2:{ apply (drain_payload_eof _ _ c); [exact Hc|exact Hfd|simpl in Hshort; lia|reflexivity]. }
      cbv beta iota. apply drain_eof_run; [exact Hc|exact Hfd].
    + erewrite bind_run.
      2:{ rewrite (drain_payload_piece _ _ c _ _ _ b l (RdData [] :: rest));
            [|exact Hc|exact Hfd|reflexivity|lia].
          apply (drain_payload_eof _ _ c); [exact Hc|exact Hfd| |reflexivity].
          simpl length in *. lia. }
      cbv beta iota. apply drain_eof_run; [exact Hc|exact Hfd].
  - destruct more; (split; [reflexivity|]); cbn;
      (split; [repeat rewrite <- app_assoc; reflexivity|reflexivity]).
Qed.

Lemma drain_drops_truncated_message_witness :
  exists w1,
    orch_ipc_drain 3 ChanPtr
      (chan_world fresh_chan [RdData (take 30 (wire termios_msg)); RdData []]) = Ok 0 w1 /\
    w_chan w1 = Some (set_sockfd (-1) fresh_chan).
Proof.
  destruct (drain_drops_truncated_message 0
              (chan_world fresh_chan [RdData (take 30 (wire termios_msg)); RdData []])
              fresh_chan termios_msg (take 14 (encode_termios tty1)) [])
    as (w1 & Hrun & Hchan & _).
  - reflexivity.
  - simpl. lia.
  - reflexivity.
  - reflexivity.
  - vm_compute. lia.
  - discriminate.
  - unfold termios_msg, IPC_TERMIOS_SET. simpl. lia.
  - vm_compute. reflexivity.
  - exists w1. split; [exact Hrun|exact Hchan].
Defined.

(** X9.  A header that arrives in part is not waited for: the drain
    decodes what the read left in [hdr], the bytes that arrived followed
    by what the variable held before.  When at most the length field has
    arrived and the rest of [hdr] is zero, the tag reads as IPC_NOXMIT and
    the drain fails with EINVAL. *)
Theorem drain_decodes_partial_header fuel w c b bs rest :
  w_chan w = Some c -> 0 <= sockfd c ->
  s_rd (w_sock w) = RdData (b :: bs) :: rest ->
  (length (b :: bs) <= 8)%nat ->
  o_junk (w_os w) = replicate 16 Byte.x00 ->
  exists w1,
    orch_ipc_drain (S fuel) ChanPtr w = Ok (-1) w1 /\
    w_errno w1 = EINVAL /\ w_chan w1 = Some c /\ s_rd (w_sock w1) = rest.
Proof.
  intros Hc Hfd Hrd Hlen Hjunk. eexists. split.
  - rewrite (drain_run _ _ _ Hc Hfd), Hjunk. cbn [drain_loop].
    rewrite (bind_run _ _ _ _ _ (deref_run _ _ Hc)).
    erewrite bind_run by (apply sock_read_data; [exact Hfd|unfold sizeof_hdr; lia|exact Hrd]).
    change (Z.to_nat sizeof_hdr) with 16%nat.
    rewrite (take_ge (b :: bs) 16) by lia. rewrite (drop_ge (b :: bs) 16) by lia.
    assert (decode_hdr ((b :: bs) ++ drop (length (b :: bs)) (replicate 16 Byte.x00))
            = (le_value (take 8 ((b :: bs) ++ drop (length (b :: bs)) (replicate 16 Byte.x00))),
               0)) as Hdec.
    { unfold decode_hdr. f_equal.
      rewrite drop_app_ge by lia. rewrite drop_replicate, drop_replicate.
      replace (16 - length (b :: bs) - (8 - length (b :: bs)))%nat with 8%nat by lia.
      reflexivity. }
    cbv beta iota zeta. rewrite Hdec.
    change (0 =? IPC_NOXMIT) with true. rewrite orb_true_r. reflexivity.
  - split; [reflexivity|]. split; [exact Hc|reflexivity].
Qed.

(** The first eight bytes of a RELEASE arrive alone. *)
Lemma drain_decodes_partial_header_witness :
  exists w1,
    orch_ipc_drain 1 ChanPtr
      (chan_world fresh_chan [RdData (take 8 (wire (nodata IPC_RELEASE)));
                              RdData (drop 8 (wire (nodata IPC_RELEASE)))]) = Ok (-1) w1 /\
    w_errno w1 = EINVAL.
Proof.
  destruct (drain_decodes_partial_header 0
              (chan_world fresh_chan [RdData (take 8 (wire (nodata IPC_RELEASE)));
                                      RdData (drop 8 (wire (nodata IPC_RELEASE)))])
              fresh_chan "016"%byte (replicate 7 Byte.x00)
              [RdData (drop 8 (wire (nodata IPC_RELEASE)))])
    as (w1 & Hrun & Herr & _).
  - reflexivity.
  - simpl. lia.
  - reflexivity.
  - simpl. lia.
  - reflexivity.
  - exists w1. split; [exact Hrun|exact Herr].
Defined.

Lemma drain_loop_messages msgs : forall fuel w c hdrbuf,
  w_chan w = Some c -> 0 <= sockfd c -> o_alloc (w_os w) = [] ->
  s_rd (w_sock w) = map (fun m => RdData (wire m)) msgs ->
  Forall (fun m => msg_tag m <> IPC_NOXMIT /\ - 2 ^ 31 <= msg_tag m < 2 ^ 31 /\
                   Z.of_nat (length (msg_data m)) + 32 < SIZE_MODULUS) msgs ->
  drain_loop (S (S (S (length msgs + fuel)))) ChanPtr hdrbuf w =
    Ok 0 (with_errno EAGAIN
            (with_chan (Some (set_queue (queue c ++ msgs) c))
               (with_sock (set_rd [] (w_sock w)) w))).
Proof.
  induction msgs as [|m msgs IH]; intros fuel w c hdrbuf Hc Hfd Halloc Hrd Hall.
  - rewrite (drain_loop_silent _ _ c _ Hc Hfd Hrd). rewrite app_nil_r.
    destruct w as [? ? ? ? [] ? ? ?], c. simpl in *. subst. reflexivity.
  - apply Forall_cons in Hall as [(Htag & Hint & Hlen) Hall].
    change (S (S (S (length (m :: msgs) + fuel))))
      with (S (S (S (length (@nil (list byte)) + S (length msgs + fuel))))).
    rewrite (drain_loop_message _ w c m (msg_data m) [] (map (fun m => RdData (wire m)) msgs));
      [|exact Hc|exact Hfd|exact Hrd|apply app_nil_r|constructor|exact Halloc
       |exact Htag|exact Hint|exact Hlen].
    change (S (S (length (@nil (list byte)) + S (length msgs + fuel))))
      with (S (S (S (length msgs + fuel)))).
    rewrite (IH _ _ (set_queue (queue c ++ [m]) c));
      [|reflexivity|exact Hfd|exact Halloc|reflexivity|exact Hall].
    cbn. rewrite <- app_assoc. reflexivity.
Qed.

(** X10.  The messages that have arrived whole are queued in the order
    of arrival, behind those already queued, and the drain returns 0 when
    the socket has nothing more.  No tag is refused but IPC_NOXMIT. *)
Theorem drain_queues_in_order msgs fuel w c :
  w_chan w = Some c -> 0 <= sockfd c -> o_alloc (w_os w) = [] ->
  s_rd (w_sock w) = map (fun m => RdData (wire m)) msgs ->
  Forall (fun m => msg_tag m <> IPC_NOXMIT /\ - 2 ^ 31 <= msg_tag m < 2 ^ 31 /\
                   Z.of_nat (length (msg_data m)) + 32 < SIZE_MODULUS) msgs ->
  exists w1,
    orch_ipc_drain (S (S (S (length msgs + fuel)))) ChanPtr w = Ok 0 w1 /\
    w_chan w1 = Some (set_queue (queue c ++ msgs) c) /\
    s_rd (w_sock w1) = [] /\ w_trace w1 = w_trace w.
Proof.
  intros Hc Hfd Halloc Hrd Hall. eexists. split.
  - rewrite (drain_run _ _ _ Hc Hfd).
    apply (drain_loop_messages msgs fuel w c _ Hc Hfd Halloc Hrd Hall).
  - split; [reflexivity|]. split; reflexivity.
Qed.

Lemma drain_queues_in_order_witness :
  exists w1,
    orch_ipc_drain 5 ChanPtr
      (chan_world fresh_chan [RdData (wire termios_msg); RdData (wire (nodata IPC_RELEASE))])
      = Ok 0 w1 /\
    w_chan w1 = Some (set_queue [termios_msg; nodata IPC_RELEASE] fresh_chan).
Proof.
  destruct (drain_queues_in_order [termios_msg; nodata IPC_RELEASE] 0
              (chan_world fresh_chan
                 [RdData (wire termios_msg); RdData (wire (nodata IPC_RELEASE))])
              fresh_chan)
    as (w1 & Hrun & Hchan & _).
  - reflexivity.
  - simpl. lia.
  - reflexivity.
  - reflexivity.
  - repeat constructor; try discriminate; vm_compute; congruence.
  - exists w1. split; [exact Hrun|exact Hchan].
Defined.

(** ** Receiving and dispatching *)

(** X11.  With nothing to read, or with the descriptor closed, a receive
    hands out the message at the head of the queue when its tag has no
    handler, and leaves the rest of the queue as it is; so the messages
    are received in the order in which they were queued, and those that
    arrived before the end of the channel are still received after it. *)
Theorem recv_takes_queue_head fuel w c m rest :
  w_chan w = Some c -> queue c = m :: rest ->
  sockfd c = -1 \/ (0 <= sockfd c /\ s_rd (w_sock w) = []) ->
  length (callbacks c) = 5%nat -> IPC_NOXMIT < msg_tag m < IPC_LAST ->
  handler_for c (msg_tag m) = None ->
  exists w1,
    orch_ipc_recv (S fuel) ChanPtr w = Ok (0, Some m) w1 /\
    w_chan w1 = Some (set_queue rest c) /\ w_trace w1 = w_trace w.
Proof.
  intros Hc Hq Hsock Hlen Htag Hh.
  assert (exists w0, orch_ipc_drain (S fuel) ChanPtr w = Ok 0 w0 /\
                     w_chan w0 = Some c /\ w_trace w0 = w_trace w) as (w0 & Hd & Hc0 & Ht0).
  { destruct Hsock as [Hfd|[Hfd Hrd]].
    - exists w. split; [apply (drain_closed _ _ c Hc Hfd)|]. split; [exact Hc|reflexivity].
    - eexists. split.
      + rewrite (drain_run _ _ _ Hc Hfd). apply (drain_loop_silent _ _ c _ Hc Hfd Hrd).
      + split; [exact Hc|reflexivity]. }
  eexists. split.
  - unfold orch_ipc_recv. rewrite (bind_run _ _ _ _ _ Hd). cbn [Z.eqb negb].
    rewrite (bind_run _ _ _ _ _ (pop_unhandled fuel w0 c m rest Hc0 Hq Hlen Htag Hh)).
    reflexivity.
  - split; [reflexivity|exact Ht0].
Qed.

Lemma recv_takes_queue_head_witness :
  exists w1,
    orch_ipc_recv 1 ChanPtr
      (chan_world (set_sockfd (-1) (set_queue [termios_msg; nodata IPC_RELEASE] fresh_chan)) [])
      = Ok (0, Some termios_msg) w1 /\
    w_chan w1 = Some (set_queue [nodata IPC_RELEASE] (set_sockfd (-1) fresh_chan)).
Proof.
  destruct (recv_takes_queue_head 0
              (chan_world (set_sockfd (-1) (set_queue [termios_msg; nodata IPC_RELEASE] fresh_chan)) [])
              (set_sockfd (-1) (set_queue [termios_msg; nodata IPC_RELEASE] fresh_chan))
              termios_msg [nodata IPC_RELEASE])
    as (w1 & Hrun & Hchan & _).
  - reflexivity.
  - reflexivity.
  - left. reflexivity.
  - reflexivity.
  - split; reflexivity.
  - reflexivity.
  - exists w1. split; [exact Hrun|exact Hchan].
Defined.

Lemma pop_discards : forall q fuel w c,
  w_chan w = Some c -> queue c = q -> length (callbacks c) = 5%nat ->
  Forall (fun m => IPC_NOXMIT < msg_tag m < IPC_LAST /\
                   handler_for c (msg_tag m) = None) q ->
  orch_ipc_pop (S (length q + fuel)) ChanPtr false w =
    Ok (0, None)
       (with_chan (Some (set_queue [] c))
          {| w_chan := w_chan w; w_proc := w_proc w; w_sterm := w_sterm w;
             w_child_t := w_child_t w; w_sock := w_sock w; w_os := w_os w;
             w_errno := w_errno w; w_trace := w_trace w ++ map EvFreeMsg q |}).
Proof.
  induction q as [|m q IH]; intros fuel w c Hc Hq Hlen Hall.
  - cbn [orch_ipc_pop length Nat.add].
    rewrite (bind_run _ _ _ _ _ (deref_run _ _ Hc)), Hq. cbn [map].
    rewrite app_nil_r. destruct w, c. simpl in *. subst. reflexivity.
  - apply Forall_cons in Hall as [[[Hlo Hhi] Hh] Hall].
    unfold IPC_NOXMIT, IPC_LAST in *.
    change (S (length (m :: q) + fuel)) with (S (S (length q + fuel))).
    remember (S (length q + fuel)) as f eqn:Ef. cbn [orch_ipc_pop].
    rewrite (bind_run _ _ _ _ _ (deref_run _ _ Hc)), Hq.
    unfold store at 1. unfold modify at 1. unfold bind at 1.
    unfold callback_slot. rewrite Hlen.
    replace (0 <=? msg_tag m - 1) with true by (symmetry; apply Z.leb_le; lia).
    replace (msg_tag m - 1 <? Z.of_nat 5) with true by (symmetry; apply Z.ltb_lt; lia).
    cbn [andb]. unfold bind at 1. unfold ret at 1.
    unfold handler_for in Hh. rewrite Hh.
    unfold emit at 1. unfold modify at 1. unfold bind at 1.
    subst f.
    rewrite (IH fuel _ (set_queue q c)); [|reflexivity|reflexivity|exact Hlen|exact Hall].
    cbn. rewrite <- app_assoc. reflexivity.
Qed.

(** X12.  A pop that is given no place for a message, which is how the
    close of a channel empties the queue, frees every queued message that
    has no handler, in order, and returns 0 with the queue empty. *)
Theorem pop_discards_unhandled q fuel w c :
  w_chan w = Some c -> queue c = q -> length (callbacks c) = 5%nat ->
  Forall (fun m => IPC_NOXMIT < msg_tag m < IPC_LAST /\
                   handler_for c (msg_tag m) = None) q ->
  exists w1,
    orch_ipc_pop (S (length q + fuel)) ChanPtr false w = Ok (0, None) w1 /\
    w_chan w1 = Some (set_queue [] c) /\
    w_trace w1 = w_trace w ++ map EvFreeMsg q.
Proof.
  intros Hc Hq Hlen Hall. eexists. split.
  - apply (pop_discards q fuel w c Hc Hq Hlen Hall).
  - split; reflexivity.
Qed.

Lemma pop_discards_unhandled_witness :
  exists w1,
    orch_ipc_pop 3 ChanPtr false
      (chan_world (set_queue [termios_msg; nodata IPC_RELEASE] fresh_chan) []) = Ok (0, None) w1 /\
    w_trace w1 = [EvFreeMsg termios_msg; EvFreeMsg (nodata IPC_RELEASE)].
Proof.
  destruct (pop_discards_unhandled [termios_msg; nodata IPC_RELEASE] 0
              (chan_world (set_queue [termios_msg; nodata IPC_RELEASE] fresh_chan) [])
              (set_queue [termios_msg; nodata IPC_RELEASE] fresh_chan))
    as (w1 & Hrun & _ & Htr).
  - reflexivity.
  - reflexivity.
  - reflexivity.
  - repeat constructor.
  - exists w1. split; [exact Hrun|exact Htr].
Defined.

Lemma drain_rejects_bad_header_witness :
  exists w1,
    orch_ipc_drain 1 ChanPtr
      (chan_world fresh_chan [RdData (wire (nodata IPC_NOXMIT)); RdData (wire (nodata IPC_RELEASE))])
      = Ok (-1) w1 /\
    w_errno w1 = EINVAL /\ w_chan w1 = Some fresh_chan.
Proof.
  destruct (drain_rejects_bad_header 0
              (chan_world fresh_chan
                 [RdData (wire (nodata IPC_NOXMIT)); RdData (wire (nodata IPC_RELEASE))])
              fresh_chan 16 IPC_NOXMIT [] [RdData (wire (nodata IPC_RELEASE))])
    as (w1 & Hrun & Herr & Hchan & _).
  - reflexivity.
  - simpl. lia.
  - reflexivity.
  - unfold SIZE_MODULUS. lia.
  - unfold IPC_NOXMIT. lia.
  - right. reflexivity.
  - exists w1. split; [exact Hrun|]. split; [exact Herr|exact Hchan].
Defined.

(** X13.  A TERMIOS_SET message whose payload is not a termios record is
    refused by the handler on either side: the handler fails with EINVAL
    and changes no terminal attributes, the message is freed, the pop
    returns -1 at once, and the messages behind it stay queued. *)
Theorem pop_stops_at_refused_termios fuel w c m rest want h :
  w_chan w = Some c -> queue c = m :: rest -> length (callbacks c) = 5%nat ->
  IPC_NOXMIT < msg_tag m < IPC_LAST ->
  handler_for c (msg_tag m) = Some h ->
  h = fn_orchlua_process_term_set \/ h = fn_orch_child_termios_set ->
  Z.of_nat (length (msg_data m)) <> sizeof_termios ->
  exists w1,
    orch_ipc_pop (S fuel) ChanPtr want w = Ok (-1, None) w1 /\
    w_chan w1 = Some (set_queue rest c) /\ w_errno w1 = EINVAL /\
    w_sterm w1 = w_sterm w /\ w_child_t w1 = w_child_t w /\ w_os w1 = w_os w /\
    w_trace w1 = w_trace w ++ [EvHandler h m; EvFreeMsg m].
Proof.
  intros Hc Hq Hlen [Hlo Hhi] Hh Hkind Hsize. unfold IPC_NOXMIT, IPC_LAST in *.
  assert (forall (k : orch_ipc_t -> M Z) f,
            call_handler k f h ChanPtr m =
            (set_errno EINVAL;; ret (-1))) as Hcall.
  { intros k f.
    assert (orch_ipc_msg_payload m =
            (if Z.of_nat (length (msg_data m)) =? 0 then None else Some (msg_data m),
             Z.of_nat (length (msg_data m)))) as Hp.
    { unfold orch_ipc_msg_payload, IPC_MSG_PAYLOAD_SIZE, hdr_size, IPC_MSG_HDR_SIZE.
      replace (sizeof_hdr + Z.of_nat (length (msg_data m)) - sizeof_hdr)
        with (Z.of_nat (length (msg_data m))) by lia.
      reflexivity. }
    destruct Hkind as [-> | ->]; cbn [call_handler];
      unfold orchlua_process_term_set, orch_child_termios_set; rewrite Hp;
      destruct (Z.of_nat (length (msg_data m)) =? 0); try reflexivity;
      replace (Z.of_nat (length (msg_data m)) =? sizeof_termios) with false
        by (symmetry; apply Z.eqb_neq; exact Hsize); reflexivity. }
  eexists. split.
  - cbn [orch_ipc_pop].
    rewrite (bind_run _ _ _ _ _ (deref_run _ _ Hc)), Hq.
    unfold store at 1. unfold modify at 1. unfold bind at 1.
    unfold callback_slot. rewrite Hlen.
    replace (0 <=? msg_tag m - 1) with true by (symmetry; apply Z.leb_le; lia).
    replace (msg_tag m - 1 <? Z.of_nat 5) with true by (symmetry; apply Z.ltb_lt; lia).
    cbn [andb]. unfold bind at 1. unfold ret at 1.
    unfold handler_for in Hh. rewrite Hh.
    rewrite Hcall. reflexivity.
  - split; [reflexivity|]. split; [reflexivity|]. split; [reflexivity|].
    split; [reflexivity|]. split; [reflexivity|]. cbn. rewrite <- app_assoc. reflexivity.
Qed.

(** A TERMIOS_SET with no payload reaches the child's handler. *)
Lemma pop_stops_at_refused_termios_witness :
  exists w1,
    orch_ipc_pop 1 ChanPtr true
      (chan_world {| callbacks := [None; None; Some fn_orch_child_termios_inquiry;
                                   Some fn_orch_child_termios_set; None];
                     queue := [nodata IPC_TERMIOS_SET; nodata IPC_RELEASE];
                     sockfd := 4 |} []) = Ok (-1, None) w1 /\
    w_errno w1 = EINVAL.
Proof.
  destruct (pop_stops_at_refused_termios 0
              (chan_world {| callbacks := [None; None; Some fn_orch_child_termios_inquiry;
                                           Some fn_orch_child_termios_set; None];
                             queue := [nodata IPC_TERMIOS_SET; nodata IPC_RELEASE];
                             sockfd := 4 |} [])
              {| callbacks := [None; None; Some fn_orch_child_termios_inquiry;
                               Some fn_orch_child_termios_set; None];
                 queue := [nodata IPC_TERMIOS_SET; nodata IPC_RELEASE];
                 sockfd := 4 |}
              (nodata IPC_TERMIOS_SET) [nodata IPC_RELEASE] true fn_orch_child_termios_set)
    as (w1 & Hrun & _ & Herr & _).
  - reflexivity.
  - reflexivity.
  - reflexivity.
  - split; reflexivity.
  - reflexivity.
  - right. reflexivity.
  - discriminate.
  - exists w1. split; [exact Hrun|exact Herr].
Defined.

(** ** Sending *)

Lemma send_payload_prefix fuel ipc : forall rest w e w',
  send_payload fuel ipc rest w = Ok e w' ->
  exists p q, rest = p ++ q /\ s_out (w_sock w') = s_out (w_sock w) ++ p /\
    (e = 0 /\ q = [] \/ e = -1 /\ q <> []).
Proof.
  induction fuel as [|fuel IH]; intros rest w e w' H; [discriminate|].
  simpl in H. destruct rest as [|b rest].
  { injection H as <- <-. exists [], [].
    split; [reflexivity|]. split; [symmetry; apply app_nil_r|]. left. split; reflexivity. }
  apply bind_ok in H as (c & w0 & Hc & H). apply deref_ok in Hc as (_ & -> & _).
  apply bind_ok in H as (r & w1 & Hw & H).
  apply sock_write_out in Hw as [(er & -> & Ho)|(k & -> & Ho)].
  - destruct er;
      try (injection H as <- <-; exists [], (b :: rest); rewrite Ho;
           split; [reflexivity|]; split; [symmetry; apply app_nil_r|];
           right; split; [reflexivity|discriminate]).
    destruct (IH _ _ _ _ H) as (p & q & E & Hout & Hres).
    exists p, q. rewrite Hout, Ho. split; [exact E|]. split; [reflexivity|exact Hres].
  - destruct (IH _ _ _ _ H) as (p & q & E & Hout & Hres).
    exists (take k (b :: rest) ++ p), q. split.
    + rewrite <- app_assoc, <- E. symmetry. apply take_drop_length.
    + split; [|exact Hres]. rewrite Hout, Ho. symmetry. apply app_assoc.
Qed.

(** X14.  Whatever a send returns, what it has written is a prefix of
    the message as it travels, header first: all of it when the send
    returns 0, and less than all of it when it returns -1.  A send never
    writes a byte that is not the next byte of its message. *)
Theorem send_writes_message_prefix fuel ipc msg : forall w e w',
  orch_ipc_send fuel ipc msg w = Ok e w' ->
  exists p q, wire msg = p ++ q /\ s_out (w_sock w') = s_out (w_sock w) ++ p /\
    (e = 0 /\ q = [] \/ e = -1 /\ q <> []).
Proof.
  induction fuel as [|fuel IH]; intros w e w' H; [discriminate|].
  assert (wire msg <> []) as Hne.
  { unfold wire. intros E. apply (f_equal length) in E.
    rewrite length_app, length_encode_hdr in E. discriminate E. }
  simpl in H. apply bind_ok in H as (e0 & w0 & Hd & H).
  apply (respects_ok _ _ _ _ _ (drains_drain fuel ipc)) in Hd as (_ & Hout0 & _).
  destruct (negb (e0 =? 0)).
  { injection H as <- <-. exists [], (wire msg). rewrite Hout0.
    split; [reflexivity|]. split; [symmetry; apply app_nil_r|].
    right. split; [reflexivity|exact Hne]. }
  apply bind_ok in H as (c & w1 & Hc & H). apply deref_ok in Hc as (_ & -> & _).
  apply bind_ok in H as (r & w1 & Hw & H).
  apply sock_write_out in Hw as [(er & -> & Ho)|(k & -> & Ho)].
  - destruct er;
      try (injection H as <- <-; exists [], (wire msg); rewrite Ho, Hout0;
           split; [reflexivity|]; split; [symmetry; apply app_nil_r|];
           right; split; [reflexivity|exact Hne]).
    destruct (IH _ _ _ H) as (p & q & E & Hout & Hres).
    exists p, q. rewrite Hout, Ho, Hout0. split; [exact E|]. split; [reflexivity|exact Hres].
  - destruct (Z.ltb_spec (Z.of_nat (length (take k (encode_hdr (hdr_size msg) (msg_tag msg)))))
                sizeof_hdr) as [L|L].
    + apply bind_ok in H as (? & w2 & Herrno & H). injection H as <- <-.
      unfold set_errno, modify in Herrno. injection Herrno as _ <-.
      exists (take k (encode_hdr (hdr_size msg) (msg_tag msg))),
             (drop k (encode_hdr (hdr_size msg) (msg_tag msg)) ++ msg_data msg).
      split; [unfold wire; rewrite app_assoc, take_drop; reflexivity|].
      split; [rewrite <- Hout0, <- Ho; reflexivity|].
      right. split; [reflexivity|]. intros E. apply (f_equal length) in E.
      rewrite length_app, length_drop, length_encode_hdr in E.
      rewrite length_take, length_encode_hdr in L. unfold sizeof_hdr in L. simpl in E. lia.
    + rewrite take_ge in Ho
        by (rewrite length_take, length_encode_hdr in L; rewrite length_encode_hdr;
            unfold sizeof_hdr in L; lia).
      destruct (send_payload_prefix _ _ _ _ _ _ H) as (p & q & E & Hout & Hres).
      exists (encode_hdr (hdr_size msg) (msg_tag msg) ++ p), q.
      split; [unfold wire; rewrite E; apply app_assoc|].
      split; [|exact Hres]. rewrite Hout, Ho, Hout0. symmetry. apply app_assoc.
Qed.

(** The header write takes ten bytes only. *)
Lemma send_writes_message_prefix_witness :
  exists w' p q,
    orch_ipc_send 2 ChanPtr termios_msg
      (with_sock (set_wr [WrSome 10] [] quiet_sock) (chan_world fresh_chan [])) = Ok (-1) w' /\
    wire termios_msg = p ++ q /\ s_out (w_sock w') = p /\ length p = 10%nat.
Proof.
  exists (with_errno EIO
            (with_sock (set_wr [] (take 10 (wire termios_msg)) quiet_sock)
               (chan_world fresh_chan []))).
  destruct (send_writes_message_prefix 2 ChanPtr termios_msg
              (with_sock (set_wr [WrSome 10] [] quiet_sock) (chan_world fresh_chan []))
              (-1) _ eq_refl) as (p & q & E & Hout & _).
  exists p, q. split; [reflexivity|]. split; [exact E|].
  assert (s_out (w_sock (with_errno EIO
            (with_sock (set_wr [] (take 10 (wire termios_msg)) quiet_sock)
               (chan_world fresh_chan [])))) = p) as Hp by exact Hout.
  split; [exact Hp|]. rewrite <- Hp. reflexivity.
Defined.

(** X15.  A select that a signal interrupts is tried again: the poll
    returns what the first select that is not interrupted returns, 1 when
    the socket is readable and -1 when the select fails. *)
Theorem poll_retries_interrupted n : forall fuel w c r rest,
  w_chan w = Some c -> sockfd c <> -1 ->
  s_sel (w_sock w) = replicate n SelIntr ++ r :: rest -> r <> SelIntr ->
  exists w1,
    orch_ipc_poll (S (n + fuel)) ChanPtr w
      = Ok (match r with SelFail => (-1, false) | _ => (1, false) end) w1 /\
    s_sel (w_sock w1) = rest /\ w_chan w1 = Some c /\ w_trace w1 = w_trace w /\
    s_rd (w_sock w1) = s_rd (w_sock w).
Proof.
  induction n as [|n IH]; intros fuel w c r rest Hc Hfd Hsel Hr.
  - cbn [replicate app] in Hsel. cbn [orch_ipc_poll Nat.add].
    rewrite (bind_run _ _ _ _ _ (deref_run _ _ Hc)).
    replace (sockfd c =? -1) with false by (symmetry; apply Z.eqb_neq; exact Hfd).
    unfold bind, sock_select. rewrite Hsel.
    destruct r; [|congruence|]; eexists; (split; [reflexivity|]);
      (split; [reflexivity|]); (split; [exact Hc|]); split; reflexivity.
  - cbn [replicate app] in Hsel.
    change (S (S n + fuel)) with (S (S (n + fuel))).
    remember (S (n + fuel)) as f eqn:Ef. cbn [orch_ipc_poll].
    rewrite (bind_run _ _ _ _ _ (deref_run _ _ Hc)).
    replace (sockfd c =? -1) with false by (symmetry; apply Z.eqb_neq; exact Hfd).
    unfold bind at 1. unfold sock_select. rewrite Hsel. subst f.
    destruct (IH fuel (with_errno EINTR
                         (with_sock (set_sel (replicate n SelIntr ++ r :: rest) (w_sock w)) w))
                c r rest Hc Hfd eq_refl Hr) as (w1 & Hrun & H1 & H2 & H3 & H4).
    exists w1. split; [exact Hrun|]. repeat split; assumption.
Qed.

Lemma poll_retries_interrupted_witness :
  exists w1,
    orch_ipc_poll 3 ChanPtr
      (with_sock (set_sel [SelIntr; SelIntr; SelReady] quiet_sock) (chan_world fresh_chan []))
      = Ok (1, false) w1 /\
    s_sel (w_sock w1) = [].
Proof.
  destruct (poll_retries_interrupted 2 0
              (with_sock (set_sel [SelIntr; SelIntr; SelReady] quiet_sock)
                 (chan_world fresh_chan []))
              fresh_chan SelReady [])
    as (w1 & Hrun & Hsel & _).
  - reflexivity.
  - discriminate.
  - reflexivity.
  - discriminate.
  - exists w1. split; [exact Hrun|exact Hsel].
Defined.

(** ** Failures of spawn *)

(** X16.  When the parent cannot allocate its channel object, [orch_spawn]
    closes the pty master and both ends of the socket pair, kills the
    child with SIGKILL and reaps it, and returns -1 with ENOMEM.  The
    handle is left with no channel, but with the pid of the child that is
    gone and with the descriptor of the pty that is closed. *)
Theorem spawn_without_memory_reaps_child fuel w cmdsock newpt pid argv h rest :
  0 < pid -> 0 <= newpt ->
  o_alloc (w_os w) = false :: rest ->
  o_child (w_os w) <> Reaped ->
  exists w1,
    orch_spawn (S fuel) cmdsock newpt pid argv h w = Ok (-1) w1 /\
    w_errno w1 = ENOMEM /\ o_child (w_os w1) = Reaped /\
    w_chan w1 = w_chan w /\
    p_ipc (w_proc w1) = NULL /\ p_pid (w_proc w1) = pid /\
    p_termctl (w_proc w1) = newpt /\
    w_trace w1 = w_trace w ++ [EvClose (snd cmdsock); EvClose newpt; EvClose (fst cmdsock);
                               EvKill pid SIGKILL; EvWaitpid pid false pid].
Proof.
  intros Hpid Hpt Halloc Hchild.
  destruct w as [ch p st ct so o er tr]. destruct o as [al ju chld si ps pr cl tf ty sy alr].
  simpl in Halloc, Hchild. subst al.
  unfold orch_spawn.
  replace (pid =? -1) with false by (symmetry; apply Z.eqb_neq; lia).
  replace (pid =? 0) with false by (symmetry; apply Z.eqb_neq; lia).
  cbv [bind update_proc modify orch_ipc_open malloc ret emit self assert
       set_errno sys_kill reap_loop sys_waitpid].
  cbn [w_os o_alloc w_proc with_proc with_os with_errno set_alloc log set_termctl
       set_released set_pid set_ipc p_termctl o_child fst snd].
  replace (0 <=? newpt) with true by (symmetry; apply Z.leb_le; exact Hpt).
  cbn [w_os o_alloc w_proc with_proc with_os with_errno set_alloc log set_termctl
       set_released set_pid set_ipc p_termctl o_child fst snd].
  change (SIGKILL =? SIGKILL) with true.
  destruct chld as [|status|]; [| |congruence];
    cbn [w_os o_alloc w_proc with_proc with_os with_errno set_alloc set_child log
         o_child fst snd];
    rewrite Z.eqb_refl; eexists; (split; [reflexivity|]);
    cbn; repeat rewrite <- app_assoc; repeat split; reflexivity.
Qed.

Lemma spawn_without_memory_reaps_child_witness :
  exists w1,
    orch_spawn 1 (3, 4) 5 100 ["cat"%string] fn_orchlua_child_error
      (with_os (set_alloc [false] quiet_os) (boot [])) = Ok (-1) w1 /\
    w_errno w1 = ENOMEM /\ o_child (w_os w1) = Reaped /\ p_pid (w_proc w1) = 100.
Proof.
  destruct (spawn_without_memory_reaps_child 0
              (with_os (set_alloc [false] quiet_os) (boot []))
              (3, 4) 5 100 ["cat"%string] fn_orchlua_child_error [])
    as (w1 & Hrun & Herr & Hchild & _ & _ & Hp & _).
  - lia.
  - lia.
  - reflexivity.
  - discriminate.
  - exists w1. repeat split; assumption.
Defined.

(** The steps of [close] when the child has been reaped already. *)
Lemma killed_reaped w :
  0 < p_pid (w_proc w) -> o_child (w_os w) = Reaped ->
  orchlua_process_killed w =
    Ok None (log (EvWaitpid (p_pid (w_proc w)) true (-1)) (with_errno ECHILD w)).
Proof.
  intros Hpid Hchild. unfold orchlua_process_killed.
  rewrite (bind_run self _ w (w_proc w) w eq_refl).
  replace (p_pid (w_proc w) =? 0) with false by (symmetry; apply Z.eqb_neq; lia).
  cbn [negb assert]. rewrite (bind_run (ret tt) _ w tt w eq_refl).
  erewrite bind_run by (unfold sys_waitpid; rewrite Hchild; reflexivity).
  cbv beta iota. rewrite (bind_run (ret tt) _ _ tt _ eq_refl).
  replace (-1 =? p_pid (w_proc w)) with false by (symmetry; apply Z.eqb_neq; lia).
  reflexivity.
Qed.

Lemma close_signal_reaped sig w :
  0 < p_pid (w_proc w) -> o_child (w_os w) = Reaped ->
  exists w1,
    close_signal sig w = Ok true w1 /\
    w_proc w1 = w_proc w /\ o_child (w_os w1) = Reaped /\ w_chan w1 = w_chan w /\
    w_trace w1 = w_trace w ++ [EvKill (p_pid (w_proc w)) sig;
                               EvWaitpid (p_pid (w_proc w)) false (-1); EvAlarm 0].
Proof.
  intros Hpid Hchild. eexists. split.
  - unfold close_signal.
    rewrite (bind_run self _ w (w_proc w) w eq_refl).
    erewrite bind_run
      by (unfold sys_kill, bind, emit, modify; cbn [log w_os]; rewrite Hchild; reflexivity).
    erewrite bind_run
      by (unfold sys_waitpid; cbn [log w_os]; rewrite Hchild; reflexivity).
    cbn [snd fst]. rewrite (bind_run (ret tt) _ _ tt _ eq_refl).
    erewrite bind_run by reflexivity.
    replace (-1 =? p_pid (w_proc w)) with false by (symmetry; apply Z.eqb_neq; lia).
    reflexivity.
  - split; [reflexivity|]. split; [exact Hchild|]. split; [reflexivity|].
    cbn. repeat rewrite <- app_assoc. reflexivity.
Qed.

(** X17.  Closing a handle that still names a child that has been reaped,
    as the handle is after a spawn that failed for lack of memory, signals
    that pid with SIGINT and then with SIGKILL, closes the pty descriptor
    the handle holds, and reports that the process could not be killed. *)
Theorem close_signals_reaped_pid fuel w :
  0 < p_pid (w_proc w) -> o_child (w_os w) = Reaped ->
  p_ipc (w_proc w) = NULL ->
  exists w1,
    orchlua_process_close fuel w
      = Ok (Lfail (Msg "could not kill process with SIGINT")) w1 /\
    closed (w_proc w1) /\
    w_trace w1 =
      w_trace w ++
      [EvWaitpid (p_pid (w_proc w)) true (-1);
       EvSigaction SIGALRM false; EvAlarm 5;
       EvKill (p_pid (w_proc w)) SIGINT; EvWaitpid (p_pid (w_proc w)) false (-1); EvAlarm 0;
       EvKill (p_pid (w_proc w)) SIGKILL; EvWaitpid (p_pid (w_proc w)) false (-1); EvAlarm 0;
       EvSigaction SIGALRM true] ++
      (if p_termctl (w_proc w) =? -1 then [] else [EvClose (p_termctl (w_proc w))]).
Proof.
  intros Hpid Hchild Hipc.
  assert ((p_pid (w_proc w) =? 0) = false) as E0 by (apply Z.eqb_neq; lia).
  set (wa := with_os (set_alarm true (w_os w))
               (log (EvAlarm 5) (log (EvSigaction SIGALRM false)
                  (log (EvWaitpid (p_pid (w_proc w)) true (-1)) (with_errno ECHILD w))))).
  destruct (close_signal_reaped SIGINT wa Hpid Hchild) as (w1 & R1 & P1 & C1 & _ & T1).
  assert (0 < p_pid (w_proc w1)) as Hpid1 by (rewrite P1; exact Hpid).
  destruct (close_signal_reaped SIGKILL w1 Hpid1 C1) as (w2 & R2 & P2 & C2 & _ & T2).
  assert (exists wc,
            (if negb (p_termctl (w_proc w) =? -1)
             then emit (EvClose (p_termctl (w_proc w))) else ret tt)
              (with_proc (set_ipc NULL (set_pid 0 (w_proc w)))
                 (log (EvSigaction SIGALRM true) w2)) = Ok tt wc /\
            w_proc wc = set_ipc NULL (set_pid 0 (w_proc w)) /\
            w_trace wc = w_trace w2 ++ EvSigaction SIGALRM true ::
                         (if p_termctl (w_proc w) =? -1 then []
                          else [EvClose (p_termctl (w_proc w))]))
    as (wc & Rc & Pc & Tc).
  { destruct (p_termctl (w_proc w) =? -1); eexists; (split; [reflexivity|]);
      (split; [reflexivity|]); cbn; rewrite <- ?app_assoc; reflexivity. }
  eexists. split.
  - unfold orchlua_process_close.
    rewrite (bind_run self _ w (w_proc w) w eq_refl), E0. cbn [negb].
    rewrite (bind_run _ _ _ _ _ (killed_reaped w Hpid Hchild)).
    unfold process_close_rest.
    erewrite bind_run by reflexivity. cbn [log with_errno w_proc]. rewrite E0. cbn [negb].
    erewrite bind_run.
    2:{ erewrite bind_run by reflexivity.
        erewrite bind_run by reflexivity.
        erewrite bind_run.
        2:{ unfold close_terminate. fold wa. rewrite (bind_run _ _ _ _ _ R1).
            rewrite (bind_run _ _ _ _ _ R2). reflexivity. }
        erewrite bind_run by reflexivity.
        erewrite bind_run by reflexivity. reflexivity. }
    erewrite bind_run by reflexivity.
    cbn [w_proc with_proc log set_pid p_ipc]. rewrite P2, P1.
    cbn [wa w_proc with_os log with_errno].
    rewrite Hipc.
    erewrite bind_run by reflexivity.
    erewrite bind_run by reflexivity.
    erewrite bind_run by reflexivity.
    cbn [w_proc with_proc set_ipc set_pid p_termctl].
    rewrite (bind_run _ _ _ _ _ Rc).
    erewrite bind_run by reflexivity. reflexivity.
  - split.
    + cbn [w_proc with_proc]. rewrite Pc. repeat split; reflexivity.
    + cbn [w_trace with_proc]. rewrite Tc, T2, T1, P1.
      cbn [wa w_trace w_proc with_os log with_errno].
      repeat rewrite <- app_assoc. reflexivity.
Qed.

(** The handle after the failed spawn of the example above. *)
Lemma close_signals_reaped_pid_witness :
  exists w1,
    orch_spawn 1 (3, 4) 5 100 ["cat"%string] fn_orchlua_child_error
      (with_os (set_alloc [false] quiet_os) (boot [])) = Ok (-1) spawn_failed /\
    orchlua_process_close 0 spawn_failed
      = Ok (Lfail (Msg "could not kill process with SIGINT")) w1 /\
    w_trace w1 =
      w_trace spawn_failed ++
      [EvWaitpid 100 true (-1); EvSigaction SIGALRM false; EvAlarm 5;
       EvKill 100 SIGINT; EvWaitpid 100 false (-1); EvAlarm 0;
       EvKill 100 SIGKILL; EvWaitpid 100 false (-1); EvAlarm 0;
       EvSigaction SIGALRM true; EvClose 5].
Proof.
  destruct (close_signals_reaped_pid 0 spawn_failed) as (w1 & Hrun & _ & Htr).
  - unfold spawn_failed. cbn [w_proc p_pid]. lia.
  - reflexivity.
  - reflexivity.
  - exists w1. split; [vm_compute; reflexivity|]. split; [exact Hrun|exact Htr].
Defined.

(** ** A child that fails before the release *)

Lemma wait_ready fuel w c :
  w_chan w = Some c -> queue c = [] -> sockfd c <> -1 ->
  s_sel (w_sock w) = [] -> s_rd (w_sock w) <> [] ->
  orch_ipc_wait (S fuel) ChanPtr w = Ok (1, Some false) w.
Proof.
  intros Hc Hq Hfd Hsel Hrd. unfold orch_ipc_wait.
  rewrite (bind_run _ _ _ _ _ (deref_run _ _ Hc)), Hq. cbn [orch_ipc_poll].
  unfold bind at 1. rewrite (bind_run _ _ _ _ _ (deref_run _ _ Hc)).
  replace (sockfd c =? -1) with false by (symmetry; apply Z.eqb_neq; exact Hfd).
  unfold bind, sock_select. rewrite Hsel.
  destruct (s_rd (w_sock w)); [congruence|reflexivity].
Qed.

Lemma wait_at_eof fuel w c :
  w_chan w = Some c -> queue c = [] -> sockfd c = -1 ->
  orch_ipc_wait (S fuel) ChanPtr w = Ok (0, Some true) w.
Proof.
  intros Hc Hq Hfd. unfold orch_ipc_wait.
  rewrite (bind_run _ _ _ _ _ (deref_run _ _ Hc)), Hq. cbn [orch_ipc_poll].
  unfold bind at 1. rewrite (bind_run _ _ _ _ _ (deref_run _ _ Hc)), Hfd. reflexivity.
Qed.

Lemma pop_child_error fuel w c m want :
  w_chan w = Some c -> queue c = [m] -> length (callbacks c) = 5%nat ->
  msg_tag m = IPC_ERROR -> msg_data m <> [] ->
  handler_for c IPC_ERROR = Some fn_orchlua_child_error ->
  orch_ipc_pop (S (S fuel)) ChanPtr want w =
    Ok (0, None)
       (log (EvFreeMsg m)
          (with_proc (set_error true (w_proc w))
             (log (EvStderr (msg_data m))
                (log (EvHandler fn_orchlua_child_error m)
                   (with_chan (Some (set_queue [] c)) w))))).
Proof.
  intros Hc Hq Hlen Htag Hdata Hh.
  remember (S fuel) as f eqn:Ef. cbn [orch_ipc_pop].
  rewrite (bind_run _ _ _ _ _ (deref_run _ _ Hc)), Hq.
  unfold store at 1. unfold modify at 1. unfold bind at 1.
  unfold callback_slot. rewrite Hlen, Htag.
  change ((0 <=? IPC_ERROR - 1) && (IPC_ERROR - 1 <? Z.of_nat 5)) with true.
  cbv iota. unfold bind at 1. unfold ret at 1.
  unfold handler_for in Hh. rewrite Hh.
  unfold emit at 1. unfold modify at 1. unfold bind at 1.
  cbn [call_handler]. unfold orchlua_child_error.
  assert (orch_ipc_msg_payload m = (Some (msg_data m), Z.of_nat (length (msg_data m)))) as Hp.
  { unfold orch_ipc_msg_payload, IPC_MSG_PAYLOAD_SIZE, hdr_size, IPC_MSG_HDR_SIZE.
    replace (sizeof_hdr + Z.of_nat (length (msg_data m)) - sizeof_hdr)
      with (Z.of_nat (length (msg_data m))) by lia.
    replace (Z.of_nat (length (msg_data m)) =? 0) with false; [reflexivity|].
    symmetry. apply Z.eqb_neq. destruct (msg_data m); [congruence|simpl; lia]. }
  rewrite Hp.
  replace (Z.of_nat (length (msg_data m)) =? 0) with false
    by (symmetry; apply Z.eqb_neq; destruct (msg_data m); [congruence|simpl; lia]).
  cbn [negb]. unfold emit, modify, bind, ret. cbn [Z.eqb negb].
  subst f. cbn [orch_ipc_pop]. unfold bind, deref. cbn [w_chan log with_proc with_chan].
  reflexivity.
Qed.

(** The wait of the handshake when the child sends an error message and
    ends. *)
Lemma wait_child_error fuel w c text :
  w_chan w = Some c -> queue c = [] -> 0 <= sockfd c ->
  length (callbacks c) = 5%nat ->
  handler_for c IPC_ERROR = Some fn_orchlua_child_error ->
  o_alloc (w_os w) = [] -> s_sel (w_sock w) = [] ->
  s_rd (w_sock w) = [RdData (wire {| msg_tag := IPC_ERROR; msg_data := text |}); RdData []] ->
  text <> [] -> Z.of_nat (length text) + 32 < SIZE_MODULUS ->
  exists w1,
    orch_wait (S (S (S (S fuel)))) ChanPtr w = Ok 0 w1 /\
    w_proc w1 = set_error true (w_proc w) /\
    w_chan w1 = Some (set_sockfd (-1) c) /\
    w_trace w1 =
      w_trace w ++
      [EvReadEof (sockfd c); EvClose (sockfd c);
       EvHandler fn_orchlua_child_error {| msg_tag := IPC_ERROR; msg_data := text |};
       EvStderr text;
       EvFreeMsg {| msg_tag := IPC_ERROR; msg_data := text |}].
Proof.
  intros Hc Hq Hfd Hlen Hh Halloc Hsel Hrd Htext Hsize.
  set (m := {| msg_tag := IPC_ERROR; msg_data := text |}) in *.
  eexists. split.
  - remember (S (S (S fuel))) as f eqn:Ef. cbn [orch_wait].
    rewrite Ef at 1.
    rewrite (bind_run _ _ _ _ _ (wait_ready _ w c Hc Hq ltac:(lia) Hsel ltac:(rewrite Hrd; discriminate))).
    cbn [fst snd from_option id]. change (1 =? -1) with false. cbv iota.
    erewrite bind_run.
    2:{ unfold orch_ipc_recv. erewrite bind_run.
        2:{ rewrite (drain_run _ _ _ Hc Hfd). rewrite Ef.
            change (S (S (S fuel))) with (S (S (S (length (@nil (list byte)) + fuel)))).
            rewrite (drain_loop_message fuel w c m text [] [RdData []]);
              [|exact Hc|exact Hfd|exact Hrd|apply app_nil_r|constructor|exact Halloc
               |discriminate|unfold m, IPC_ERROR; simpl; lia|exact Hsize].
            cbn [length Nat.add drain_loop].
            erewrite bind_run by (apply deref_run; reflexivity).
            erewrite bind_run by (apply sock_read_eof; [exact Hfd|reflexivity]).
            cbv beta iota. apply drain_eof_run; [reflexivity|exact Hfd]. }
        cbn [Z.eqb negb]. rewrite Ef.
        erewrite bind_run.
        2:{ apply (pop_child_error _ _ (set_sockfd (-1) (set_queue (queue c ++ [m]) c)) m);
              [reflexivity|cbn; rewrite Hq; reflexivity|exact Hlen|reflexivity|exact Htext|exact Hh]. }
        reflexivity. }
    cbn [fst snd Z.eqb negb]. rewrite Ef. cbn [orch_wait].
    erewrite bind_run.
    2:{ apply (wait_at_eof _ _ (set_queue [] (set_sockfd (-1) (set_queue (queue c ++ [m]) c))));
          reflexivity. }
    reflexivity.
  - split; [reflexivity|]. split; [destruct c; simpl in Hq; subst; reflexivity|].
    cbn. repeat rewrite <- app_assoc. reflexivity.
Qed.

(** X18.  A child that reports an error and ends before it has released
    the parent does not make the spawn fail: the parent's wait hands the
    message to the error handler, which prints it and sets the [error]
    flag of the handle, and the end of the channel then ends the wait with
    0.  [orch_spawn] returns 0; a [read] on the handle then returns true
    at once, without a select or a read on the pty. *)
Theorem spawn_succeeds_on_child_error fuel w cmdsock newpt pid argv text :
  0 < pid -> 0 <= fst cmdsock ->
  o_alloc (w_os w) = [] -> s_sel (w_sock w) = [] ->
  s_rd (w_sock w) = [RdData (wire {| msg_tag := IPC_ERROR; msg_data := text |}); RdData []] ->
  text <> [] -> Z.of_nat (length text) + 32 < SIZE_MODULUS ->
  exists w1,
    orch_spawn (S (S (S (S fuel)))) cmdsock newpt pid argv fn_orchlua_child_error w
      = Ok 0 w1 /\
    p_error (w_proc w1) = true /\ p_pid (w_proc w1) = pid /\
    chan_eof w1 /\
    w_trace w1 =
      w_trace w ++
      [EvClose (snd cmdsock); EvReadEof (fst cmdsock); EvClose (fst cmdsock);
       EvHandler fn_orchlua_child_error {| msg_tag := IPC_ERROR; msg_data := text |};
       EvStderr text;
       EvFreeMsg {| msg_tag := IPC_ERROR; msg_data := text |}] /\
    forall fuel2 callback, orchlua_process_read (S fuel2) callback None w1 = Ok Ltrue w1.
Proof.
  intros Hpid Hfd Halloc Hsel Hrd Htext Hsize.
  set (c := {| callbacks := [None; Some fn_orchlua_child_error; None; None; None];
               queue := []; sockfd := fst cmdsock |}).
  set (wa := with_chan (Some c)
               (log (EvClose (snd cmdsock))
                  (with_proc (set_ipc ChanPtr (set_pid pid (set_released false
                                (set_termctl newpt (w_proc w))))) w))).
  destruct (wait_child_error fuel wa c text) as (w1 & Hrun & Hp & Hc & Htr);
    [reflexivity|reflexivity|exact Hfd|reflexivity|reflexivity|exact Halloc|exact Hsel
    |exact Hrd|exact Htext|exact Hsize|].
  exists w1. split.
  - rewrite <- Hrun. unfold orch_spawn.
    replace (pid =? -1) with false by (symmetry; apply Z.eqb_neq; lia).
    replace (pid =? 0) with false by (symmetry; apply Z.eqb_neq; lia).
    erewrite bind_run by reflexivity.
    erewrite bind_run by reflexivity.
    erewrite bind_run by reflexivity.
    erewrite bind_run.
    2:{ unfold orch_ipc_open. erewrite bind_run by (apply malloc_run; exact Halloc).
        cbv iota. erewrite bind_run by reflexivity. reflexivity. }
    erewrite bind_run by reflexivity.
    erewrite bind_run by reflexivity.
    erewrite bind_run by reflexivity.
    reflexivity.
  - split; [rewrite Hp; reflexivity|]. split; [rewrite Hp; reflexivity|].
    split; [exists (set_sockfd (-1) c); split; [exact Hc|reflexivity]|].
    split; [rewrite Htr; cbn; repeat rewrite <- app_assoc; reflexivity|].
    intros fuel2 callback. unfold orchlua_process_read.
    rewrite (bind_run self _ w1 (w_proc w1) w1 eq_refl). cbn [process_read_loop].
    rewrite (bind_run self _ w1 (w_proc w1) w1 eq_refl), Hp. reflexivity.
Qed.

(** The child could not start a session. *)
Lemma spawn_succeeds_on_child_error_witness :
  exists w1,
    spawn_parent 4
      (boot [RdData (wire {| msg_tag := IPC_ERROR;
                             msg_data := list_byte_of_string "setsid" ++ [Byte.x00] |});
             RdData []]) = Ok 0 w1 /\
    p_error (w_proc w1) = true.
Proof.
  destruct (spawn_succeeds_on_child_error 0
              (boot [RdData (wire {| msg_tag := IPC_ERROR;
                                     msg_data := list_byte_of_string "setsid" ++ [Byte.x00] |});
                     RdData []])
              (3, 4) 5 100 ["cat"%string] (list_byte_of_string "setsid" ++ [Byte.x00]))
    as (w1 & Hrun & Herr & _).
  - lia.
  - cbn [fst]. lia.
  - reflexivity.
  - reflexivity.
  - reflexivity.
  - discriminate.
  - vm_compute. reflexivity.
  - exists w1. split; [exact Hrun|exact Herr].
Defined.

(** ** Terminal attributes across the channel *)

Lemma length_le_bytes n z : length (le_bytes n z) = n.
Proof. revert z. induction n as [|n IH]; intros z; [reflexivity|]. simpl. rewrite IH. reflexivity. Qed.

Lemma le_value_le_bytes_4 z : 0 <= z < 2 ^ 32 -> le_value (le_bytes 4 z) = z.
Proof.
  intros H. rewrite le_value_le_bytes. change (8 * Z.of_nat 4) with 32.
  apply Z.mod_small, H.
Qed.

Lemma Z_of_byte_map cc :
  Forall (fun x => 0 <= x < 256) cc -> map Z_of_byte (map byte_of_Z cc) = cc.
Proof.
  induction 1 as [|x cc Hx _ IH]; [reflexivity|].
  simpl. rewrite IH, Z_of_byte_of_Z, Z.mod_small by exact Hx. reflexivity.
Qed.

Lemma length_encode_termios t : length (encode_termios t) = 44%nat.
Proof.
  unfold encode_termios. rewrite !length_app, !length_le_bytes, length_map, length_take.
  rewrite length_app, length_replicate. unfold NCCS. lia.
Qed.

(** Copying a termios record into a message and out of it again. *)
Lemma decode_encode_termios t : termios_wf t -> decode_termios (encode_termios t) = t.
Proof.
  intros (Hi & Ho & Hc & Hl & Hlen & Hcc & His & Hos).
  unfold decode_termios, encode_termios.
  assert (take NCCS (c_cc t ++ replicate NCCS 0) = c_cc t) as Etake
    by (rewrite <- Hlen; apply take_app_length).
  rewrite Etake.
  assert (forall (a b : list byte), length a = 4%nat -> take 4 (a ++ b) = a) as Ht
    by (intros a b <-; apply take_app_length).
  assert (forall (a b : list byte) m, length a = 4%nat ->
            drop (S (S (S (S m)))) (a ++ b) = drop m b) as Hd.
  { intros a b m E. change (S (S (S (S m)))) with (4 + m)%nat. rewrite <- E.
    rewrite drop_app_ge by lia. f_equal. lia. }
  assert (forall (a b : list byte) m, length a = NCCS ->
            drop (NCCS + m) (a ++ b) = drop m b) as Hd20.
  { intros a b m E. rewrite <- E. rewrite drop_app_ge by lia. f_equal. lia. }
  assert (forall z, length (le_bytes 4 z) = 4%nat) as L4 by (intros; apply length_le_bytes).
  assert (length (map byte_of_Z (c_cc t)) = NCCS) as L20 by (rewrite length_map; exact Hlen).
  rewrite !Hd by apply L4. cbn [drop].
  change 20%nat with (NCCS + 0)%nat. change 24%nat with (NCCS + 4)%nat.
  rewrite !Hd20 by exact L20. cbn [drop].
  rewrite !Hd by apply L4. cbn [drop].
  rewrite !Ht by apply L4.
  change (S (S (S (S (NCCS + 0))))) with (NCCS + 4)%nat.
  rewrite !Hd20 by exact L20. rewrite !Hd by apply L4.
  rewrite !drop_0. rewrite !Ht by apply L4.
  rewrite <- L20 at 1. rewrite take_app_length.
  rewrite take_ge by (rewrite L4; lia).
  rewrite !le_value_le_bytes_4 by assumption.
  rewrite Z_of_byte_map by exact Hcc.
  destruct t; reflexivity.
Qed.

Lemma sock_read_again fd n w e rest :
  0 <= fd -> s_rd (w_sock w) = RdErr e :: rest ->
  sock_read fd n w = Ok (RdErr e) (with_errno e (with_sock (set_rd rest (w_sock w)) w)).
Proof.
  intros Hfd Hrd. unfold sock_read.
  replace (fd <? 0) with false by (symmetry; apply Z.ltb_ge; exact Hfd).
  rewrite Hrd. reflexivity.
Qed.

Lemma drain_again fuel w c rest :
  w_chan w = Some c -> 0 <= sockfd c ->
  s_rd (w_sock w) = RdErr EAGAIN :: rest ->
  orch_ipc_drain (S fuel) ChanPtr w =
    Ok 0 (with_errno EAGAIN (with_sock (set_rd rest (w_sock w)) w)).
Proof.
  intros Hc Hfd Hrd. rewrite (drain_run _ _ _ Hc Hfd). cbn [drain_loop].
  rewrite (bind_run _ _ _ _ _ (deref_run _ _ Hc)).
  rewrite (bind_run _ _ _ _ _ (sock_read_again _ _ _ _ _ Hfd Hrd)). reflexivity.
Qed.

(** A send after a drain that returned 0, on a socket that takes every
    write whole. *)
Lemma send_whole fuel w wd c m :
  orch_ipc_drain (S (S fuel)) ChanPtr w = Ok 0 wd ->
  w_chan wd = Some c -> 0 <= sockfd c -> s_wr (w_sock wd) = [] ->
  orch_ipc_send (S (S (S fuel))) ChanPtr m w =
    Ok 0 (with_sock (set_wr [] (s_out (w_sock wd) ++ wire m) (w_sock wd)) wd).
Proof.
  intros Hd Hc Hfd Hwr. remember (S (S fuel)) as f eqn:Ef. cbn [orch_ipc_send].
  rewrite (bind_run _ _ _ _ _ Hd). cbn [Z.eqb negb].
  erewrite bind_run by (apply deref_run; exact Hc).
  erewrite bind_run by (apply sock_write_whole; [exact Hfd|exact Hwr]).
  rewrite length_encode_hdr. change (Z.of_nat 16 <? sizeof_hdr) with false.
  cbv iota. subst f. unfold wire. destruct (msg_data m) as [|b bs] eqn:E.
  - cbn [send_payload]. rewrite app_nil_r. reflexivity.
  - cbn [send_payload].
    erewrite bind_run by (apply deref_run; exact Hc).
    erewrite bind_run by (apply sock_write_whole; [exact Hfd|reflexivity]).
    cbn [length skipn]. rewrite skipn_all. cbn [send_payload ret].
    cbn [w_sock with_sock s_out set_wr]. rewrite <- app_assoc. reflexivity.
Qed.

Lemma register_run w c tag h :
  w_chan w = Some c -> length (callbacks c) = 5%nat -> IPC_NOXMIT < tag < IPC_LAST ->
  orch_ipc_register ChanPtr tag h w =
    Ok 0 (with_chan (Some (set_callbacks (<[Z.to_nat (tag - 1) := h]> (callbacks c)) c)) w).
Proof.
  intros Hc Hlen [Hlo Hhi]. unfold IPC_NOXMIT, IPC_LAST in *.
  unfold orch_ipc_register, bind, deref, callback_slot. rewrite Hc, Hlen.
  replace (0 <=? tag - 1) with true by (symmetry; apply Z.leb_le; lia).
  replace (tag - 1 <? Z.of_nat 5) with true by (symmetry; apply Z.ltb_lt; lia).
  reflexivity.
Qed.

Lemma payload_of_termios tag t :
  orch_ipc_msg_payload {| msg_tag := tag; msg_data := encode_termios t |}
  = (Some (encode_termios t), sizeof_termios).
Proof.
  unfold orch_ipc_msg_payload, IPC_MSG_PAYLOAD_SIZE, hdr_size, IPC_MSG_HDR_SIZE.
  cbn [msg_data]. rewrite length_encode_termios. reflexivity.
Qed.

Lemma pop_term_set fuel w c t want :
  w_chan w = Some c ->
  queue c = [{| msg_tag := IPC_TERMIOS_SET; msg_data := encode_termios t |}] ->
  length (callbacks c) = 5%nat ->
  handler_for c IPC_TERMIOS_SET = Some fn_orchlua_process_term_set ->
  orch_ipc_pop (S (S fuel)) ChanPtr want w =
    Ok (0, None)
       (log (EvFreeMsg {| msg_tag := IPC_TERMIOS_SET; msg_data := encode_termios t |})
          (with_sterm {| term := decode_termios (encode_termios t); initialized := true |}
             (log (EvHandler fn_orchlua_process_term_set
                     {| msg_tag := IPC_TERMIOS_SET; msg_data := encode_termios t |})
                (with_chan (Some (set_queue [] c)) w)))).
Proof.
  intros Hc Hq Hlen Hh.
  remember (S fuel) as f eqn:Ef. cbn [orch_ipc_pop].
  rewrite (bind_run _ _ _ _ _ (deref_run _ _ Hc)), Hq.
  unfold store at 1. unfold modify at 1. unfold bind at 1.
  unfold callback_slot. rewrite Hlen. cbn [msg_tag].
  change ((0 <=? IPC_TERMIOS_SET - 1) && (IPC_TERMIOS_SET - 1 <? Z.of_nat 5)) with true.
  cbv iota. unfold bind at 1. unfold ret at 1.
  unfold handler_for in Hh. rewrite Hh.
  unfold emit at 1. unfold modify at 1. unfold bind at 1.
  cbn [call_handler]. unfold orchlua_process_term_set.
  rewrite payload_of_termios. rewrite Z.eqb_refl. cbn [negb].
  unfold emit, modify, bind, ret. cbn [Z.eqb negb].
  subst f. cbn [orch_ipc_pop]. unfold bind, deref.
  cbn [w_chan log with_sterm with_chan]. reflexivity.
Qed.

Lemma msg_alloc_run tag n w :
  tag <> IPC_NOXMIT -> o_alloc (w_os w) = [] ->
  orch_ipc_msg_alloc tag n w = Ok (Some {| msg_tag := tag; msg_data := replicate n Byte.x00 |}) w.
Proof.
  intros Htag Halloc. unfold orch_ipc_msg_alloc.
  replace (tag =? IPC_NOXMIT) with false by (symmetry; apply Z.eqb_neq; exact Htag).
  cbn [negb assert]. rewrite (bind_run (ret tt) _ w tt w eq_refl).
  erewrite bind_run by (apply malloc_run; exact Halloc). reflexivity.
Qed.

(** X19.  [fetch_term] asks the child for its terminal attributes and
    returns a handle that holds them: the child answers an inquiry with
    its attributes as a TERMIOS_SET message, and the parent, given that
    answer, stores exactly those attributes, marks them initialised, and
    clears the handler it had installed for the answer. *)
Theorem fetch_term_holds_child_attributes :
  (forall fuel wc cc,
     w_chan wc = Some cc -> 0 <= sockfd cc ->
     o_alloc (w_os wc) = [] -> s_rd (w_sock wc) = [] -> s_wr (w_sock wc) = [] ->
     exists wc',
       orch_child_termios_inquiry (S (S (S fuel))) ChanPtr wc = Ok 0 wc' /\
       s_out (w_sock wc') =
         s_out (w_sock wc) ++
         wire {| msg_tag := IPC_TERMIOS_SET; msg_data := encode_termios (w_child_t wc) |}) /\
  (forall fuel wp c t,
     w_chan wp = Some c -> 0 <= sockfd c -> queue c = [] ->
     length (callbacks c) = 5%nat ->
     p_ipc (w_proc wp) = ChanPtr -> p_term (w_proc wp) = None ->
     o_alloc (w_os wp) = [] -> s_wr (w_sock wp) = [] -> s_sel (w_sock wp) = [] ->
     s_rd (w_sock wp) =
       [RdErr EAGAIN;
        RdData (wire {| msg_tag := IPC_TERMIOS_SET; msg_data := encode_termios t |})] ->
     termios_wf t ->
     exists w1 c1,
       orchlua_process_term (S (S (S fuel))) wp = Ok Lterm w1 /\
       p_term (w_proc w1) = Some {| term := t; initialized := true |} /\
       s_out (w_sock w1) = s_out (w_sock wp) ++ wire (nodata IPC_TERMIOS_INQUIRY) /\
       w_chan w1 = Some c1 /\ handler_for c1 IPC_TERMIOS_SET = None /\ queue c1 = []).
Proof.
  split.
  - intros fuel wc cc Hc Hfd Halloc Hrd Hwr.
    set (m := {| msg_tag := IPC_TERMIOS_SET; msg_data := encode_termios (w_child_t wc) |}).
    assert (orch_ipc_drain (S (S fuel)) ChanPtr wc = Ok 0 (with_errno EAGAIN wc)) as Hd.
    { rewrite (drain_run _ _ _ Hc Hfd). apply (drain_loop_silent _ _ cc _ Hc Hfd Hrd). }
    eexists. split.
    + unfold orch_child_termios_inquiry.
      erewrite bind_run by (apply msg_alloc_run; [discriminate|exact Halloc]).
      cbv beta iota. rewrite (bind_run get _ wc wc wc eq_refl).
      erewrite bind_run.
      2:{ apply (send_whole fuel wc (with_errno EAGAIN wc) cc); [exact Hd|exact Hc|exact Hfd|exact Hwr]. }
      erewrite bind_run by reflexivity. reflexivity.
    + reflexivity.
  - intros fuel wp c t Hc Hfd Hq Hlen Hipc Hterm Halloc Hwr Hsel Hrd Hwf.
    set (m := {| msg_tag := IPC_TERMIOS_SET; msg_data := encode_termios t |}) in *.
    set (c1 := set_callbacks (<[3%nat := Some fn_orchlua_process_term_set]> (callbacks c)) c).
    set (w1 := with_chan (Some c1)
                 (with_sterm {| term := term (w_sterm wp); initialized := false |} wp)).
    set (wd := with_errno EAGAIN (with_sock (set_rd [RdData (wire m)] (w_sock w1)) w1)).
    set (ws := with_sock (set_wr [] (s_out (w_sock wd) ++ wire (nodata IPC_TERMIOS_INQUIRY))
                            (w_sock wd)) wd).
    assert (length (callbacks c1) = 5%nat) as Hlen1
      by (unfold c1; cbn [callbacks set_callbacks]; rewrite length_insert; exact Hlen).
    assert (orch_ipc_drain (S (S fuel)) ChanPtr w1 = Ok 0 wd) as Hd
      by (apply (drain_again _ w1 c1); [reflexivity|exact Hfd|exact Hrd]).
    assert (orch_ipc_send_nodata (S (S (S fuel))) ChanPtr IPC_TERMIOS_INQUIRY w1 = Ok 0 ws) as Hs
      by (apply (send_whole fuel w1 wd c1); [exact Hd|reflexivity|exact Hfd|exact Hwr]).
    set (cq := set_queue (queue c1 ++ [m]) c1).
    set (wr := with_errno EAGAIN (with_chan (Some cq) (with_sock (set_rd [] (w_sock ws)) ws))).
    assert (orch_ipc_drain (S (S (S fuel))) ChanPtr ws = Ok 0 wr) as Hd2.
    { change (S (S (S fuel))) with (S (S (S (length (@nil (list byte)) + fuel)))).
      apply (drain_message fuel ws c1 m (encode_termios t) []);
        [reflexivity|exact Hfd|reflexivity|apply app_nil_r|constructor|exact Halloc
        |split; reflexivity|].
      cbn [m msg_data]. rewrite length_encode_termios. unfold SIZE_MODULUS. lia. }
    assert (handler_for cq IPC_TERMIOS_SET = Some fn_orchlua_process_term_set) as Hh.
    { unfold handler_for, cq, c1. cbn [callbacks set_queue set_callbacks].
      change (Z.to_nat (IPC_TERMIOS_SET - 1)) with 3%nat.
      rewrite list_lookup_insert_eq by lia. reflexivity. }
    do 2 eexists. split.
    + unfold orchlua_process_term.
      rewrite (bind_run self _ wp (w_proc wp) wp eq_refl), Hipc.
      rewrite (bind_run _ _ _ _ _ (okay_run _ _ Hc)).
      replace (0 <=? sockfd c) with true by (symmetry; apply Z.leb_le; exact Hfd).
      cbn [negb]. rewrite Hterm.
      erewrite bind_run by reflexivity.
      erewrite bind_run.
      2:{ apply (register_run _ c); [exact Hc|exact Hlen|split; reflexivity]. }
      change (Z.to_nat (IPC_TERMIOS_SET - 1)) with 3%nat. fold c1. fold w1.
      erewrite bind_run.
      2:{ unfold process_term_body. rewrite (bind_run _ _ _ _ _ Hs). cbn [Z.eqb negb].
          erewrite bind_run.
          2:{ apply (wait_ready _ ws c1);
                [reflexivity|exact Hq|unfold c1; cbn [sockfd set_callbacks]; lia
                |exact Hsel|discriminate]. }
          cbn [fst]. change (1 =? -1) with false. cbv iota.
          erewrite bind_run.
          2:{ unfold orch_ipc_recv. rewrite (bind_run _ _ _ _ _ Hd2). cbn [Z.eqb negb].
              erewrite bind_run.
              2:{ apply (pop_term_set _ wr cq t);
                    [reflexivity|unfold cq; cbn; rewrite Hq; reflexivity|exact Hlen1|exact Hh]. }
              reflexivity. }
          cbn [fst snd Z.eqb negb].
          erewrite bind_run by reflexivity.
          cbn [w_sterm log with_sterm initialized negb].
          erewrite bind_run by reflexivity. reflexivity. }
      erewrite bind_run.
      2:{ apply (register_run _ (set_queue [] cq)); [reflexivity|exact Hlen1|split; reflexivity]. }
      reflexivity.
    + split.
      { change (Some {| term := decode_termios (encode_termios t); initialized := true |}
                = Some {| term := t; initialized := true |}).
        rewrite (decode_encode_termios t Hwf). reflexivity. }
      split; [reflexivity|]. split; [reflexivity|]. split; [|reflexivity].
      unfold handler_for. cbn [callbacks set_callbacks].
      change (Z.to_nat (IPC_TERMIOS_SET - 1)) with 3%nat.
      rewrite list_lookup_insert_eq; [reflexivity|]. cbn. rewrite length_insert. lia.
Qed.

Lemma termios_wf_tty1 : termios_wf tty1.
Proof.
  unfold termios_wf, tty1. cbn [c_iflag c_oflag c_cflag c_lflag c_cc c_ispeed c_ospeed].
  repeat split; try lia; try reflexivity. repeat constructor; lia.
Qed.

Lemma fetch_term_holds_child_attributes_witness :
  exists w1,
    orchlua_process_term 3
      (with_sock (set_rd [RdErr EAGAIN; RdData (wire termios_msg)] (w_sock spawned)) spawned)
      = Ok Lterm w1 /\
    p_term (w_proc w1) = Some {| term := tty1; initialized := true |}.
Proof.
  destruct fetch_term_holds_child_attributes as [_ H].
  destruct (H 0%nat
              (with_sock (set_rd [RdErr EAGAIN; RdData (wire termios_msg)] (w_sock spawned))
                 spawned)
              {| callbacks := [None; Some fn_orchlua_child_error; None; None; None];
                 queue := []; sockfd := 3 |} tty1)
    as (w1 & c1 & Hrun & Hterm & _).
  - reflexivity.
  - cbn [sockfd]. lia.
  - reflexivity.
  - reflexivity.
  - reflexivity.
  - reflexivity.
  - reflexivity.
  - reflexivity.
  - reflexivity.
  - reflexivity.
  - exact termios_wf_tty1.
  - exists w1. split; [exact Hrun|exact Hterm].
Defined.

(** X20.  [update] sends the attributes it has put together as one
    TERMIOS_SET message and succeeds when the child acknowledges; the
    child, given that message, makes exactly those attributes the
    attributes of its terminal and acknowledges. *)
Theorem update_reaches_child_terminal :
  (forall th str2n fuel tbl wp c cur updated,
     w_chan wp = Some c -> 0 <= sockfd c -> queue c = [] ->
     length (callbacks c) = 5%nat -> handler_for c IPC_TERMIOS_ACK = None ->
     p_ipc (w_proc wp) = ChanPtr -> p_term (w_proc wp) = Some cur ->
     update_loop th str2n update_fields (LTable tbl) (term cur) = inr updated ->
     o_alloc (w_os wp) = [] -> s_wr (w_sock wp) = [] -> s_sel (w_sock wp) = [] ->
     s_rd (w_sock wp) = [RdErr EAGAIN; RdData (wire (nodata IPC_TERMIOS_ACK))] ->
     exists w1,
       orchlua_term_update th str2n (S (S (S fuel))) (LTable tbl) wp = Ok Ltrue w1 /\
       p_term (w_proc w1) = Some {| term := updated; initialized := initialized cur |} /\
       s_out (w_sock w1) =
         s_out (w_sock wp) ++
         wire {| msg_tag := IPC_TERMIOS_SET; msg_data := encode_termios updated |}) /\
  (forall ipc_close fuel wc cc t,
     w_chan wc = Some cc -> 0 <= sockfd cc ->
     s_rd (w_sock wc) = [] -> s_wr (w_sock wc) = [] ->
     o_tcset_fail (w_os wc) = false -> termios_wf t ->
     exists wc',
       orch_child_termios_set ipc_close (S (S (S fuel))) ChanPtr
         {| msg_tag := IPC_TERMIOS_SET; msg_data := encode_termios t |} wc = Ok 0 wc' /\
       w_child_t wc' = t /\ o_tty (w_os wc') = t /\
       w_trace wc' = w_trace wc ++ [EvTcsetattr t] /\
       s_out (w_sock wc') = s_out (w_sock wc) ++ wire (nodata IPC_TERMIOS_ACK)).
Proof.
  split.
  - intros th str2n fuel tbl wp c cur updated Hc Hfd Hq Hlen Hh Hipc Hterm Hupd
      Halloc Hwr Hsel Hrd.
    set (m := {| msg_tag := IPC_TERMIOS_SET; msg_data := encode_termios updated |}).
    set (w1 := with_proc (set_term (Some {| term := updated; initialized := initialized cur |})
                            (w_proc wp)) wp).
    set (wd := with_errno EAGAIN
                 (with_sock (set_rd [RdData (wire (nodata IPC_TERMIOS_ACK))] (w_sock w1)) w1)).
    set (ws := with_sock (set_wr [] (s_out (w_sock wd) ++ wire m) (w_sock wd)) wd).
    assert (orch_ipc_drain (S (S fuel)) ChanPtr w1 = Ok 0 wd) as Hd
      by (apply (drain_again _ w1 c); [exact Hc|exact Hfd|exact Hrd]).
    assert (orch_ipc_send (S (S (S fuel))) ChanPtr m w1 = Ok 0 ws) as Hs
      by (apply (send_whole fuel w1 wd c); [exact Hd|exact Hc|exact Hfd|exact Hwr]).
    set (wf := log (EvFreeMsg m) ws).
    set (ack := nodata IPC_TERMIOS_ACK).
    set (wr := with_errno EAGAIN
                 (with_chan (Some (set_queue (queue c ++ [ack]) c))
                    (with_sock (set_rd [] (w_sock wf)) wf))).
    assert (orch_ipc_drain (S (S (S fuel))) ChanPtr wf = Ok 0 wr) as Hd2.
    { change (S (S (S fuel))) with (S (S (S (length (@nil (list byte)) + fuel)))).
      apply (drain_message fuel wf c ack [] []);
        [exact Hc|exact Hfd|reflexivity|reflexivity|constructor|exact Halloc
        |split; reflexivity|unfold SIZE_MODULUS; cbn; lia]. }
    eexists. split.
    + unfold orchlua_term_update.
      rewrite (bind_run self _ wp (w_proc wp) wp eq_refl), Hterm, Hupd.
      erewrite bind_run by reflexivity. fold w1.
      erewrite bind_run by (apply msg_alloc_run; [discriminate|exact Halloc]).
      cbv beta iota. unfold fill. cbn [msg_tag]. fold m. rewrite Hipc.
      rewrite (bind_run _ _ _ _ _ Hs).
      rewrite (bind_run get _ ws ws ws eq_refl).
      erewrite bind_run by reflexivity. cbn [Z.eqb negb]. fold wf.
      erewrite bind_run.
      2:{ apply (wait_ready _ _ c); [exact Hc|exact Hq|lia|exact Hsel|discriminate]. }
      cbn [fst]. change (1 =? -1) with false. cbv iota.
      erewrite bind_run.
      2:{ unfold orch_ipc_recv. rewrite (bind_run _ _ _ _ _ Hd2). cbn [Z.eqb negb].
          erewrite bind_run.
          2:{ apply (pop_unhandled _ wr (set_queue (queue c ++ [ack]) c) ack []);
                [reflexivity|cbn; rewrite Hq; reflexivity|exact Hlen|split; reflexivity|exact Hh]. }
          reflexivity. }
      cbn [fst snd Z.eqb negb orch_ipc_msg_tag ack nodata msg_tag].
      rewrite Z.eqb_refl. cbn [negb].
      erewrite bind_run by reflexivity. reflexivity.
    + split; [reflexivity|]. reflexivity.
  - intros ipc_close fuel wc cc t Hc Hfd Hrd Hwr Htc Hwf.
    set (wl := log (EvTcsetattr t) (with_child_t t wc)).
    set (wt := with_os (set_tty t (w_os wl)) wl).
    assert (orch_ipc_drain (S (S fuel)) ChanPtr wt = Ok 0 (with_errno EAGAIN wt)) as Hd.
    { rewrite (drain_run _ wt cc Hc Hfd). apply (drain_loop_silent _ wt cc _ Hc Hfd Hrd). }
    eexists. split.
    + unfold orch_child_termios_set. rewrite payload_of_termios.
      rewrite Z.eqb_refl. cbn [negb].
      rewrite (decode_encode_termios t Hwf).
      erewrite bind_run by reflexivity.
      erewrite bind_run by reflexivity.
      cbn [w_os with_child_t]. rewrite Htc.
      erewrite bind_run.
      2:{ cbn [w_child_t with_child_t]. erewrite bind_run by reflexivity. reflexivity. }
      apply (send_whole fuel wt (with_errno EAGAIN wt) cc); [exact Hd|exact Hc|exact Hfd|exact Hwr].
    + split; [reflexivity|]. split; [reflexivity|]. split; reflexivity.
Qed.

(** The attributes of the example terminal reach the child's terminal. *)
Lemma update_reaches_child_terminal_witness :
  exists wc',
    orch_child_termios_set (orch_ipc_close 3) 3 ChanPtr termios_msg (chan_world fresh_chan [])
      = Ok 0 wc' /\
    o_tty (w_os wc') = tty1.
Proof.
  destruct update_reaches_child_terminal as [_ H].
  destruct (H (orch_ipc_close 3) 0%nat (chan_world fresh_chan []) fresh_chan tty1)
    as (wc' & Hrun & _ & Htty & _).
  - reflexivity.
  - cbn [sockfd fresh_chan]. lia.
  - reflexivity.
  - reflexivity.
  - reflexivity.
  - exact termios_wf_tty1.
  - exists wc'. split; [exact Hrun|exact Htty].
Defined.

(** ** Closing the channel *)

Lemma bind_exited {A B} (m : M A) (k : A -> M B) w code w1 :
  m w = Exited code w1 -> bind m k w = Exited code w1.
Proof. unfold bind. intros ->. reflexivity. Qed.

(** The close of an open channel with nothing queued, when the peer has
    closed its end. *)
Lemma close_reads_eof fuel w c rest :
  w_chan w = Some c -> 0 <= sockfd c -> queue c = [] ->
  s_sel (w_sock w) = [] -> s_rd (w_sock w) = RdData [] :: rest ->
  orch_ipc_close (S (S fuel)) ChanPtr w =
    Ok 0 (with_chan None
            (log EvFreeIpc
               (with_chan (Some (set_sockfd (-1) c))
                  (log (EvClose (sockfd c))
                     (log (EvReadEof (sockfd c))
                        (with_sock (set_rd rest (w_sock w))
                           (log (EvShutdown (sockfd c)) w))))))).
Proof.
  intros Hc Hfd Hq Hsel Hrd.
  assert ((sockfd c =? -1) = false) as Efd by (apply Z.eqb_neq; lia).
  set (w0 := log (EvShutdown (sockfd c)) w).
  set (w1 := with_chan (Some (set_sockfd (-1) c))
               (log (EvClose (sockfd c))
                  (log (EvReadEof (sockfd c)) (with_sock (set_rd rest (w_sock w0)) w0)))).
  assert (close_drain (S (S fuel)) ChanPtr 0 w0 = Ok 0 w1) as Hcd.
  { remember (S fuel) as f eqn:Ef. cbn [close_drain].
    erewrite bind_run by (apply deref_run; exact Hc).
    rewrite Efd. cbn [negb Z.eqb andb]. rewrite Ef.
    erewrite bind_run.
    2:{ apply (wait_ready _ w0 c); [exact Hc|exact Hq|lia|exact Hsel|].
        cbn [w0 w_sock log]. rewrite Hrd. discriminate. }
    erewrite bind_run.
    2:{ rewrite (drain_run _ w0 c Hc Hfd). cbn [drain_loop].
        erewrite bind_run by (apply deref_run; exact Hc).
        erewrite bind_run by (apply sock_read_eof; [exact Hfd|exact Hrd]).
        cbv beta iota. apply drain_eof_run; [exact Hc|exact Hfd]. }
    fold w1. cbn [close_drain].
    erewrite bind_run by (apply deref_run; reflexivity). reflexivity. }
  unfold orch_ipc_close, ipc_close_body.
  erewrite bind_run by (apply deref_run; exact Hc).
  rewrite Efd. cbn [negb].
  erewrite bind_run.
  2:{ erewrite bind_run by reflexivity. fold w0.
      rewrite (bind_run _ _ _ _ _ Hcd).
      erewrite bind_run by (apply deref_run; reflexivity). reflexivity. }
  cbn [orch_ipc_pop].
  erewrite bind_run.
  2:{ erewrite bind_run by (apply deref_run; reflexivity). cbn [queue set_sockfd].
      rewrite Hq. reflexivity. }
  erewrite bind_run by (apply deref_run; reflexivity). cbn [queue set_sockfd]. rewrite Hq.
  reflexivity.
Qed.

(** The close of a channel that has ended, with nothing queued. *)
Lemma close_after_eof fuel w c :
  w_chan w = Some c -> sockfd c = -1 -> queue c = [] ->
  orch_ipc_close (S fuel) ChanPtr w = Ok 0 (with_chan None (log EvFreeIpc w)).
Proof.
  intros Hc Hfd Hq. unfold orch_ipc_close, ipc_close_body.
  erewrite bind_run by (apply deref_run; exact Hc).
  rewrite Hfd. cbn [Z.eqb negb].
  erewrite bind_run by reflexivity.
  cbn [orch_ipc_pop].
  erewrite bind_run by (erewrite bind_run by (apply deref_run; exact Hc); rewrite Hq; reflexivity).
  erewrite bind_run by (apply deref_run; exact Hc). rewrite Hq. reflexivity.
Qed.

(** ** Release *)

(** X21.  [release] writes one RELEASE message and then closes the
    channel: it shuts the socket down, reads up to the end of the channel,
    frees the channel object and stores NULL for it in the handle; the
    handle is then marked released, and its child and pty are left alone.
    When the channel has ended before, nothing is written: the release
    fails with EBADF, the channel object is freed all the same, and the
    handle is not marked released. *)
Theorem release_sends_and_closes :
  (forall fuel w c,
     w_chan w = Some c -> 0 <= sockfd c -> queue c = [] ->
     p_ipc (w_proc w) = ChanPtr ->
     s_rd (w_sock w) = [RdErr EAGAIN; RdData []] ->
     s_sel (w_sock w) = [] -> s_wr (w_sock w) = [] ->
     exists w1,
       orchlua_process_release (S (S (S fuel))) w = Ok Ltrue w1 /\
       w_proc w1 = set_released true (set_ipc NULL (w_proc w)) /\
       w_chan w1 = None /\
       s_out (w_sock w1) = s_out (w_sock w) ++ wire (nodata IPC_RELEASE) /\
       w_trace w1 =
         w_trace w ++ [EvShutdown (sockfd c); EvReadEof (sockfd c); EvClose (sockfd c);
                       EvFreeIpc]) /\
  (forall fuel w c,
     w_chan w = Some c -> sockfd c = -1 -> queue c = [] ->
     p_ipc (w_proc w) = ChanPtr ->
     exists w1,
       orchlua_process_release (S fuel) w = Ok (Lfail (Strerror EBADF)) w1 /\
       w_proc w1 = set_ipc NULL (w_proc w) /\
       w_chan w1 = None /\
       s_out (w_sock w1) = s_out (w_sock w) /\
       w_trace w1 = w_trace w ++ [EvFreeIpc]).
Proof.
  split.
  - intros fuel w c Hc Hfd Hq Hipc Hrd Hsel Hwr.
    set (wd := with_errno EAGAIN (with_sock (set_rd [RdData []] (w_sock w)) w)).
    set (ws := with_sock (set_wr [] (s_out (w_sock wd) ++ wire (nodata IPC_RELEASE))
                            (w_sock wd)) wd).
    assert (orch_ipc_drain (S (S fuel)) ChanPtr w = Ok 0 wd) as Hd
      by (apply (drain_again _ w c); [exact Hc|exact Hfd|exact Hrd]).
    assert (orch_release (S (S (S fuel))) ChanPtr w = Ok 0 ws) as Hs
      by (apply (send_whole fuel w wd c); [exact Hd|exact Hc|exact Hfd|exact Hwr]).
    eexists. split.
    + unfold orchlua_process_release.
      rewrite (bind_run self _ w (w_proc w) w eq_refl), Hipc.
      rewrite (bind_run _ _ _ _ _ Hs).
      erewrite bind_run.
      2:{ apply (close_reads_eof (S fuel) ws c []); [exact Hc|exact Hfd|exact Hq|exact Hsel|reflexivity]. }
      erewrite bind_run by reflexivity. cbn [Z.eqb negb].
      erewrite bind_run by reflexivity. reflexivity.
    + split; [reflexivity|]. split; [reflexivity|]. split; [reflexivity|].
      cbn. repeat rewrite <- app_assoc. reflexivity.
  - intros fuel w c Hc Hfd Hq Hipc.
    assert (orch_release (S fuel) ChanPtr w = Ok (-1) (with_errno EBADF w)) as Hs.
    { unfold orch_release, orch_ipc_send_nodata. cbn [orch_ipc_send].
      rewrite (bind_run _ _ _ _ _ (drain_closed fuel w c Hc Hfd)). cbn [Z.eqb negb].
      rewrite (bind_run _ _ _ _ _ (deref_run _ _ Hc)).
      unfold bind, sock_write. rewrite Hfd. reflexivity. }
    eexists. split.
    + unfold orchlua_process_release.
      rewrite (bind_run self _ w (w_proc w) w eq_refl), Hipc.
      rewrite (bind_run _ _ _ _ _ Hs).
      erewrite bind_run.
      2:{ apply (close_after_eof fuel (with_errno EBADF w) c); [exact Hc|exact Hfd|exact Hq]. }
      erewrite bind_run by reflexivity. change (negb (-1 =? 0)) with true. cbv iota.
      erewrite bind_run by reflexivity. reflexivity.
    + split; [reflexivity|]. split; [reflexivity|]. split; reflexivity.
Qed.

Lemma release_sends_and_closes_witness :
  exists w1,
    orchlua_process_release 3 spawned = Ok Ltrue w1 /\
    p_released (w_proc w1) = true /\ p_ipc (w_proc w1) = NULL /\
    s_out (w_sock w1) = wire (nodata IPC_RELEASE).
Proof.
  destruct release_sends_and_closes as [H _].
  destruct (H 0%nat spawned
              {| callbacks := [None; Some fn_orchlua_child_error; None; None; None];
                 queue := []; sockfd := 3 |})
    as (w1 & Hrun & Hp & _ & Hout & _).
  - reflexivity.
  - cbn [sockfd]. lia.
  - reflexivity.
  - reflexivity.
  - reflexivity.
  - reflexivity.
  - reflexivity.
  - exists w1. split; [exact Hrun|]. rewrite Hp. split; [reflexivity|]. split; [reflexivity|].
    exact Hout.
Defined.

(** ** A child that cannot set itself up *)

(** X22.  When [setsid] fails in the child, the child sends the parent
    one IPC_ERROR message with the text "setsid" and its terminating NUL,
    closes the channel and exits with status 1: it does not touch the
    pty, registers no handler, sends no RELEASE and executes nothing. *)
Theorem child_reports_setsid_failure fuel w cmdsock newpt argv h rest :
  0 <= snd cmdsock ->
  o_alloc (w_os w) = [] -> o_sys (w_os w) = false :: rest ->
  s_rd (w_sock w) = [RdErr EAGAIN; RdData []] ->
  s_sel (w_sock w) = [] -> s_wr (w_sock w) = [] ->
  exists w1,
    orch_spawn (S (S (S fuel))) cmdsock newpt 0 argv h w = Exited 1 w1 /\
    s_out (w_sock w1) =
      s_out (w_sock w) ++
      wire {| msg_tag := IPC_ERROR;
              msg_data := list_byte_of_string "setsid" ++ [Byte.x00] |} /\
    w_chan w1 = None /\ o_sys (w_os w1) = rest /\
    w_trace w1 =
      w_trace w ++
      [EvClose (fst cmdsock);
       EvFreeMsg {| msg_tag := IPC_ERROR;
                    msg_data := list_byte_of_string "setsid" ++ [Byte.x00] |};
       EvShutdown (snd cmdsock); EvReadEof (snd cmdsock); EvClose (snd cmdsock);
       EvFreeIpc].
Proof.
  intros Hfd Halloc Hsys Hrd Hsel Hwr.
  set (m := {| msg_tag := IPC_ERROR;
               msg_data := list_byte_of_string "setsid" ++ [Byte.x00] |}).
  set (c := {| callbacks := replicate 5 None; queue := []; sockfd := snd cmdsock |}).
  set (w0 := with_chan (Some c)
               (log (EvClose (fst cmdsock))
                  (with_proc (set_termctl newpt (w_proc w)) w))).
  set (wy := with_os (set_sys rest (w_os w0)) w0).
  set (wd := with_errno EAGAIN (with_sock (set_rd [RdData []] (w_sock wy)) wy)).
  set (ws := with_sock (set_wr [] (s_out (w_sock wd) ++ wire m) (w_sock wd)) wd).
  assert (orch_ipc_drain (S (S fuel)) ChanPtr wy = Ok 0 wd) as Hd
    by (apply (drain_again _ wy c); [reflexivity|exact Hfd|exact Hrd]).
  assert (orch_ipc_send (S (S (S fuel))) ChanPtr m wy = Ok 0 ws) as Hs
    by (apply (send_whole fuel wy wd c); [exact Hd|reflexivity|exact Hfd|exact Hwr]).
  eexists. split.
  - unfold orch_spawn. change (0 =? -1) with false. change (0 =? 0) with true. cbv iota.
    erewrite bind_run by reflexivity.
    erewrite bind_run by reflexivity.
    erewrite bind_run.
    2:{ unfold orch_ipc_open. erewrite bind_run by (apply malloc_run; exact Halloc).
        cbv iota. erewrite bind_run by reflexivity. reflexivity. }
    cbv iota. fold c. fold w0.
    apply bind_exited. unfold orch_newsess.
    erewrite bind_run by (unfold sys_call; cbn [w0 w_os log with_chan with_proc];
                          rewrite Hsys; reflexivity).
    cbv iota. fold wy. unfold orch_child_error.
    erewrite bind_run by (apply malloc_run; exact Halloc). cbv iota.
    erewrite bind_run.
    2:{ erewrite bind_run by (apply msg_alloc_run; [discriminate|exact Halloc]).
        cbv iota. unfold fill. cbn [msg_tag]. fold m.
        rewrite (bind_run _ _ _ _ _ Hs). reflexivity. }
    erewrite bind_run.
    2:{ apply (close_reads_eof (S fuel) _ c []); [reflexivity|exact Hfd|reflexivity|exact Hsel|reflexivity]. }
    reflexivity.
  - split; [reflexivity|]. split; [reflexivity|]. split; [reflexivity|].
    cbn. repeat rewrite <- app_assoc. reflexivity.
Qed.

Lemma child_reports_setsid_failure_witness :
  exists w1,
    orch_spawn 3 (3, 4) 5 0 ["cat"%string] fn_orchlua_child_error
      (with_os (set_sys [false] quiet_os) (boot [RdErr EAGAIN; RdData []])) = Exited 1 w1 /\
    s_out (w_sock w1) =
      wire {| msg_tag := IPC_ERROR;
              msg_data := list_byte_of_string "setsid" ++ [Byte.x00] |}.
Proof.
  destruct (child_reports_setsid_failure 0
              (with_os (set_sys [false] quiet_os) (boot [RdErr EAGAIN; RdData []]))
              (3, 4) 5 ["cat"%string] fn_orchlua_child_error [])
    as (w1 & Hrun & Hout & _).
  - cbn [snd]. lia.
  - reflexivity.
  - reflexivity.
  - reflexivity.
  - reflexivity.
  - reflexivity.
  - exists w1. split; [exact Hrun|exact Hout].
Defined.

(** ** Copying strings *)

Lemma nul_x00 : nul Byte.x00 = true.
Proof. reflexivity. Qed.

Lemma nul_other c : c <> Byte.x00 -> nul c = false.
Proof.
  intros H. unfold nul. destruct (Byte.eqb c Byte.x00) eqn:E; [|reflexivity].
  apply Byte.byte_dec_bl in E. contradiction.
Qed.

Lemma strlcpy_rest_spec str junk : forall s,
  Forall (fun c => c <> Byte.x00) str ->
  strlcpy_rest (str ++ Byte.x00 :: junk) s = Some (s + length str + 1)%nat.
Proof.
  induction str as [|c str IH]; intros s Hstr.
  - simpl. f_equal. lia.
  - apply Forall_cons in Hstr as [Hc Hstr]. simpl. rewrite (nul_other c Hc).
    rewrite (IH (S s) Hstr). f_equal. simpl. lia.
Qed.

(** The copy loop when the string ends before the count does, and when
    the count ends first. *)
Lemma strlcpy_loop_spec str junk n : forall dst s,
  Forall (fun c => c <> Byte.x00) str ->
  (s <= length str)%nat -> (s + n < length dst)%nat ->
  strlcpy_loop n dst (str ++ Byte.x00 :: junk) s s =
    if (length str - s <? n)%nat
    then Some (take s dst ++ drop s str ++ Byte.x00 :: drop (S (length str)) dst,
               S (length str), S (length str), (n - (length str - s))%nat)
    else Some (take s dst ++ take n (drop s str) ++ drop (s + n) dst,
               (s + n)%nat, (s + n)%nat, O).
Proof.
  induction n as [|n IH]; intros dst s Hstr Hs Hlen.
  - cbn [strlcpy_loop]. replace (length str - s <? 0)%nat with false
      by (symmetry; apply Nat.ltb_ge; lia).
    rewrite take_0, Nat.add_0_r. cbn [app]. rewrite take_drop. reflexivity.
  - cbn [strlcpy_loop].
    replace (s <? length dst)%nat with true by (symmetry; apply Nat.ltb_lt; lia).
    destruct (Nat.eq_dec s (length str)) as [E|E].
    + assert ((str ++ Byte.x00 :: junk) !! s = Some Byte.x00) as ->.
      { rewrite E. rewrite lookup_app_r by lia. rewrite Nat.sub_diag. reflexivity. }
      rewrite nul_x00.
      replace (length str - s <? S n)%nat with true by (symmetry; apply Nat.ltb_lt; lia).
      rewrite E, drop_all, Nat.sub_diag, Nat.sub_0_r. cbn [app].
      f_equal. f_equal. f_equal. f_equal.
      rewrite insert_take_drop by lia. reflexivity.
    + assert (exists c, str !! s = Some c /\ c <> Byte.x00) as (c & Hc & Hne).
      { destruct (lookup_lt_is_Some_2 str s ltac:(lia)) as [c Hc]. exists c. split; [exact Hc|].
        rewrite Forall_forall in Hstr. apply Hstr. apply (list_elem_of_lookup_2 _ _ _ Hc). }
      rewrite lookup_app_l by lia. rewrite Hc, (nul_other c Hne).
      rewrite IH; [|exact Hstr|lia|rewrite length_insert; lia].
      assert (take (S s) (<[s := c]> dst) = take s dst ++ [c]) as Et.
      { rewrite (take_S_r _ _ c) by (apply list_lookup_insert_eq; lia).
        rewrite take_insert_ge by lia. reflexivity. }
      assert (forall k, (s < k)%nat -> drop k (<[s := c]> dst) = drop k dst) as Ed
        by (intros k Hk; apply drop_insert_lt; lia).
      assert (drop s str = c :: drop (S s) str) as Es
        by (apply drop_S; exact Hc).
      destruct (Nat.ltb_spec (length str - S s) n) as [L|L].
      * replace (length str - s <? S n)%nat with true by (symmetry; apply Nat.ltb_lt; lia).
        rewrite Et, Ed, Es by lia. rewrite <- app_assoc. cbn [app].
        f_equal. f_equal. lia.
      * replace (length str - s <? S n)%nat with false by (symmetry; apply Nat.ltb_ge; lia).
        rewrite Et, Ed, Es by lia. rewrite <- app_assoc. cbn [app take].
        replace (S s + n)%nat with (s + S n)%nat by lia. reflexivity.
Qed.

Lemma insert_at_join (a l : list byte) (d : nat) (x : byte) :
  length a = d -> (d < length l)%nat ->
  <[d := x]> (a ++ drop d l) = a ++ x :: drop (S d) l.
Proof.
  intros Ha Hd. rewrite insert_app_r_alt by lia.
  rewrite Ha, Nat.sub_diag. f_equal.
  destruct (drop d l) as [|y t] eqn:E.
  - apply (f_equal length) in E. rewrite length_drop in E. simpl in E. lia.
  - cbn [insert list_insert]. f_equal.
    replace (S d) with (d + 1)%nat by lia.
    rewrite <- (drop_drop l 1 d), E. reflexivity.
Qed.

(** X23.  [strlcpy] on a destination of at least [dsize] bytes and a
    NUL-terminated source returns the length of the source string; with
    [dsize] zero it writes nothing, otherwise it writes the first
    [dsize - 1] characters of the string (all of it if it is shorter), one
    NUL after them, and no other byte of the destination. *)
Theorem strlcpy_truncates_and_terminates (dst str junk : list byte) (dsize : nat) :
  Forall (fun c => c <> Byte.x00) str ->
  (dsize <= length dst)%nat ->
  strlcpy dst (str ++ Byte.x00 :: junk) dsize =
    Some (match dsize with
          | O => dst
          | S k => take k str ++ Byte.x00 :: drop (S (k `min` length str)) dst
          end, length str).
Proof.
  intros Hstr Hd. unfold strlcpy. destruct dsize as [|k].
  - rewrite drop_0, (strlcpy_rest_spec str junk 0 Hstr).
    do 2 f_equal. lia.
  - rewrite (strlcpy_loop_spec str junk k dst 0 Hstr) by lia.
    rewrite Nat.sub_0_r, take_0, !drop_0. cbn [app].
    destruct (Nat.ltb_spec (length str) k) as [L|L].
    + destruct (k - length str)%nat eqn:E; [lia|].
      rewrite take_ge by lia. rewrite Nat.min_r by lia.
      do 2 f_equal. lia.
    + replace (0 + k)%nat with k by lia.
      assert (length (take k str) = k) as Lt by (rewrite length_take; lia).
      replace (k <? length (take k str ++ drop k dst))%nat with true
        by (symmetry; apply Nat.ltb_lt; rewrite length_app, length_drop; lia).
      rewrite drop_app_le by lia.
      rewrite (strlcpy_rest_spec (drop k str) junk k)
        by (apply Forall_drop; exact Hstr).
      rewrite length_drop, Nat.min_l by lia.
      rewrite insert_at_join by lia.
      do 2 f_equal. lia.
Qed.

Lemma strlcpy_truncates_and_terminates_witness :
  strlcpy (replicate 4 Byte.xff)
          ([Byte.x61; Byte.x62; Byte.x63; Byte.x64; Byte.x65] ++ Byte.x00 :: []) 3 =
    Some ([Byte.x61; Byte.x62; Byte.x00; Byte.xff], 5%nat).
Proof.
  apply (strlcpy_truncates_and_terminates (replicate 4 Byte.xff)
           [Byte.x61; Byte.x62; Byte.x63; Byte.x64; Byte.x65] [] 3).
  - repeat constructor; discriminate.
  - simpl. lia.
Defined.

Lemma strlen_spec str junk :
  Forall (fun c => c <> Byte.x00) str ->
  strlen (str ++ Byte.x00 :: junk) = Some (length str).
Proof.
  induction str as [|c str IH]; intros Hstr.
  - reflexivity.
  - apply Forall_cons in Hstr as [Hc Hstr]. simpl. rewrite (nul_other c Hc).
    rewrite (IH Hstr). reflexivity.
Qed.

Lemma strlcat_find_spec dstr rest n : forall d,
  Forall (fun c => c <> Byte.x00) dstr ->
  (d <= length dstr)%nat ->
  strlcat_find n (dstr ++ Byte.x00 :: rest) d = Some ((d + n) `min` length dstr)%nat.
Proof.
  induction n as [|n IH]; intros d Hstr Hd.
  - cbn [strlcat_find]. f_equal. lia.
  - cbn [strlcat_find]. destruct (Nat.eq_dec d (length dstr)) as [E|E].
    + rewrite E, lookup_app_r by lia. rewrite Nat.sub_diag. cbn [lookup list_lookup].
      rewrite nul_x00. f_equal. lia.
    + destruct (lookup_lt_is_Some_2 dstr d ltac:(lia)) as [c Hc].
      assert (c <> Byte.x00) as Hne.
      { rewrite Forall_forall in Hstr. apply Hstr. apply (list_elem_of_lookup_2 _ _ _ Hc). }
      rewrite lookup_app_l by lia. rewrite Hc, (nul_other c Hne).
      rewrite IH by (try exact Hstr; lia). f_equal. lia.
Qed.

Lemma strlcat_loop_spec junk sstr : forall dst d n s,
  Forall (fun c => c <> Byte.x00) sstr ->
  (d + n `min` length sstr <= length dst)%nat ->
  strlcat_loop (sstr ++ Byte.x00 :: junk) dst d n s =
    Some (take d dst ++ take n sstr ++ drop (d + n `min` length sstr) dst,
          (d + n `min` length sstr)%nat, (s + length sstr)%nat).
Proof.
  induction sstr as [|c sstr IH]; intros dst d n s Hstr Hd.
  - cbn [app strlcat_loop]. rewrite nul_x00, take_nil. cbn [length app].
    rewrite Nat.min_0_r, !Nat.add_0_r, take_drop. reflexivity.
  - apply Forall_cons in Hstr as [Hc Hstr].
    cbn [app strlcat_loop length] in *. rewrite (nul_other c Hc).
    destruct n as [|n].
    + rewrite (IH dst d 0%nat (S s) Hstr) by (simpl; lia).
      cbn [Nat.min]. rewrite !Nat.add_0_r, !take_0. cbn [app]. rewrite take_drop.
      do 2 f_equal. lia.
    + replace (d <? length dst)%nat with true by (symmetry; apply Nat.ltb_lt; lia).
      rewrite (IH (<[d := c]> dst) (S d) n (S s) Hstr) by (rewrite length_insert; lia).
      rewrite (take_S_r _ _ c) by (apply list_lookup_insert_eq; lia).
      rewrite take_insert_ge by lia.
      rewrite drop_insert_lt by lia.
      rewrite <- app_assoc. cbn [app take].
      replace (S d + n `min` length sstr)%nat
        with (d + S n `min` S (length sstr))%nat by lia.
      do 2 f_equal. lia.
Qed.

(** X24.  [strlcat] on a destination that holds a string shorter than
    [dsize] appends the first [dsize - strlen(dst) - 1] characters of the
    source string (all of it if it is shorter) and one NUL, changes no
    other byte, and returns the sum of the two lengths. *)
Theorem strlcat_appends_and_terminates (dstr rest sstr junk : list byte) (dsize : nat) :
  Forall (fun c => c <> Byte.x00) dstr ->
  Forall (fun c => c <> Byte.x00) sstr ->
  (length dstr < dsize)%nat ->
  (dsize <= length (dstr ++ Byte.x00 :: rest))%nat ->
  strlcat (dstr ++ Byte.x00 :: rest) (sstr ++ Byte.x00 :: junk) dsize =
    Some (dstr ++ take (dsize - length dstr - 1) sstr ++
            Byte.x00 :: drop (S (length dstr + (dsize - length dstr - 1) `min` length sstr))
                             (dstr ++ Byte.x00 :: rest),
          (length dstr + length sstr)%nat).
Proof.
  intros Hd Hs Hlt Hle. unfold strlcat.
  rewrite (strlcat_find_spec dstr rest dsize 0 Hd) by lia.
  replace ((0 + dsize) `min` length dstr)%nat with (length dstr) by lia.
  destruct (dsize - length dstr)%nat as [|n] eqn:En; [lia|].
  replace (S n - 1)%nat with n by lia.
  set (dst := dstr ++ Byte.x00 :: rest) in *.
  rewrite (strlcat_loop_spec junk sstr dst (length dstr) n 0 Hs) by lia.
  set (m := (n `min` length sstr)%nat).
  assert (take (length dstr) dst = dstr) as Ht
    by (unfold dst; rewrite take_app_length; reflexivity).
  rewrite Ht.
  replace (length dstr + m <? length (dstr ++ take n sstr ++ drop (length dstr + m) dst))%nat
    with true
    by (symmetry; apply Nat.ltb_lt;
        rewrite !length_app, length_take, length_drop; unfold m; lia).
  rewrite app_assoc.
  rewrite insert_at_join
    by (try (rewrite length_app, length_take; unfold m); lia).
  rewrite <- app_assoc. reflexivity.
Qed.

Lemma strlcat_appends_and_terminates_witness :
  strlcat ([Byte.x61; Byte.x62] ++ Byte.x00 :: replicate 3 Byte.xff)
          ([Byte.x63; Byte.x64; Byte.x65] ++ Byte.x00 :: []) 5 =
    Some ([Byte.x61; Byte.x62; Byte.x63; Byte.x64; Byte.x00; Byte.xff], 5%nat).
Proof.
  apply (strlcat_appends_and_terminates [Byte.x61; Byte.x62] (replicate 3 Byte.xff)
           [Byte.x63; Byte.x64; Byte.x65] [] 5).
  - repeat constructor; discriminate.
  - repeat constructor; discriminate.
  - simpl. lia.
  - simpl. lia.
Defined.

(** X25.  [strlcat] on a destination with no NUL among its first [dsize]
    bytes writes nothing and returns [dsize] plus the length of the source
    string. *)
Theorem strlcat_full_destination_untouched (dstr rest sstr junk : list byte) (dsize : nat) :
  Forall (fun c => c <> Byte.x00) dstr ->
  Forall (fun c => c <> Byte.x00) sstr ->
  (dsize <= length dstr)%nat ->
  strlcat (dstr ++ Byte.x00 :: rest) (sstr ++ Byte.x00 :: junk) dsize =
    Some (dstr ++ Byte.x00 :: rest, (dsize + length sstr)%nat).
Proof.
  intros Hd Hs Hle. unfold strlcat.
  rewrite (strlcat_find_spec dstr rest dsize 0 Hd) by lia.
  replace ((0 + dsize) `min` length dstr)%nat with dsize by lia.
  rewrite Nat.sub_diag, (strlen_spec sstr junk Hs). reflexivity.
Qed.

Lemma strlcat_full_destination_untouched_witness :
  strlcat ([Byte.x61; Byte.x62; Byte.x63] ++ Byte.x00 :: [])
          ([Byte.x64] ++ Byte.x00 :: []) 2 =
    Some ([Byte.x61; Byte.x62; Byte.x63; Byte.x00], 3%nat).
Proof.
  apply (strlcat_full_destination_untouched [Byte.x61; Byte.x62; Byte.x63] []
           [Byte.x64] [] 2).
  - repeat constructor; discriminate.
  - repeat constructor; discriminate.
  - simpl. lia.
Defined.

(** ** Writing to the process *)

(** X26.  With fuel for one step more than the write results to come,
    [write] returns.  When it returns a number, that is the length of the
    buffer and the pty has been given exactly the buffer; when it fails,
    the error is not EINTR and the pty has been given a proper prefix of
    the buffer. *)
Theorem write_is_whole_or_fails (fuel : nat) (cur : orch_process)
    (buf : list byte) (p : pty_out) :
  (length (pw_wr p) + 2 <= fuel)%nat ->
  exists r p',
    orchlua_process_write fuel cur buf p = Some (r, p') /\
    match r with
    | Wnumber n => n = length buf /\ pw_out p' = pw_out p ++ buf
    | Wfail m =>
        exists e k, m = Strerror e /\ e <> EINTR /\ (k < length buf)%nat /\
                    pw_out p' = pw_out p ++ take k buf
    end.
Proof.
  intros Hfuel. unfold orchlua_process_write.
  generalize (p_termctl cur) as fd. intros fd.
  assert (forall out0 fuel totalsz p,
            (length (pw_wr p) + 2 <= fuel)%nat ->
            (totalsz <= length buf)%nat ->
            pw_out p = out0 ++ take totalsz buf ->
            exists r p',
              process_write_loop fuel fd buf totalsz p = Some (r, p') /\
              match r with
              | Wnumber n => n = length buf /\ pw_out p' = out0 ++ buf
              | Wfail m =>
                  exists e k, m = Strerror e /\ e <> EINTR /\ (k < length buf)%nat /\
                              pw_out p' = out0 ++ take k buf
              end) as Hloop.
  { clear fuel p Hfuel. intros out0.
    induction fuel as [|fuel IH]; intros totalsz p Hfuel Htot Hout; [lia|].
    cbn [process_write_loop].
    destruct (Nat.ltb_spec totalsz (length buf)) as [L|L].
    - unfold pty_write. destruct (fd <? 0).
      + eexists _, p. split; [reflexivity|].
        exists EBADF, totalsz. repeat split; [discriminate|exact L|exact Hout].
      + destruct (pw_wr p) as [|[e|k] rest] eqn:Ewr.
        * rewrite length_drop.
          destruct fuel as [|fuel]; [simpl in Hfuel; lia|].
          cbn [process_write_loop].
          replace (totalsz + (length buf - totalsz) <? length buf)%nat with false
            by (symmetry; apply Nat.ltb_ge; lia).
          eexists _, _. split; [reflexivity|]. cbn [pw_out]. split; [lia|].
          rewrite Hout, <- app_assoc, take_drop. reflexivity.
        * assert (forall p1, pw_wr p1 = rest -> pw_out p1 = pw_out p ->
                    exists r p',
                      process_write_loop fuel fd buf totalsz p1 = Some (r, p') /\
                      match r with
                      | Wnumber n => n = length buf /\ pw_out p' = out0 ++ buf
                      | Wfail m =>
                          exists e k, m = Strerror e /\ e <> EINTR /\
                                      (k < length buf)%nat /\
                                      pw_out p' = out0 ++ take k buf
                      end) as Hretry.
          { intros p1 H1 H2. apply IH; [rewrite H1; simpl in Hfuel; lia|exact Htot|].
            rewrite H2. exact Hout. }
          destruct e;
            try (eexists _, _; split; [reflexivity|]; eexists _, totalsz;
                 repeat split; [discriminate|exact L|exact Hout]).
          apply Hretry; reflexivity.
        * apply IH.
          -- cbn [pw_wr]. simpl in Hfuel. lia.
          -- rewrite length_take, length_drop. lia.
          -- cbn [pw_out]. rewrite Hout, <- app_assoc, take_take_drop.
             f_equal. rewrite length_take, length_drop.
             destruct (Nat.le_gt_cases k (length buf - totalsz)) as [Hk|Hk].
             ++ rewrite Nat.min_l by lia. reflexivity.
             ++ rewrite Nat.min_r by lia. rewrite !take_ge by lia. reflexivity.
    - eexists _, p. split; [reflexivity|]. split; [lia|].
      rewrite Hout, take_ge by lia. reflexivity. }
  apply Hloop; [exact Hfuel|lia|].
  rewrite take_0, app_nil_r. reflexivity.
Qed.

Lemma write_is_whole_or_fails_witness :
  exists r p',
    orchlua_process_write 4 (set_termctl 5 fresh_process)
      [Byte.x61; Byte.x62; Byte.x63]
      {| pw_wr := [WrErr EINTR; WrSome 2]; pw_out := [] |} = Some (r, p') /\
    match r with
    | Wnumber n => n = 3%nat /\ pw_out p' = [] ++ [Byte.x61; Byte.x62; Byte.x63]
    | Wfail m =>
        exists e k, m = Strerror e /\ e <> EINTR /\ (k < 3)%nat /\
                    pw_out p' = [] ++ take k [Byte.x61; Byte.x62; Byte.x63]
    end.
Proof.
  apply (write_is_whole_or_fails 4 (set_termctl 5 fresh_process)
           [Byte.x61; Byte.x62; Byte.x63]
           {| pw_wr := [WrErr EINTR; WrSome 2]; pw_out := [] |}).
  simpl. lia.
Defined.

(** ** Spawning *)

Section SpawnProperties.

Variable lua_number2str : Z -> string.

Lemma spawn_argv_world argv args : forall i w r w',
  spawn_argv lua_number2str argv i args w = Ok r w' -> w' = w.
Proof.
  induction args as [|v rest IH]; intros i w r w' H; cbn [spawn_argv] in H.
  - injection H as _ <-. reflexivity.
  - destruct argv; [|discriminate].
    destruct (lua_tostring lua_number2str v) as [s|].
    + apply bind_ok in H as (r1 & w1 & H1 & H). injection H as _ <-.
      exact (IH _ _ _ _ H1).
    + injection H as _ <-. reflexivity.
Qed.

Lemma spawn_argv_bad pre v post : forall i w,
  Forall (fun a => is_Some (lua_tostring lua_number2str a)) pre ->
  lua_tostring lua_number2str v = None ->
  spawn_argv lua_number2str true i (pre ++ v :: post) w =
    Ok (inl (i + Z.of_nat (length pre) + 1)) w.
Proof.
  induction pre as [|a pre IH]; intros i w Hpre Hv.
  - cbn [app spawn_argv length]. rewrite Hv. unfold ret. do 2 f_equal. lia.
  - apply Forall_cons in Hpre as [[s Hs] Hpre].
    cbn [app spawn_argv]. rewrite Hs.
    rewrite (bind_run _ _ _ _ _ (IH (i + 1) w Hpre Hv)).
    unfold ret. do 2 f_equal. cbn [length]. lia.
Qed.

(** X27.  [spawn] with an argument that is neither a string nor a number
    fails with the index, counted from one, of the first such argument.
    It has done nothing but allocate the argument vector: the process
    handle, the channel and the trace are as they were. *)
Theorem spawn_names_first_bad_argument fuel cmdsock newpt pid pre v post w w1 :
  Forall (fun a => is_Some (lua_tostring lua_number2str a)) pre ->
  lua_tostring lua_number2str v = None ->
  malloc w = Ok true w1 ->
  orchlua_spawn lua_number2str fuel cmdsock newpt pid (pre ++ v :: post) w =
    Ok (SpawnFail (MsgD "Argument at index %d not a string"
                        (Z.of_nat (length pre) + 1))) w1 /\
  w_proc w1 = w_proc w /\ w_chan w1 = w_chan w /\ w_trace w1 = w_trace w.
Proof.
  intros Hpre Hv Hm. split.
  - unfold orchlua_spawn.
    destruct (pre ++ v :: post) as [|a l] eqn:E;
      [destruct pre; discriminate|]. rewrite <- E.
    rewrite (bind_run _ _ _ _ _ Hm).
    rewrite (bind_run _ _ _ _ _ (spawn_argv_bad pre v post 0 w1 Hpre Hv)).
    reflexivity.
  - unfold malloc in Hm.
    destruct (o_alloc (w_os w)) as [|[|] rest]; try discriminate;
      injection Hm as <-; repeat split; reflexivity.
Qed.

End SpawnProperties.

Lemma spawn_names_first_bad_argument_witness :
  orchlua_spawn (fun _ => "7"%string) 20 (3, 4) 5 100
      ([LStr "cat"; LNum 7] ++ LBool true :: [LStr "-"]) (boot []) =
    Ok (SpawnFail (MsgD "Argument at index %d not a string" 3)) (boot []) /\
  w_proc (boot []) = w_proc (boot []) /\ w_chan (boot []) = w_chan (boot []) /\
  w_trace (boot []) = w_trace (boot []).
Proof.
  apply (spawn_names_first_bad_argument (fun _ => "7"%string) 20 (3, 4) 5 100
           [LStr "cat"; LNum 7] (LBool true) [LStr "-"] (boot []) (boot [])).
  - repeat constructor; eexists; reflexivity.
  - reflexivity.
  - reflexivity.
Defined.

(** ** The sandbox *)

Lemma add_execpath_cfg sys path st :
  Sandbox.cfg (snd (Sandbox.orchlua_add_execpath sys path st)) = Sandbox.cfg st.
Proof.
  unfold Sandbox.orchlua_add_execpath.
  destruct (Sandbox.env_path st), (Sandbox.asprintf_ok sys), (Sandbox.setenv_ok sys);
    reflexivity.
Qed.

Lemma open_script_cfg sys filename script st r st' :
  Sandbox.open_script sys filename script st = Sandbox.Returns r st' ->
  Sandbox.cfg st' = Sandbox.cfg st.
Proof.
  unfold Sandbox.open_script. intros H.
  destruct (Sandbox.dirfd (Sandbox.cfg st) =? -1).
  - destruct script; [|discriminate].
    destruct (Sandbox.dup_stdin sys =? -1) eqn:E; cbn [fst snd negb] in H.
    + injection H as _ <-. reflexivity.
    + rewrite E in H. cbn [fst snd negb] in H.
      destruct (Sandbox.fdopen_ok sys); injection H as _ <-; reflexivity.
  - change (-1 =? -1) with true in H. cbn [fst snd] in H.
    destruct (Sandbox.openat_fd sys =? -1); cbn [negb] in H;
      [injection H as _ <-; reflexivity|].
    destruct (Sandbox.fdopen_ok sys); injection H as _ <-; reflexivity.
Qed.

(** One call keeps the configuration well formed and fails no
    assertion. *)
Lemma do_call_wf c st :
  Sandbox.sane c -> cfg_wf (Sandbox.cfg st) ->
  match Sandbox.do_call c st with
  | Sandbox.Aborts _ _ => False
  | r => cfg_wf (Sandbox.cfg (Sandbox.state_of r))
  end.
Proof.
  intros Hsane [Hge Hinit]. unfold cfg_wf. destruct c as [sys filename alter_path|].
  - cbn [Sandbox.do_call Sandbox.sane] in *. unfold Sandbox.orchlua_open.
    destruct (Sandbox.initialized (Sandbox.cfg st)) eqn:Ei; cbn [negb].
    + destruct (Sandbox.dirfd (Sandbox.cfg st) =? -1) eqn:Ed.
      * cbn [Sandbox.state_of]. split; [exact Hge|]. rewrite Ei. discriminate.
      * destruct (Sandbox.open_script sys filename Sandbox.ScriptFilename st)
          as [r st'|code st'|what st'] eqn:Eo.
        -- cbn [Sandbox.state_of]. rewrite (open_script_cfg _ _ _ _ _ _ Eo).
           split; [exact Hge|]. rewrite Ei. discriminate.
        -- unfold Sandbox.open_script in Eo. rewrite Ed in Eo.
           change (-1 =? -1) with true in Eo. cbn [fst snd] in Eo.
           destruct (Sandbox.openat_fd sys =? -1); cbn [negb] in Eo;
             [discriminate|]. destruct (Sandbox.fdopen_ok sys); discriminate.
        -- unfold Sandbox.open_script in Eo. rewrite Ed in Eo.
           change (-1 =? -1) with true in Eo. cbn [fst snd] in Eo.
           destruct (Sandbox.openat_fd sys =? -1); cbn [negb] in Eo;
             [discriminate|]. destruct (Sandbox.fdopen_ok sys); discriminate.
    + specialize (Hinit eq_refl). unfold Sandbox.orchlua_open_init.
      rewrite Ei, Hinit. change (negb (-1 =? -1)) with false. cbv iota.
      destruct (String.eqb filename "-").
      * unfold Sandbox.open_script. cbn [Sandbox.cfg Sandbox.set_cfg Sandbox.dirfd].
        change (-1 =? -1) with true. cbv iota.
        destruct (Sandbox.dup_stdin sys =? -1) eqn:E.
        -- cbn. split; [lia|discriminate].
        -- cbn [fst snd]. rewrite E. cbn [negb fst snd].
           destruct (Sandbox.fdopen_ok sys); cbn; (split; [lia|discriminate]).
      * destruct (Sandbox.realpath sys) as [fpath|];
          [|cbn [Sandbox.state_of]; split; [lia|intros _; exact Hinit]].
        destruct (match Sandbox.strrchr_slash fpath with
                  | Some (root, name) => (root, name)
                  | None => ("."%string, fpath)
                  end) as [scriptroot name].
        destruct (Sandbox.strdup_ok sys); cbn [negb];
          [|cbn [Sandbox.state_of]; split; [lia|intros _; exact Hinit]].
        destruct (Sandbox.open_dir sys =? -1) eqn:E.
        -- apply Z.eqb_eq in E. cbn. split; [lia|intros _; exact E].
        -- apply Z.eqb_neq in E.
           match goal with
           | |- context [Sandbox.open_script ?a ?b ?c ?d] =>
               destruct (Sandbox.open_script a b c d) as [r st'|code st'|what st'] eqn:Eo
           end.
           ++ cbn [Sandbox.state_of]. rewrite (open_script_cfg _ _ _ _ _ _ Eo).
              cbn. split; [exact Hsane|discriminate].
           ++ unfold Sandbox.open_script in Eo. cbn in Eo.
              replace (Sandbox.open_dir sys =? -1) with false in Eo
                by (symmetry; apply Z.eqb_neq; exact E).
              destruct (Sandbox.openat_fd sys =? -1); cbn [negb] in Eo;
                [discriminate|]. destruct (Sandbox.fdopen_ok sys); discriminate.
           ++ unfold Sandbox.open_script in Eo. cbn in Eo.
              replace (Sandbox.open_dir sys =? -1) with false in Eo
                by (symmetry; apply Z.eqb_neq; exact E).
              destruct (Sandbox.openat_fd sys =? -1); cbn [negb] in Eo;
                [discriminate|]. destruct (Sandbox.fdopen_ok sys); discriminate.
  - cbn [Sandbox.do_call]. unfold Sandbox.orchlua_reset.
    destruct (Sandbox.initialized (Sandbox.cfg st)) eqn:Ei.
    + destruct (0 <=? Sandbox.dirfd (Sandbox.cfg st)) eqn:E; cbn.
      * split; [lia|reflexivity].
      * apply Z.leb_gt in E. split; [lia|intros _; lia].
    + cbn [Sandbox.state_of]. split; [exact Hge|intros _; exact (Hinit eq_refl)].
Qed.

(** X29.  Whatever the script calls [open] and [reset] with, and whatever
    the system calls return, no assertion of [orchlua_open_init] or
    [orchlua_open] fails, and the configuration stays well formed: its
    descriptor is -1 whenever it is not initialized. *)
Theorem sandbox_assertions_hold (calls : list Sandbox.call) (env : option string) :
  Forall Sandbox.sane calls ->
  match Sandbox.run calls
          {| Sandbox.cfg := Sandbox.cfg0; Sandbox.env_path := env;
             Sandbox.strace := [] |} with
  | Sandbox.Aborts _ _ => False
  | r => cfg_wf (Sandbox.cfg (Sandbox.state_of r))
  end.
Proof.
  intros Hsane.
  assert (cfg_wf (Sandbox.cfg {| Sandbox.cfg := Sandbox.cfg0; Sandbox.env_path := env;
                                 Sandbox.strace := [] |})) as Hwf
    by (split; [cbn; lia|reflexivity]).
  revert Hwf.
  generalize {| Sandbox.cfg := Sandbox.cfg0; Sandbox.env_path := env;
                Sandbox.strace := [] |} as st.
  induction Hsane as [|c calls Hc Hcalls IH]; intros st Hwf.
  - exact Hwf.
  - cbn [Sandbox.run]. pose proof (do_call_wf c st Hc Hwf) as Hstep.
    destruct (Sandbox.do_call c st) as [[] st'|code st'|what st'].
    + apply IH. exact Hstep.
    + exact Hstep.
    + exact Hstep.
Qed.

Lemma sandbox_assertions_hold_witness :
  match Sandbox.run
          [Sandbox.CallOpen
             {| Sandbox.realpath := Some "/tmp/t/script.orch"%string;
                Sandbox.strdup_ok := true; Sandbox.asprintf_ok := true;
                Sandbox.setenv_ok := true; Sandbox.open_dir := 3;
                Sandbox.dup_stdin := 4; Sandbox.openat_fd := 5;
                Sandbox.fdopen_ok := true |} "script.orch" true;
           Sandbox.CallReset]
          {| Sandbox.cfg := Sandbox.cfg0; Sandbox.env_path := Some "/bin"%string;
             Sandbox.strace := [] |} with
  | Sandbox.Aborts _ _ => False
  | r => cfg_wf (Sandbox.cfg (Sandbox.state_of r))
  end.
Proof.
  apply (sandbox_assertions_hold
           [Sandbox.CallOpen
              {| Sandbox.realpath := Some "/tmp/t/script.orch"%string;
                 Sandbox.strdup_ok := true; Sandbox.asprintf_ok := true;
                 Sandbox.setenv_ok := true; Sandbox.open_dir := 3;
                 Sandbox.dup_stdin := 4; Sandbox.openat_fd := 5;
                 Sandbox.fdopen_ok := true |} "script.orch" true;
            Sandbox.CallReset] (Some "/bin"%string)).
  repeat constructor; cbn; lia.
Defined.

Lemma dir_after_app tr tr' : forall cur,
  Sandbox.dir_after cur (tr ++ tr') = Sandbox.dir_after (Sandbox.dir_after cur tr) tr'.
Proof.
  induction tr as [|ev tr IH]; intros cur; [reflexivity|].
  destruct ev; cbn [app Sandbox.dir_after]; apply IH.
Qed.

Lemma confined_app tr tr' : forall cur,
  Sandbox.confined cur tr ->
  Sandbox.confined (Sandbox.dir_after cur tr) tr' ->
  Sandbox.confined cur (tr ++ tr').
Proof.
  induction tr as [|ev tr IH]; intros cur H H'; [exact H'|].
  destruct ev; cbn [app Sandbox.confined Sandbox.dir_after] in *;
    try (apply IH; assumption).
  destruct H as [Hcur H]. split; [exact Hcur|]. apply IH; assumption.
Qed.

Lemma plain_nil : plain [].
Proof. intros cur. split; [reflexivity|exact I]. Qed.

Lemma plain_app tr tr' : plain tr -> plain tr' -> plain (tr ++ tr').
Proof.
  intros H H' cur. destruct (H cur) as [Hd Hc]. destruct (H' cur) as [Hd' Hc'].
  split.
  - rewrite dir_after_app, Hd. exact Hd'.
  - apply confined_app; [exact Hc|]. rewrite Hd. exact Hc'.
Qed.

Lemma add_execpath_trace sys path st :
  exists tr,
    Sandbox.strace (snd (Sandbox.orchlua_add_execpath sys path st)) =
      Sandbox.strace st ++ tr /\ plain tr.
Proof.
  unfold Sandbox.orchlua_add_execpath.
  destruct (Sandbox.env_path st), (Sandbox.asprintf_ok sys), (Sandbox.setenv_ok sys);
    cbn [snd negb Sandbox.log Sandbox.strace Sandbox.set_env_path];
    first [ exists []; split; [symmetry; apply app_nil_r|exact plain_nil]
          | eexists [_]; split; [reflexivity|];
            intros cur; split; [reflexivity|exact I] ].
Qed.

(** What [open] does once it has the name of the script: it opens
    nothing when there is no directory, and otherwise opens the name in
    the directory of the configuration. *)
Lemma open_script_trace sys filename script st :
  exists tr,
    Sandbox.strace (Sandbox.state_of (Sandbox.open_script sys filename script st)) =
      Sandbox.strace st ++ tr /\
    (forall cur, Sandbox.dir_after cur tr = cur) /\
    (forall cur,
       Sandbox.dirfd (Sandbox.cfg st) = -1 \/ cur = Some (Sandbox.dirfd (Sandbox.cfg st)) ->
       Sandbox.confined cur tr).
Proof.
  unfold Sandbox.open_script. cbv beta zeta.
  destruct (Sandbox.dirfd (Sandbox.cfg st) =? -1) eqn:Ed.
  - destruct script.
    + destruct (Sandbox.dup_stdin sys =? -1) eqn:E.
      * eexists [_]. split; [reflexivity|]. split; [reflexivity|]. intros cur _. exact I.
      * cbn [fst snd]. rewrite ?E. cbn [fst snd negb].
        destruct (Sandbox.fdopen_ok sys);
          eexists [_; _]; (split; [cbn; rewrite <- app_assoc; reflexivity|]);
          (split; [reflexivity|]); intros cur _; exact I.
    + exists []. split; [symmetry; apply app_nil_r|]. split; [reflexivity|].
      intros cur _. exact I.
  - apply Z.eqb_neq in Ed. change (-1 =? -1) with true. cbn [fst snd].
    destruct (Sandbox.openat_fd sys =? -1); cbn [negb].
    + eexists [_]. split; [reflexivity|]. split; [reflexivity|].
      intros cur [H|H]; [contradiction|]. split; [exact H|exact I].
    + destruct (Sandbox.fdopen_ok sys);
        eexists [_; _]; (split; [cbn; rewrite <- app_assoc; reflexivity|]);
        (split; [reflexivity|]); intros cur [H|H]; try contradiction;
        (split; [exact H|exact I]).
Qed.

Lemma agrees_open_script sys filename script st :
  agrees st ->
  match Sandbox.open_script sys filename script st with
  | Sandbox.Returns _ st' => agrees st'
  | r => Sandbox.confined None (Sandbox.strace (Sandbox.state_of r))
  end.
Proof.
  intros [Hc Hd].
  destruct (open_script_trace sys filename script st) as (tr & Htr & Hdir & Hconf).
  assert (Sandbox.confined None (Sandbox.strace st ++ tr)) as Hall.
  { apply confined_app; [exact Hc|]. apply Hconf. rewrite Hd.
    destruct (Sandbox.dirfd (Sandbox.cfg st) =? -1) eqn:E;
      [left; apply Z.eqb_eq; exact E|right; reflexivity]. }
  destruct (Sandbox.open_script sys filename script st) as [r st'|code st'|what st'] eqn:Eo;
    cbn [Sandbox.state_of] in *.
  - split.
    + rewrite Htr. exact Hall.
    + rewrite Htr, dir_after_app, Hdir, (open_script_cfg _ _ _ _ _ _ Eo). exact Hd.
  - rewrite Htr. exact Hall.
  - rewrite Htr. exact Hall.
Qed.

(** One call keeps the state in agreement with the system calls, and
    makes only confined ones when it does not return. *)
Lemma do_call_agrees c st :
  Sandbox.sane c -> cfg_wf (Sandbox.cfg st) -> agrees st ->
  match Sandbox.do_call c st with
  | Sandbox.Returns _ st' => agrees st'
  | r => Sandbox.confined None (Sandbox.strace (Sandbox.state_of r))
  end.
Proof.
  intros Hsane [Hge Hinit] Hag. pose proof Hag as [Hc Hd].
  destruct c as [sys filename alter_path|].
  - cbn [Sandbox.do_call Sandbox.sane] in *. unfold Sandbox.orchlua_open.
    destruct (Sandbox.initialized (Sandbox.cfg st)) eqn:Ei; cbn [negb].
    + destruct (Sandbox.dirfd (Sandbox.cfg st) =? -1) eqn:Ed; [exact Hag|].
      pose proof (agrees_open_script sys filename Sandbox.ScriptFilename st Hag) as H.
      destruct (Sandbox.open_script sys filename Sandbox.ScriptFilename st); exact H.
    + specialize (Hinit eq_refl). unfold Sandbox.orchlua_open_init.
      rewrite Ei. replace (Sandbox.dirfd (Sandbox.cfg st) =? -1) with true
        by (symmetry; apply Z.eqb_eq; exact Hinit).
      cbn [negb]. destruct (String.eqb filename "-").
      * match goal with
        | |- context [Sandbox.open_script ?a ?b ?c ?d] =>
            pose proof (agrees_open_script a b c d) as H;
            destruct (Sandbox.open_script a b c d)
        end; apply H; (split; [exact Hc|]);
          cbn [Sandbox.strace Sandbox.set_cfg Sandbox.cfg Sandbox.dirfd];
          rewrite Hd, Hinit; reflexivity.
      * destruct (Sandbox.realpath sys) as [fpath|]; [|exact Hc].
        destruct (match Sandbox.strrchr_slash fpath with
                  | Some (root, name) => (root, name)
                  | None => ("."%string, fpath)
                  end) as [scriptroot name].
        destruct (Sandbox.strdup_ok sys); cbn [negb]; [|exact Hag].
        set (st1 := if alter_path
                    then snd (Sandbox.orchlua_add_execpath sys scriptroot st)
                    else st).
        assert (exists tr, Sandbox.strace st1 = Sandbox.strace st ++ tr /\ plain tr)
          as (tr & Htr & Hplain).
        { unfold st1. destruct alter_path; [apply add_execpath_trace|].
          exists []. split; [symmetry; apply app_nil_r|exact plain_nil]. }
        assert (Sandbox.confined None (Sandbox.strace st1 ++
                  [Sandbox.SysOpen scriptroot (Sandbox.open_dir sys)])) as Hc1.
        { rewrite Htr. apply confined_app.
          - apply confined_app; [exact Hc|]. apply Hplain.
          - exact I. }
        assert (Sandbox.dir_after None (Sandbox.strace st1 ++
                  [Sandbox.SysOpen scriptroot (Sandbox.open_dir sys)]) =
                Some (Sandbox.open_dir sys)) as Hd1
          by (rewrite dir_after_app; reflexivity).
        destruct (Sandbox.open_dir sys =? -1) eqn:E; [exact Hc1|].
        match goal with
        | |- context [Sandbox.open_script ?a ?b ?c ?d] =>
            pose proof (agrees_open_script a b c d) as H;
            destruct (Sandbox.open_script a b c d)
        end; apply H; (split; [exact Hc1|]);
          cbn [Sandbox.strace Sandbox.set_cfg Sandbox.cfg Sandbox.dirfd Sandbox.log];
          rewrite Hd1, E; reflexivity.
  - cbn [Sandbox.do_call]. unfold Sandbox.orchlua_reset.
    destruct (Sandbox.initialized (Sandbox.cfg st)) eqn:Ei; [|exact Hag].
    destruct (0 <=? Sandbox.dirfd (Sandbox.cfg st)) eqn:E.
    + apply Z.leb_le in E.
      replace (Sandbox.dirfd (Sandbox.cfg st) =? -1) with false in Hd
        by (symmetry; apply Z.eqb_neq; lia).
      split; cbn [Sandbox.strace Sandbox.set_cfg Sandbox.cfg Sandbox.dirfd Sandbox.log].
      * apply confined_app; [exact Hc|exact I].
      * rewrite dir_after_app, Hd. cbn [Sandbox.dir_after].
        rewrite bool_decide_eq_true_2 by reflexivity. reflexivity.
    + split; cbn [Sandbox.strace Sandbox.set_cfg Sandbox.cfg Sandbox.dirfd];
        [exact Hc|exact Hd].
Qed.

(** X30.  Whatever the script calls [open] and [reset] with, every file
    that [open] opens by name it opens with [openat] on the descriptor of
    the directory of the script, the one that the latest [open] of a
    directory returned and that has not been closed since; a script read
    from standard input opens no file by name. *)
Theorem sandbox_confines_open (calls : list Sandbox.call) (env : option string) :
  Forall Sandbox.sane calls ->
  Sandbox.confined None
    (Sandbox.strace (Sandbox.state_of
       (Sandbox.run calls
          {| Sandbox.cfg := Sandbox.cfg0; Sandbox.env_path := env;
             Sandbox.strace := [] |}))).
Proof.
  intros Hsane.
  assert (cfg_wf (Sandbox.cfg {| Sandbox.cfg := Sandbox.cfg0; Sandbox.env_path := env;
                                 Sandbox.strace := [] |})) as Hwf
    by (split; [cbn; lia|reflexivity]).
  assert (agrees {| Sandbox.cfg := Sandbox.cfg0; Sandbox.env_path := env;
                    Sandbox.strace := [] |}) as Hag
    by (split; [exact I|reflexivity]).
  revert Hwf Hag.
  generalize {| Sandbox.cfg := Sandbox.cfg0; Sandbox.env_path := env;
                Sandbox.strace := [] |} as st.
  induction Hsane as [|c calls Hc Hcalls IH]; intros st Hwf Hag.
  - exact (proj1 Hag).
  - cbn [Sandbox.run].
    pose proof (do_call_wf c st Hc Hwf) as Hstep.
    pose proof (do_call_agrees c st Hc Hwf Hag) as Hstep'.
    destruct (Sandbox.do_call c st) as [[] st'|code st'|what st'].
    + apply IH; assumption.
    + exact Hstep'.
    + exact Hstep'.
Qed.

Lemma sandbox_confines_open_witness :
  Sandbox.confined None
    (Sandbox.strace (Sandbox.state_of
       (Sandbox.run
          [Sandbox.CallOpen
             {| Sandbox.realpath := Some "/tmp/t/script.orch"%string;
                Sandbox.strdup_ok := true; Sandbox.asprintf_ok := true;
                Sandbox.setenv_ok := true; Sandbox.open_dir := 3;
                Sandbox.dup_stdin := 4; Sandbox.openat_fd := 5;
                Sandbox.fdopen_ok := true |} "script.orch" true;
           Sandbox.CallOpen
             {| Sandbox.realpath := None;
                Sandbox.strdup_ok := true; Sandbox.asprintf_ok := true;
                Sandbox.setenv_ok := true; Sandbox.open_dir := -1;
                Sandbox.dup_stdin := 4; Sandbox.openat_fd := 6;
                Sandbox.fdopen_ok := true |} "other.orch" false;
           Sandbox.CallReset]
          {| Sandbox.cfg := Sandbox.cfg0; Sandbox.env_path := Some "/bin"%string;
             Sandbox.strace := [] |}))).
Proof.
  apply (sandbox_confines_open
           [Sandbox.CallOpen
              {| Sandbox.realpath := Some "/tmp/t/script.orch"%string;
                 Sandbox.strdup_ok := true; Sandbox.asprintf_ok := true;
                 Sandbox.setenv_ok := true; Sandbox.open_dir := 3;
                 Sandbox.dup_stdin := 4; Sandbox.openat_fd := 5;
                 Sandbox.fdopen_ok := true |} "script.orch" true;
            Sandbox.CallOpen
              {| Sandbox.realpath := None;
                 Sandbox.strdup_ok := true; Sandbox.asprintf_ok := true;
                 Sandbox.setenv_ok := true; Sandbox.open_dir := -1;
                 Sandbox.dup_stdin := 4; Sandbox.openat_fd := 6;
                 Sandbox.fdopen_ok := true |} "other.orch" false;
            Sandbox.CallReset] (Some "/bin"%string)).
  repeat constructor; cbn; lia.
Defined.

(** * The handshake, sending, closing and reading *)

(** ** Termination escalation and the channel *)

(** The loop of [orch_ipc_close] on an open channel with nothing queued,
    when [n] reads find nothing and the next one finds that the peer has
    closed its end. *)
Lemma close_drain_eof n : forall fuel w c rest,
  w_chan w = Some c -> 0 <= sockfd c -> queue c = [] ->
  s_sel (w_sock w) = [] ->
  s_rd (w_sock w) = replicate n (RdErr EAGAIN) ++ RdData [] :: rest ->
  exists w1,
    close_drain (S (S (n + fuel))) ChanPtr 0 w = Ok 0 w1 /\
    w_chan w1 = Some (set_sockfd (-1) c) /\
    w_trace w1 = w_trace w ++ [EvReadEof (sockfd c); EvClose (sockfd c)] /\
    w_proc w1 = w_proc w /\ w_os w1 = w_os w /\
    s_rd (w_sock w1) = rest /\ s_out (w_sock w1) = s_out (w_sock w).
Proof.
  assert (forall fuel w c, w_chan w = Some c -> sockfd c = -1 ->
            close_drain (S fuel) ChanPtr 0 w = Ok 0 w) as Hstop.
  { intros fuel w c Hc Hfd. cbn [close_drain].
    rewrite (bind_run _ _ _ _ _ (deref_run _ _ Hc)), Hfd. reflexivity. }
  induction n as [|n IH]; intros fuel w c rest Hc Hfd Hq Hsel Hrd;
    assert ((sockfd c =? -1) = false) as Efd by (apply Z.eqb_neq; lia).
  - cbn [replicate app] in Hrd. cbn [Nat.add].
    remember (S fuel) as f eqn:Ef. cbn [close_drain].
    rewrite (bind_run _ _ _ _ _ (deref_run _ _ Hc)), Efd. cbn [negb Z.eqb andb].
    rewrite Ef.
    erewrite bind_run
      by (apply (wait_ready _ w c); [exact Hc|exact Hq|lia|exact Hsel|rewrite Hrd; discriminate]).
    erewrite bind_run.
    2:{ rewrite (drain_run _ w c Hc Hfd). cbn [drain_loop].
        erewrite bind_run by (apply deref_run; exact Hc).
        erewrite bind_run by (apply sock_read_eof; [exact Hfd|exact Hrd]).
        cbv beta iota. apply drain_eof_run; [exact Hc|exact Hfd]. }
    eexists. split; [apply (Hstop fuel _ (set_sockfd (-1) c)); reflexivity|].
    split; [reflexivity|]. split; [cbn; rewrite <- app_assoc; reflexivity|].
    repeat split; reflexivity.
  - cbn [replicate app] in Hrd.
    replace (S (S (S n + fuel))) with (S (S (S (n + fuel)))) by lia.
    remember (S (S (n + fuel))) as f eqn:Ef. cbn [close_drain].
    rewrite (bind_run _ _ _ _ _ (deref_run _ _ Hc)), Efd. cbn [negb Z.eqb andb].
    rewrite Ef.
    erewrite bind_run
      by (apply (wait_ready _ w c); [exact Hc|exact Hq|lia|exact Hsel|rewrite Hrd; discriminate]).
    erewrite bind_run by (apply (drain_again _ w c); [exact Hc|exact Hfd|exact Hrd]).
    destruct (IH fuel (with_errno EAGAIN
                         (with_sock (set_rd (replicate n (RdErr EAGAIN) ++ RdData [] :: rest)
                                       (w_sock w)) w)) c rest)
      as (w1 & Hrun & Hc1 & Htr & Hp & Ho & Hrd1 & Hout);
      [exact Hc|exact Hfd|exact Hq|exact Hsel|reflexivity|].
    exists w1. split; [exact Hrun|]. repeat split; assumption.
Qed.

(** The close of such a channel. *)
Lemma close_at_eof n fuel w c rest :
  w_chan w = Some c -> 0 <= sockfd c -> queue c = [] ->
  s_sel (w_sock w) = [] ->
  s_rd (w_sock w) = replicate n (RdErr EAGAIN) ++ RdData [] :: rest ->
  exists w1,
    orch_ipc_close (S (S (n + fuel))) ChanPtr w = Ok 0 w1 /\
    w_chan w1 = None /\
    w_trace w1 =
      w_trace w ++ [EvShutdown (sockfd c); EvReadEof (sockfd c); EvClose (sockfd c);
                    EvFreeIpc] /\
    w_proc w1 = w_proc w /\ w_os w1 = w_os w /\
    s_rd (w_sock w1) = rest /\ s_out (w_sock w1) = s_out (w_sock w).
Proof.
  intros Hc Hfd Hq Hsel Hrd.
  assert ((sockfd c =? -1) = false) as Efd by (apply Z.eqb_neq; lia).
  destruct (close_drain_eof n fuel (log (EvShutdown (sockfd c)) w) c rest)
    as (w1 & Hrun & Hc1 & Htr & Hp & Ho & Hrd1 & Hout);
    [exact Hc|exact Hfd|exact Hq|exact Hsel|exact Hrd|].
  eexists. split.
  - unfold orch_ipc_close, ipc_close_body.
    erewrite bind_run by (apply deref_run; exact Hc).
    rewrite Efd. cbn [negb].
    erewrite bind_run.
    2:{ erewrite bind_run by reflexivity.
        rewrite (bind_run _ _ _ _ _ Hrun).
        erewrite bind_run by (apply deref_run; exact Hc1). reflexivity. }
    remember (n + fuel)%nat as f. cbn [orch_ipc_pop].
    erewrite bind_run.
    2:{ erewrite bind_run by (apply deref_run; exact Hc1). cbn [queue set_sockfd].
        rewrite Hq. reflexivity. }
    erewrite bind_run by (apply deref_run; exact Hc1). cbn [queue set_sockfd]. rewrite Hq.
    reflexivity.
  - split; [reflexivity|]. split.
    + cbn. rewrite Htr. cbn. rewrite <- !app_assoc. reflexivity.
    + repeat split; assumption.
Qed.

(** C7.  For a process handle whose child is alive, close probes the
    child, arms an alarm of five seconds, sends SIGINT and waits.  A child
    that exits on SIGINT is reaped by that wait and close returns true.
    Otherwise the alarm ends the wait, close sends SIGKILL and waits with
    no alarm armed, which reaps the child, and close returns the failure
    "could not kill process with SIGINT".  In both cases it has, before it
    returns, closed the channel and then the pty master: on a handle that
    holds a channel it has shut down and closed the socket and freed the
    channel object, and the handle is left with pid 0, a NULL channel and
    descriptor -1.  The channel is the one of a child that is gone: its
    reads reach end-of-file, after [n] that find nothing, or it has ended
    before; a handle that was released holds none. *)
Theorem C7_close_escalates fuel w :
  0 < p_pid (w_proc w) -> o_child (w_os w) = Running ->
  (p_ipc (w_proc w) = ChanPtr ->
   exists c,
     w_chan w = Some c /\ queue c = [] /\
     ((exists n rest,
         0 <= sockfd c /\ s_sel (w_sock w) = [] /\ (n <= fuel)%nat /\
         s_rd (w_sock w) = replicate n (RdErr EAGAIN) ++ RdData [] :: rest) \/
      sockfd c = -1)) ->
  exists w' tr,
    orchlua_process_close (S (S fuel)) w =
      Ok (match o_sigint (w_os w) with
          | Some _ => Ltrue
          | None => Lfail (Msg "could not kill process with SIGINT")
          end) w' /\
    w_trace w' = w_trace w ++ tr /\
    tr =
      [EvWaitpid (p_pid (w_proc w)) true 0; EvSigaction SIGALRM false; EvAlarm 5;
       EvKill (p_pid (w_proc w)) SIGINT] ++
      match o_sigint (w_os w) with
      | Some _ => [EvWaitpid (p_pid (w_proc w)) false (p_pid (w_proc w)); EvAlarm 0]
      | None => [EvWaitpid (p_pid (w_proc w)) false (-1); EvAlarm 0;
                 EvKill (p_pid (w_proc w)) SIGKILL;
                 EvWaitpid (p_pid (w_proc w)) false (p_pid (w_proc w)); EvAlarm 0]
      end ++
      [EvSigaction SIGALRM true] ++
      match p_ipc (w_proc w), w_chan w with
      | ChanPtr, Some c =>
          (if sockfd c =? -1 then []
           else [EvShutdown (sockfd c); EvReadEof (sockfd c); EvClose (sockfd c)]) ++
          [EvFreeIpc]
      | _, _ => []
      end ++
      (if p_termctl (w_proc w) =? -1 then [] else [EvClose (p_termctl (w_proc w))]) /\
    (In (EvKill (p_pid (w_proc w)) SIGKILL) tr <-> o_sigint (w_os w) = None) /\
    o_child (w_os w') = Reaped /\
    w_chan w' = match p_ipc (w_proc w) with ChanPtr => None | NULL => w_chan w end /\
    p_pid (w_proc w') = 0 /\ p_ipc (w_proc w') = NULL /\ p_termctl (w_proc w') = -1.
Proof.
  intros Hpid Hrun Hchan.
  destruct (close_escalates_aux (S (S fuel)) w Hpid Hrun)
    as (w1 & Hfin & Htr1 & Hch1 & Hp1 & Hc1 & Hs1 & Hi1 & Ht1).
  assert (exists w2,
            orch_ipc_close (S (S fuel)) (p_ipc (w_proc w)) w1 = Ok 0 w2 /\
            w_chan w2 = match p_ipc (w_proc w) with ChanPtr => None | NULL => w_chan w end /\
            w_trace w2 =
              w_trace w1 ++
              match p_ipc (w_proc w), w_chan w with
              | ChanPtr, Some c =>
                  (if sockfd c =? -1 then []
                   else [EvShutdown (sockfd c); EvReadEof (sockfd c); EvClose (sockfd c)]) ++
                  [EvFreeIpc]
              | _, _ => []
              end /\
            w_proc w2 = w_proc w1 /\ w_os w2 = w_os w1)
    as (w2 & Hclose & Hc2 & Htr2 & Hp2 & Ho2).
  { destruct (p_ipc (w_proc w)) eqn:Hipc.
    - exists w1. split; [reflexivity|]. split; [exact Hc1|].
      split; [symmetry; apply app_nil_r|]. split; reflexivity.
    - destruct (Hchan eq_refl) as (c & Hc & Hq & Hsock).
      rewrite Hc in Hc1. rewrite Hc.
      destruct Hsock as [(n & rest & Hfd & Hsel & Hn & Hrd)|Hfd].
      + replace fuel with (n + (fuel - n))%nat by lia.
        destruct (close_at_eof n (fuel - n) w1 c rest)
          as (w2 & Hrun2 & Hc2 & Htr2 & Hp2 & Ho2 & _);
          [exact Hc1|exact Hfd|exact Hq|rewrite Hs1; exact Hsel|rewrite Hs1; exact Hrd|].
        exists w2. split; [exact Hrun2|]. split; [exact Hc2|].
        replace (sockfd c =? -1) with false by (symmetry; apply Z.eqb_neq; lia).
        split; [exact Htr2|]. split; assumption.
      + exists (with_chan None (log EvFreeIpc w1)).
        split; [apply (close_after_eof _ w1 c); assumption|].
        rewrite Hfd. repeat split; reflexivity. }
  rewrite (Hfin 0 w2 Hclose).
  assert (p_termctl (w_proc w2) = p_termctl (w_proc w)) as Ht2 by (rewrite Hp2; exact Ht1).
  rewrite Ht2.
  eexists. eexists. split; [unfold close_verdict; reflexivity|].
  assert (forall x : world,
            w_trace (if negb (p_termctl (w_proc w) =? -1)
                     then log (EvClose (p_termctl (w_proc w))) x else x) =
            w_trace x ++ (if p_termctl (w_proc w) =? -1 then []
                          else [EvClose (p_termctl (w_proc w))])) as Hlog
    by (intros x; destruct (p_termctl (w_proc w) =? -1);
        [symmetry; apply app_nil_r|reflexivity]).
  split.
  { cbn [w_trace with_proc]. rewrite Hlog, Htr2, Htr1. unfold escalation.
    rewrite <- !app_assoc. reflexivity. }
  split; [reflexivity|]. split.
  { destruct (o_sigint (w_os w)) as [s|].
    - split; [|discriminate]. intros Hin.
      apply in_app_or in Hin as [Hin|Hin];
        [destruct Hin as [H|[H|[H|[H|[]]]]]; discriminate H|].
      apply in_app_or in Hin as [Hin|Hin];
        [destruct Hin as [H|[H|[]]]; discriminate H|].
      apply in_app_or in Hin as [Hin|Hin];
        [destruct Hin as [H|[]]; discriminate H|].
      apply in_app_or in Hin as [Hin|Hin].
      { destruct (p_ipc (w_proc w)); [destruct Hin|].
        destruct (w_chan w) as [c|]; [|destruct Hin].
        apply in_app_or in Hin as [Hin|Hin]; [|destruct Hin as [H|[]]; discriminate H].
        destruct (sockfd c =? -1); [destruct Hin|].
        destruct Hin as [H|[H|[H|[]]]]; discriminate H. }
      destruct (p_termctl (w_proc w) =? -1); [destruct Hin|].
      destruct Hin as [H|[]]; discriminate H.
    - split; [reflexivity|]. intros _. apply in_or_app. right.
      apply in_or_app. left. cbn. auto. }
  assert (forall x : world,
            w_os (if negb (p_termctl (w_proc w) =? -1)
                  then log (EvClose (p_termctl (w_proc w))) x else x) = w_os x /\
            w_chan (if negb (p_termctl (w_proc w) =? -1)
                    then log (EvClose (p_termctl (w_proc w))) x else x) = w_chan x)
    as Hfr by (intros x; destruct (p_termctl (w_proc w) =? -1); split; reflexivity).
  cbn [w_os w_chan w_proc with_proc].
  destruct (Hfr w2) as [-> ->].
  split; [rewrite Ho2; exact Hch1|]. split; [exact Hc2|].
  cbn [p_pid p_ipc p_termctl set_termctl set_ipc].
  split; [rewrite Hp2; exact Hp1|]. split; reflexivity.
Qed.

Lemma C7_close_escalates_witness :
  exists w' tr,
    orchlua_process_close 20 stubborn =
      Ok (Lfail (Msg "could not kill process with SIGINT")) w' /\
    w_trace w' = w_trace stubborn ++ tr /\
    tr =
      [EvWaitpid 100 true 0; EvSigaction SIGALRM false; EvAlarm 5; EvKill 100 SIGINT;
       EvWaitpid 100 false (-1); EvAlarm 0; EvKill 100 SIGKILL;
       EvWaitpid 100 false 100; EvAlarm 0; EvSigaction SIGALRM true;
       EvShutdown 3; EvReadEof 3; EvClose 3; EvFreeIpc; EvClose 5] /\
    o_child (w_os w') = Reaped /\ w_chan w' = None /\
    p_pid (w_proc w') = 0 /\ p_ipc (w_proc w') = NULL /\ p_termctl (w_proc w') = -1.
Proof.
  destruct (C7_close_escalates 18 stubborn)
    as (w' & tr & Hrun & Htr & Etr & _ & Hch & Hc & Hp & Hi & Ht).
  - reflexivity.
  - reflexivity.
  - intros _.
    exists {| callbacks := [None; Some fn_orchlua_child_error; None; None; None];
              queue := []; sockfd := 3 |}.
    split; [reflexivity|]. split; [reflexivity|].
    left. exists 1%nat, []. split; [cbn; lia|]. split; [reflexivity|].
    split; [lia|reflexivity].
  - exists w', tr. split; [exact Hrun|]. split; [exact Htr|].
    split; [exact Etr|]. repeat split; assumption.
Defined.
(** ** Sending drains and does not dispatch *)

(** C4 (amended).  A send calls no handler: whatever it reads it appends
    to the queue, behind the messages already there, and it leaves the
    handler table and the process handle as they are.  When whole
    messages wait on the socket, the send first reads them all and queues
    them in the order of arrival, with nothing written yet, and then
    writes its own header and payload to the world the reading has left.
    The reading comes first: when it fails, the send fails with nothing
    written.  The queued messages are dispatched by a later receive: an
    error message of the child that waited during a send of the parent
    reaches the parent's handler only then. *)
Theorem C4_send_buffers_without_dispatch :
  (forall fuel ipc msg w e w',
     orch_ipc_send fuel ipc msg w = Ok e w' ->
     exists c c' new tr,
       w_chan w = Some c /\ w_chan w' = Some c' /\
       callbacks c' = callbacks c /\
       queue c' = queue c ++ new /\
       w_trace w' = w_trace w ++ tr /\
       (forall h m, ~ In (EvHandler h m) tr) /\
       w_proc w' = w_proc w) /\
  (forall msgs fuel w c msg,
     w_chan w = Some c -> 0 <= sockfd c -> o_alloc (w_os w) = [] ->
     s_rd (w_sock w) = map (fun m => RdData (wire m)) msgs ->
     s_wr (w_sock w) = [] ->
     Forall (fun m => msg_tag m <> IPC_NOXMIT /\ - 2 ^ 31 <= msg_tag m < 2 ^ 31 /\
                      Z.of_nat (length (msg_data m)) + 32 < SIZE_MODULUS) msgs ->
     exists wd w',
       orch_ipc_drain (S (S (S (length msgs + fuel)))) ChanPtr w = Ok 0 wd /\
       w_chan wd = Some (set_queue (queue c ++ msgs) c) /\
       s_rd (w_sock wd) = [] /\
       s_out (w_sock wd) = s_out (w_sock w) /\
       orch_ipc_send (S (S (S (S (length msgs + fuel))))) ChanPtr msg w = Ok 0 w' /\
       w' = with_sock (set_wr [] (s_out (w_sock wd) ++ wire msg) (w_sock wd)) wd /\
       w_chan w' = Some (set_queue (queue c ++ msgs) c) /\
       s_rd (w_sock w') = [] /\
       s_out (w_sock w') = s_out (w_sock w) ++ wire msg /\
       w_trace w' = w_trace w /\ w_proc w' = w_proc w) /\
  (forall fuel ipc msg w e wd,
     orch_ipc_drain fuel ipc w = Ok e wd -> e <> 0 ->
     orch_ipc_send (S fuel) ipc msg w = Ok (-1) wd /\
     s_out (w_sock wd) = s_out (w_sock w)) /\
  (forall fuel w c m msg,
     w_chan w = Some c -> 0 <= sockfd c -> o_alloc (w_os w) = [] ->
     queue c = [] -> length (callbacks c) = 5%nat ->
     handler_for c IPC_ERROR = Some fn_orchlua_child_error ->
     msg_tag m = IPC_ERROR -> msg_data m <> [] ->
     Z.of_nat (length (msg_data m)) + 32 < SIZE_MODULUS ->
     s_rd (w_sock w) = [RdData (wire m)] -> s_wr (w_sock w) = [] ->
     exists w1 w2,
       orch_ipc_send (S (S (S (S (S fuel))))) ChanPtr msg w = Ok 0 w1 /\
       w_chan w1 = Some (set_queue [m] c) /\
       w_proc w1 = w_proc w /\ w_trace w1 = w_trace w /\
       orch_ipc_recv (S (S (S fuel))) ChanPtr w1 = Ok (0, None) w2 /\
       w_chan w2 = Some c /\
       w_proc w2 = set_error true (w_proc w) /\
       w_trace w2 =
         w_trace w ++ [EvHandler fn_orchlua_child_error m; EvStderr (msg_data m);
                       EvFreeMsg m]).
Proof.
  assert (forall msgs fuel w c msg,
     w_chan w = Some c -> 0 <= sockfd c -> o_alloc (w_os w) = [] ->
     s_rd (w_sock w) = map (fun m => RdData (wire m)) msgs ->
     s_wr (w_sock w) = [] ->
     Forall (fun m => msg_tag m <> IPC_NOXMIT /\ - 2 ^ 31 <= msg_tag m < 2 ^ 31 /\
                      Z.of_nat (length (msg_data m)) + 32 < SIZE_MODULUS) msgs ->
     exists wd w',
       orch_ipc_drain (S (S (S (length msgs + fuel)))) ChanPtr w = Ok 0 wd /\
       w_chan wd = Some (set_queue (queue c ++ msgs) c) /\
       s_rd (w_sock wd) = [] /\
       s_out (w_sock wd) = s_out (w_sock w) /\
       orch_ipc_send (S (S (S (S (length msgs + fuel))))) ChanPtr msg w = Ok 0 w' /\
       w' = with_sock (set_wr [] (s_out (w_sock wd) ++ wire msg) (w_sock wd)) wd /\
       w_chan w' = Some (set_queue (queue c ++ msgs) c) /\
       s_rd (w_sock w') = [] /\
       s_out (w_sock w') = s_out (w_sock w) ++ wire msg /\
       w_trace w' = w_trace w /\ w_proc w' = w_proc w) as Hqueue.
  { intros msgs fuel w c msg Hc Hfd Hal Hrd Hwr Hmsgs.
    set (wd := with_errno EAGAIN
                 (with_chan (Some (set_queue (queue c ++ msgs) c))
                    (with_sock (set_rd [] (w_sock w)) w))).
    assert (orch_ipc_drain (S (S (S (length msgs + fuel)))) ChanPtr w = Ok 0 wd) as Hd.
    { rewrite (drain_run _ w c Hc Hfd).
      apply drain_loop_messages; assumption. }
    exists wd. eexists.
    split; [exact Hd|]. split; [reflexivity|]. split; [reflexivity|].
    split; [reflexivity|]. split.
    - apply (send_whole (S (length msgs + fuel)) w wd (set_queue (queue c ++ msgs) c));
        [exact Hd|reflexivity|exact Hfd|exact Hwr].
    - repeat split; reflexivity. }
  split; [|split; [exact Hqueue|split]].
  - intros fuel ipc msg w e w' H.
    destruct (respects_ok _ _ _ _ _ (sends_send fuel ipc msg) H)
      as (P & _ & _ & C & tr & T & Q).
    assert (exists c, w_chan w = Some c) as [c Ec].
    { destruct fuel as [|fuel]; [discriminate|]. simpl in H.
      unfold orch_ipc_drain, orch_ipc_okay, bind, deref in H.
      destruct ipc; [discriminate|]. destruct (w_chan w) as [c|]; [|discriminate].
      exists c. reflexivity. }
    rewrite Ec in C. destruct (w_chan w') as [c'|] eqn:Ec'; [|destruct C].
    destruct C as [Hcb [new Hq]].
    exists c, c', new, tr. repeat split; try assumption.
    intros h m Hin. rewrite Forall_forall in Q.
    apply list_elem_of_In in Hin. apply (Q _ Hin).
  - intros fuel ipc msg w e wd Hd He. split.
    + cbn [orch_ipc_send]. rewrite (bind_run _ _ _ _ _ Hd).
      replace (e =? 0) with false by (symmetry; apply Z.eqb_neq; exact He).
      reflexivity.
    + destruct (respects_ok _ _ _ _ _ (drains_drain fuel ipc) Hd) as (_ & Hout & _).
      exact Hout.
  - intros fuel w c m msg Hc Hfd Hal Hq Hlen Hh Htag Hdata Hsize Hrd Hwr.
    destruct (Hqueue [m] fuel w c msg Hc Hfd Hal Hrd Hwr)
      as (wd & w1 & _ & _ & _ & _ & Hsend & _ & Hc1 & Hrd1 & _ & Htr1 & Hp1).
    { constructor; [|constructor]. rewrite Htag. unfold IPC_ERROR, IPC_NOXMIT.
      split; [discriminate|]. split; [lia|exact Hsize]. }
    rewrite Hq in Hc1. cbn [app] in Hc1.
    exists w1. eexists. split; [exact Hsend|]. split; [exact Hc1|].
    split; [exact Hp1|]. split; [exact Htr1|].
    assert (orch_ipc_recv (S (S (S fuel))) ChanPtr w1 =
            Ok (0, None)
               (log (EvFreeMsg m)
                  (with_proc (set_error true (w_proc (with_errno EAGAIN w1)))
                     (log (EvStderr (msg_data m))
                        (log (EvHandler fn_orchlua_child_error m)
                           (with_chan (Some (set_queue [] (set_queue [m] c)))
                              (with_errno EAGAIN w1))))))) as Hrecv.
    { unfold orch_ipc_recv.
      erewrite bind_run.
      2:{ rewrite (drain_run _ w1 (set_queue [m] c) Hc1 Hfd).
          apply (drain_loop_silent _ w1 (set_queue [m] c)); [exact Hc1|exact Hfd|exact Hrd1]. }
      cbn [Z.eqb negb].
      erewrite bind_run.
      2:{ apply (pop_child_error (S fuel) (with_errno EAGAIN w1) (set_queue [m] c) m true);
            [exact Hc1|reflexivity|exact Hlen|exact Htag|exact Hdata|exact Hh]. }
      reflexivity. }
    split; [exact Hrecv|].
    split; [cbn; destruct c; cbn in Hq; subst; reflexivity|].
    split; [cbn; rewrite Hp1; reflexivity|].
    cbn. rewrite Htr1, <- !app_assoc. reflexivity.
Qed.

Lemma C4_send_buffers_without_dispatch_witness :
  exists wd w',
    orch_ipc_drain 5 ChanPtr
      (with_sock (set_rd [RdData (wire (nodata IPC_TERMIOS_ACK));
                          RdData (wire termios_msg)] (w_sock spawned)) spawned) = Ok 0 wd /\
    w_chan wd =
      Some {| callbacks := [None; Some fn_orchlua_child_error; None; None; None];
              queue := [nodata IPC_TERMIOS_ACK; termios_msg]; sockfd := 3 |} /\
    s_out (w_sock wd) = [] /\
    orch_ipc_send 6 ChanPtr (nodata IPC_RELEASE)
      (with_sock (set_rd [RdData (wire (nodata IPC_TERMIOS_ACK));
                          RdData (wire termios_msg)] (w_sock spawned)) spawned) = Ok 0 w' /\
    w_chan w' =
      Some {| callbacks := [None; Some fn_orchlua_child_error; None; None; None];
              queue := [nodata IPC_TERMIOS_ACK; termios_msg]; sockfd := 3 |} /\
    s_out (w_sock w') = wire (nodata IPC_RELEASE) /\
    w_trace w' = w_trace spawned.
Proof.
  destruct C4_send_buffers_without_dispatch as (_ & Hqueue & _).
  destruct (Hqueue [nodata IPC_TERMIOS_ACK; termios_msg] 0%nat
              (with_sock (set_rd [RdData (wire (nodata IPC_TERMIOS_ACK));
                                  RdData (wire termios_msg)] (w_sock spawned)) spawned)
              {| callbacks := [None; Some fn_orchlua_child_error; None; None; None];
                 queue := []; sockfd := 3 |}
              (nodata IPC_RELEASE))
    as (wd & w' & Hd & Hcd & _ & Hod & Hs & _ & Hc' & _ & Ho' & Htr & _).
  - reflexivity.
  - cbn [sockfd]. lia.
  - reflexivity.
  - reflexivity.
  - reflexivity.
  - repeat constructor; try discriminate; vm_compute; congruence.
  - exists wd, w'. repeat split; assumption.
Defined.
(** ** The turns of the release handshake *)

Lemma orch_wait_ends fuel ipc : forall w w',
  orch_wait fuel ipc w = Ok 0 w' -> wait_ends ipc w w'.
Proof.
  induction fuel as [|fuel IH]; intros w w' H; [discriminate|].
  cbn [orch_wait] in H. apply bind_ok in H as ([e stop] & w1 & Hwait & H).
  cbn [fst snd] in H.
  destruct (e =? -1) eqn:He; [discriminate|]. apply Z.eqb_neq in He.
  destruct (default false stop) eqn:Hstop.
  - injection H as <-. destruct stop as [[|]|]; try discriminate.
    exists w. split; [apply rtc_refl|].
    apply (exit_eof ipc fuel w e w1 Hwait He). apply (wait_eof _ _ _ _ _ Hwait).
  - apply bind_ok in H as ([e' m] & w2 & Hrecv & H). cbn [fst snd] in H.
    destruct (e' =? 0) eqn:He'; cbn [negb] in H; [|discriminate].
    apply Z.eqb_eq in He'. subst e'.
    destruct m as [msg|].
    + unfold orch_ipc_msg_free in H.
      apply bind_ok in H as ([] & w3 & Hfree & H).
      unfold emit, modify in Hfree. injection Hfree as <-.
      destruct (orch_ipc_msg_tag msg =? IPC_RELEASE) eqn:Htag.
      * injection H as <-. apply Z.eqb_eq in Htag.
        exists w. split; [apply rtc_refl|].
        apply (exit_release ipc fuel w (e, stop) w1 msg w2 Hwait He Hstop Hrecv Htag).
      * apply Z.eqb_neq in Htag.
        destruct (IH _ _ H) as (wl & Hturns & Hexit).
        exists wl. split; [|exact Hexit].
        eapply rtc_l; [|exact Hturns].
        apply (turn_other ipc fuel w (e, stop) w1 msg w2 Hwait He Hstop Hrecv Htag).
    + destruct (IH _ _ H) as (wl & Hturns & Hexit).
      exists wl. split; [|exact Hexit].
      eapply rtc_l; [|exact Hturns].
      apply (turn_nothing ipc fuel w (e, stop) w1 w2 Hwait He Hstop Hrecv).
Qed.

Lemma sock_write_chan fd bs w r w' :
  sock_write fd bs w = Ok r w' ->
  w_chan w' = w_chan w /\ (forall k, r = WrSome k -> 0 <= fd).
Proof.
  unfold sock_write. destruct (fd <? 0) eqn:Efd.
  - intros H. injection H as <- <-. split; [reflexivity|discriminate].
  - apply Z.ltb_ge in Efd.
    destruct (s_wr (w_sock w)) as [|[e|k] rest]; intros H; injection H as <- <-;
      (split; [reflexivity|intros; exact Efd]).
Qed.

Lemma send_payload_chan fuel ipc : forall rest w e w',
  send_payload fuel ipc rest w = Ok e w' -> w_chan w' = w_chan w.
Proof.
  induction fuel as [|fuel IH]; intros rest w e w' H; [discriminate|].
  cbn [send_payload] in H. destruct rest as [|b rest]; [injection H as _ <-; reflexivity|].
  apply bind_ok in H as (c & w1 & Hc & H). apply deref_ok in Hc as (_ & -> & _).
  apply bind_ok in H as (r & w2 & Hw & H).
  destruct (sock_write_chan _ _ _ _ _ Hw) as [Hch _].
  destruct r as [[]|k]; try (injection H as _ <-; exact Hch);
    rewrite <- Hch; apply (IH _ _ _ _ H).
Qed.

(** A send that succeeds has written to an open socket, and leaves the
    channel open. *)
Lemma send_ok_open fuel ipc msg : forall w w',
  orch_ipc_send fuel ipc msg w = Ok 0 w' ->
  exists c, w_chan w' = Some c /\ 0 <= sockfd c.
Proof.
  induction fuel as [|fuel IH]; intros w w' H; [discriminate|].
  cbn [orch_ipc_send] in H.
  apply bind_ok in H as (e & wd & _ & H).
  destruct (negb (e =? 0)); [discriminate|].
  apply bind_ok in H as (c & w1 & Hc & H). apply deref_ok in Hc as (_ & -> & Hc).
  apply bind_ok in H as (r & w2 & Hw & H).
  destruct (sock_write_chan _ _ _ _ _ Hw) as [Hch Hfd].
  destruct r as [err|k].
  - destruct err; try discriminate. apply (IH _ _ H).
  - destruct (Z.of_nat k <? sizeof_hdr).
    + apply bind_ok in H as (? & ? & _ & H). discriminate.
    + exists c. split; [|apply (Hfd k eq_refl)].
      rewrite (send_payload_chan _ _ _ _ _ _ H), Hch. exact Hc.
Qed.

(** C3 (amended).  The loop of the handshake returns success only
    through a turn in which the wait finds the channel at end-of-file or
    the receive hands over a RELEASE message.  In the parent, [spawn]
    returns success only after such a wait on the channel it has opened
    on its end of the socket pair, from which nothing was read before.
    The child executes the command only after its own RELEASE has been
    written to an open channel, a wait begun then has returned in that
    way, and the channel has been closed. *)
Theorem C3_handshake_ends_on_release_or_eof :
  (forall fuel ipc w w',
     orch_wait fuel ipc w = Ok 0 w' -> wait_ends ipc w w') /\
  (forall fuel cmdsock newpt pid argv h w w',
     0 < pid ->
     orch_spawn fuel cmdsock newpt pid argv h w = Ok 0 w' ->
     exists w0,
       w_chan w0 =
         Some {| callbacks := <[1%nat := Some h]> (replicate 5 None);
                 queue := []; sockfd := fst cmdsock |} /\
       w_sock w0 = w_sock w /\
       w_trace w0 = w_trace w ++ [EvClose (snd cmdsock)] /\
       orch_wait fuel ChanPtr w0 = Ok 0 w' /\
       wait_ends ChanPtr w0 w') /\
  (forall fuel ipc argv w argv' w',
     orch_exec (A := Z) fuel ipc argv w = Execed argv' w' ->
     argv' = argv /\
     exists w1 w2 w3 c1 e,
       (emit (EvSigaction SIGINT true);;
        orch_ipc_register ipc IPC_TERMIOS_INQUIRY (Some fn_orch_child_termios_inquiry);;
        orch_ipc_register ipc IPC_TERMIOS_SET (Some fn_orch_child_termios_set);;
        orch_release fuel ipc) w = Ok 0 w1 /\
       w_chan w1 = Some c1 /\ 0 <= sockfd c1 /\
       orch_wait fuel ipc w1 = Ok 0 w2 /\
       wait_ends ipc w1 w2 /\
       orch_ipc_close fuel ipc w2 = Ok e w3 /\
       sys_call w3 = Ok true w').
Proof.
  split; [exact orch_wait_ends|]. split.
  - intros fuel cmdsock newpt pid argv h w w' Hpid H. unfold orch_spawn in H.
    apply bind_ok in H as ([] & w1 & Hu & H).
    unfold update_proc, modify in Hu. injection Hu as <-.
    replace (pid =? -1) with false in H by (symmetry; apply Z.eqb_neq; lia).
    replace (pid =? 0) with false in H by (symmetry; apply Z.eqb_neq; lia).
    apply bind_ok in H as ([] & w2 & Hu & H).
    unfold update_proc, modify in Hu. injection Hu as <-.
    apply bind_ok in H as ([] & w3 & Hu & H).
    unfold update_proc, modify in Hu. injection Hu as <-.
    apply bind_ok in H as (ipc & w4 & Hopen & H).
    apply bind_ok in H as ([] & w5 & Hu & H).
    unfold update_proc, modify in Hu. injection Hu as <-.
    apply bind_ok in H as ([] & w6 & Hu & H).
    unfold emit, modify in Hu. injection Hu as <-.
    unfold orch_ipc_open in Hopen.
    apply bind_ok in Hopen as (ok & w7 & Hm & Hopen).
    assert (w_sock w7 = w_sock w /\ w_trace w7 = w_trace w) as [Hs7 Ht7].
    { unfold malloc in Hm. cbn [w_os with_proc] in Hm.
      destruct (o_alloc (w_os w)) as [|[|] ?]; injection Hm as _ <-; split; reflexivity. }
    destruct ok.
    + apply bind_ok in Hopen as ([] & w8 & Hst & Hopen).
      unfold store, modify in Hst. injection Hst as <-. injection Hopen as <- <-.
      apply bind_ok in H as (r & w9 & Hreg & H).
      unfold orch_ipc_register in Hreg.
      apply bind_ok in Hreg as (c & w10 & Hc & Hreg).
      apply deref_ok in Hc as (_ & -> & Hc). cbn in Hc. injection Hc as <-.
      apply bind_ok in Hreg as (i & w11 & Hi & Hreg).
      unfold callback_slot in Hi. cbn in Hi. injection Hi as <- <-.
      apply bind_ok in Hreg as ([] & w12 & Hst & Hreg).
      unfold store, modify in Hst. injection Hst as <-. injection Hreg as _ <-.
      match type of H with orch_wait _ _ ?x = _ => exists x end.
      split; [reflexivity|]. split; [exact Hs7|].
      split; [cbn; rewrite Ht7; reflexivity|].
      split; [exact H|]. apply (orch_wait_ends _ _ _ _ H).
    + injection Hopen as <- <-.
      repeat (apply bind_ok in H as (? & ? & _ & H)). discriminate.
  - intros fuel ipc argv w argv' w' H. unfold orch_exec in H.
    apply (bind_execed runs) in H as ([] & wa & Ha & _ & H); [|apply runs_emit].
    apply (bind_execed runs) in H as (ra & wb & Hb & _ & H); [|apply runs_register].
    apply (bind_execed runs) in H as (rb & wc & Hc & _ & H); [|apply runs_register].
    apply (bind_execed runs) in H as (e & w1 & Hrel & _ & H); [|apply runs_release].
    destruct (e =? 0) eqn:He; cbn [negb] in H; [|discriminate].
    apply Z.eqb_eq in He. subst e.
    apply (bind_execed runs) in H as (error & w2 & Hwait & _ & H); [|apply runs_orch_wait].
    apply (bind_execed runs) in H as (e & w3 & Hclose & _ & H); [|apply runs_close].
    destruct (error =? 0) eqn:He; cbn [negb] in H; [|discriminate].
    apply Z.eqb_eq in He. subst error.
    apply (bind_execed runs) in H as (ok & w4 & Hsys & _ & H); [|apply runs_sys_call].
    destruct ok; [|discriminate]. unfold execvp in H. injection H as <- <-.
    split; [reflexivity|].
    destruct (send_ok_open _ _ _ _ _ Hrel) as (c1 & Hc1 & Hfd1).
    exists w1, w2, w3, c1, e. split.
    { rewrite (bind_run _ _ _ _ _ Ha), (bind_run _ _ _ _ _ Hb), (bind_run _ _ _ _ _ Hc).
      exact Hrel. }
    split; [exact Hc1|]. split; [exact Hfd1|]. split; [exact Hwait|].
    split; [apply (orch_wait_ends _ _ _ _ Hwait)|]. split; [exact Hclose|exact Hsys].
Qed.

Lemma C3_handshake_ends_on_release_or_eof_witness :
  exists w1 w2 c1,
    (emit (EvSigaction SIGINT true);;
     orch_ipc_register ChanPtr IPC_TERMIOS_INQUIRY (Some fn_orch_child_termios_inquiry);;
     orch_ipc_register ChanPtr IPC_TERMIOS_SET (Some fn_orch_child_termios_set);;
     orch_release 20 ChanPtr)
      (chan_world fresh_chan
         [RdErr EAGAIN; RdData (wire (nodata IPC_RELEASE)); RdErr EAGAIN; RdData []])
      = Ok 0 w1 /\
    w_chan w1 = Some c1 /\ 0 <= sockfd c1 /\
    orch_wait 20 ChanPtr w1 = Ok 0 w2 /\
    wait_ends ChanPtr w1 w2.
Proof.
  destruct C3_handshake_ends_on_release_or_eof as (_ & _ & Hchild).
  destruct (Hchild 20%nat ChanPtr ["cat"%string]
              (chan_world fresh_chan
                 [RdErr EAGAIN; RdData (wire (nodata IPC_RELEASE)); RdErr EAGAIN;
                  RdData []])
              ["cat"%string]
              (world_of
                 (orch_exec (A := Z) 20 ChanPtr ["cat"%string]
                    (chan_world fresh_chan
                       [RdErr EAGAIN; RdData (wire (nodata IPC_RELEASE)); RdErr EAGAIN;
                        RdData []]))))
    as (_ & w1 & w2 & w3 & c1 & e & Hrel & Hc1 & Hfd & Hwait & Hends & _).
  - vm_compute. reflexivity.
  - exists w1, w2, c1. repeat split; assumption.
Defined.
(** ** Read at end-of-file on a handle that has been reaped *)

(** The steps of [read] at end-of-file, up to the probe of the child. *)
Lemma read_eof_reaped w1 :
  p_pid (w_proc w1) = 0 -> 0 <= p_termctl (w_proc w1) ->
  (update_proc (set_eof true);;
   do p <- self;
   assert (0 <=? p_termctl p) "self->termctl >= 0";;
   emit (EvClose (p_termctl p));;
   update_proc (set_termctl (-1));;
   do killed <- orchlua_process_killed;
   match killed with
   | Some signo =>
       if negb (signo =? 0) then
         ret (Lfail (MsgD "spawned process killed with signal '%d'" signo))
       else ret Ltrue
   | None => ret Ltrue
   end) w1 =
  Fault (AssertFail "self->pid != 0")
        (with_proc (set_termctl (-1) (set_eof true (w_proc w1)))
           (log (EvClose (p_termctl (w_proc w1)))
              (with_proc (set_eof true (w_proc w1)) w1))).
Proof.
  intros Hpid Hfd.
  destruct w1 as [ch [tm ipc pid st fd rel eof err] stm ct so o er tr].
  cbn [w_proc p_pid p_termctl] in *. subst pid.
  unfold bind, update_proc, modify, self, assert, emit, ret, crash, orchlua_process_killed.
  cbn [w_proc with_proc log p_termctl set_eof set_termctl p_pid].
  replace (0 <=? fd) with true by (symmetry; apply Z.leb_le; exact Hfd).
  reflexivity.
Qed.

(** C8 (code bug).  [read] at end-of-file probes the child with
    [orchlua_process_killed], which asserts that the handle still has a
    pid.  On a handle whose child has been reaped the assertion fails:
    the pty descriptor has been closed and the end-of-file flag set, and
    the process aborts where a clean end-of-file was meant.  [close]
    leaves such a handle behind, with the pty open, when it finds the
    child killed by a signal and returns that failure at once.  On a
    handle whose child is running, the probe does not wait: [read]
    reports success and the child is not reaped. *)
Lemma C8_read_at_eof_aborts_on_reaped_handle :
  (forall fuel callback timeout w start ws w0 r w1,
     match timeout with
     | Some t => 0 <= t /\ sys_time w = Ok start ws
     | None => ws = w
     end ->
     p_pid (w_proc w) = 0 -> p_error (w_proc w) = false ->
     0 <= p_termctl (w_proc w) ->
     pty_select (p_termctl (w_proc w)) (bool_decide (timeout <> None)) ws = Ok PtyReady w0 ->
     pty_read (p_termctl (w_proc w)) w0 = Ok r w1 ->
     r = RdErr EIO \/ r = RdData [] ->
     exists w',
       orchlua_process_read (S fuel) callback timeout w =
         Fault (AssertFail "self->pid != 0") w' /\
       p_eof (w_proc w') = true /\ p_termctl (w_proc w') = -1 /\
       w_trace w' = w_trace w ++ [EvCallback None; EvClose (p_termctl (w_proc w))]) /\
  (exists w1 w2,
     spawn_parent 20 (boot release_script) = Ok 0 spawned /\
     at_eof =
       with_os (set_child (Zombie SIGKILL) (set_pty [] [RdErr EIO] (w_os spawned)))
         spawned /\
     orchlua_process_close 20 at_eof =
       Ok (Lfail (MsgD "spawned process killed with signal '%d'" SIGKILL)) w1 /\
     p_pid (w_proc w1) = 0 /\ p_termctl (w_proc w1) = 5 /\
     p_ipc (w_proc w1) = ChanPtr /\
     orchlua_process_read 20 (fun _ => false) None w1 =
       Fault (AssertFail "self->pid != 0") w2 /\
     p_eof (w_proc w2) = true /\ p_termctl (w_proc w2) = -1) /\
  (forall fuel callback w w0 r w1,
     0 < p_pid (w_proc w) -> p_error (w_proc w) = false ->
     0 <= p_termctl (w_proc w) -> o_child (w_os w) = Running ->
     pty_select (p_termctl (w_proc w)) false w = Ok PtyReady w0 ->
     pty_read (p_termctl (w_proc w)) w0 = Ok r w1 ->
     r = RdErr EIO \/ r = RdData [] ->
     exists w',
       orchlua_process_read (S fuel) callback None w = Ok Ltrue w' /\
       o_child (w_os w') = Running /\ p_pid (w_proc w') = p_pid (w_proc w)).
Proof.
  split; [|split].
  - intros fuel callback timeout w start ws w0 r w1 Hws Hpid Herr Hfd Hsel Hread Hr.
    destruct (pty_select_frame _ _ _ _ _ Hsel) as (P0 & T0 & _).
    destruct (pty_read_frame _ _ _ _ Hread) as (P1 & T1 & _).
    assert (w_proc ws = w_proc w /\ w_trace ws = w_trace w) as [Ps Ts].
    { destruct timeout as [t|]; [|subst ws; split; reflexivity].
      destruct Hws as [_ Hws]. unfold sys_time in Hws.
      destruct (o_clock (w_os w)); injection Hws as _ <-; split; reflexivity. }
    assert (process_read_loop (S fuel) (p_termctl (w_proc w))
              match timeout with Some t => Some (Z.max t 1) | None => None end
              match timeout with Some _ => start | None => 0 end
              match timeout with Some _ => start | None => 0 end callback ws =
            Fault (AssertFail "self->pid != 0")
              (with_proc (set_termctl (-1) (set_eof true (w_proc (log (EvCallback None) w1))))
                 (log (EvClose (p_termctl (w_proc (log (EvCallback None) w1))))
                    (with_proc (set_eof true (w_proc (log (EvCallback None) w1)))
                       (log (EvCallback None) w1))))) as Hloop.
    { cbn [process_read_loop].
      rewrite (bind_run self _ ws (w_proc ws) ws eq_refl).
      rewrite Ps, Herr.
      replace (match match timeout with Some t => Some (Z.max t 1) | None => None end with
               | Some t => match timeout with Some _ => start | None => 0 end
                           - match timeout with Some _ => start | None => 0 end <? t
               | None => true
               end && negb false) with true.
      2:{ destruct timeout as [t|]; [|reflexivity].
          rewrite Z.sub_diag. symmetry. apply andb_true_intro. split; [|reflexivity].
          apply Z.ltb_lt. lia. }
      replace (bool_decide (match timeout with Some t => Some (Z.max t 1) | None => None end
                            <> None))
        with (bool_decide (timeout <> None))
        by (destruct timeout; reflexivity).
      rewrite (bind_run _ _ _ _ _ Hsel). cbv iota.
      rewrite (bind_run _ _ _ _ _ Hread).
      rewrite <- (read_eof_reaped (log (EvCallback None) w1));
        [|cbn; rewrite P1, P0, Ps; exact Hpid|cbn; rewrite P1, P0, Ps; exact Hfd].
      destruct Hr as [-> | ->]; reflexivity. }
    eexists. split.
    + unfold orchlua_process_read. destruct timeout as [t|].
      * destruct Hws as [Ht Hws].
        replace (t <? 0) with false by (symmetry; apply Z.ltb_ge; exact Ht).
        rewrite (bind_run self _ w (w_proc w) w eq_refl).
        rewrite (bind_run _ _ _ _ _ Hws). exact Hloop.
      * subst ws. rewrite (bind_run self _ w (w_proc w) w eq_refl). exact Hloop.
    + split; [reflexivity|]. split; [reflexivity|].
      cbn. rewrite T1, T0, Ts, P1, P0, Ps, <- app_assoc. reflexivity.
  - do 2 eexists. split; [vm_compute; reflexivity|]. split; [reflexivity|].
    split; [vm_compute; reflexivity|].
    split; [reflexivity|]. split; [reflexivity|]. split; [reflexivity|].
    split; [vm_compute; reflexivity|]. split; reflexivity.
  - intros fuel callback w w0 r w1 Hpid Herr Hfd Hrun Hsel Hread Hr.
    destruct (pty_select_frame _ _ _ _ _ Hsel) as (P0 & T0 & C0).
    destruct (pty_read_frame _ _ _ _ Hread) as (P1 & T1 & C1).
    destruct (read_eof_tail (log (EvCallback None) w1))
      as (w' & Htail & _ & _ & _ & Hc & Hp);
      [cbn; rewrite P1, P0; exact Hpid|cbn; rewrite P1, P0; exact Hfd|].
    assert (o_child (w_os (log (EvCallback None) w1)) = Running) as Hrun1
      by (cbn; rewrite C1, C0; exact Hrun).
    rewrite Hrun1 in Htail, Hc, Hp. cbn [eof_verdict after_probe] in Htail, Hc.
    exists w'. split; [|split; [exact Hc|rewrite Hp; cbn; rewrite P1, P0; reflexivity]].
    unfold orchlua_process_read.
    rewrite (bind_run self _ w (w_proc w) w eq_refl).
    cbn [process_read_loop].
    rewrite (bind_run self _ w (w_proc w) w eq_refl).
    rewrite Herr. cbn [andb negb].
    replace (bool_decide (@None Z <> None)) with false
      by (symmetry; apply bool_decide_eq_false_2; intros H; apply H; reflexivity).
    rewrite (bind_run _ _ _ _ _ Hsel). cbv iota.
    rewrite (bind_run _ _ _ _ _ Hread).
    rewrite <- Htail.
    destruct Hr as [-> | ->]; reflexivity.
Qed.
(** ** The handle that spawn returns *)

Lemma pop_some_chan fuel ipc : forall w msg w',
  orch_ipc_pop fuel ipc true w = Ok (0, Some msg) w' ->
  exists c, w_chan w' = Some c.
Proof.
  induction fuel as [|fuel IH]; intros w msg w' H; [discriminate|].
  cbn [orch_ipc_pop] in H.
  apply bind_ok in H as (c & w1 & Hc & H). apply deref_ok in Hc as (_ & -> & Hc).
  destruct (queue c) as [|m rest]; [discriminate|].
  apply bind_ok in H as ([] & w2 & Hst & H).
  unfold store, modify in Hst. injection Hst as <-.
  apply bind_ok in H as (i & w3 & Hi & H).
  assert (w3 = with_chan (Some (set_queue rest c)) w) as ->.
  { unfold callback_slot in Hi.
    destruct ((0 <=? msg_tag m - 1) && (msg_tag m - 1 <? Z.of_nat (length (callbacks c))));
      [injection Hi as _ <-; reflexivity|discriminate]. }
  destruct (default None (callbacks c !! i)) as [h|].
  - apply bind_ok in H as ([] & w4 & _ & H).
    apply bind_ok in H as (error & w5 & _ & H).
    apply bind_ok in H as ([] & w6 & _ & H).
    destruct (negb (error =? 0)); [discriminate|]. apply (IH _ _ _ H).
  - injection H as _ <-. eexists. reflexivity.
Qed.

Lemma wait_ends_chan ipc w w' : wait_ends ipc w w' -> exists c, w_chan w' = Some c.
Proof.
  intros (wl & _ & Hexit).
  destruct Hexit as [fuel wl e w' _ _ (c & Hc & _)|fuel wl r w1 msg w2 _ _ _ Hrecv _].
  - exists c. exact Hc.
  - unfold orch_ipc_recv in Hrecv.
    apply bind_ok in Hrecv as (e & wd & _ & Hrecv).
    destruct (negb (e =? 0)); [discriminate|].
    apply bind_ok in Hrecv as ([e' m] & wp & Hpop & Hrecv). cbn [fst snd] in Hrecv.
    destruct (e' =? 0) eqn:He'; [|discriminate]. apply Z.eqb_eq in He'. subst e'.
    injection Hrecv as -> <-.
    destruct (pop_some_chan _ _ _ _ _ Hpop) as [c Hc]. exists c. exact Hc.
Qed.

Section SpawnHandle.

Variable lua_number2str : Z -> string.

(** X28.  When [spawn] in the parent returns a process handle, the handle
    holds the child's pid, the pty master and the pointer to the channel
    object, which is allocated; it holds no terminal object and a status
    of zero, and is neither released nor at end-of-file, whatever it held
    before.  The socket of the channel may have reached end-of-file
    already. *)
Theorem spawn_initialises_handle fuel cmdsock newpt pid args w w' :
  pid <> 0 ->
  orchlua_spawn lua_number2str fuel cmdsock newpt pid args w = Ok SpawnHandle w' ->
  set_error false (w_proc w') =
    {| p_term := None; p_ipc := ChanPtr; p_pid := pid; p_status := 0;
       p_termctl := newpt; p_released := false; p_eof := false;
       p_error := false |} /\
  exists c, w_chan w' = Some c.
Proof.
  intros Hpid H. unfold orchlua_spawn in H.
  destruct args as [|a l]; [discriminate|].
  apply bind_ok in H as (ok & w1 & _ & H).
  apply bind_ok in H as (r & w2 & _ & H).
  destruct r as [bad|argv]; [discriminate|].
  repeat (apply bind_ok in H as ([] & ? & Hu & H);
          unfold update_proc, modify in Hu; injection Hu as <-).
  apply bind_ok in H as (error & w3 & Hspawn & H).
  destruct (error =? 0) eqn:Eerr; cbn [negb] in H; [|discriminate].
  injection H as <-. apply Z.eqb_eq in Eerr. subst error.
  unfold orch_spawn in Hspawn.
  apply bind_ok in Hspawn as ([] & ? & Hu & Hspawn).
  unfold update_proc, modify in Hu. injection Hu as <-.
  destruct (pid =? -1); [discriminate|].
  replace (pid =? 0) with false in Hspawn by (symmetry; apply Z.eqb_neq; exact Hpid).
  repeat (apply bind_ok in Hspawn as ([] & ? & Hu & Hspawn);
          unfold update_proc, modify in Hu; injection Hu as <-).
  apply bind_ok in Hspawn as (ipc & w4 & Hopen & Hspawn).
  assert (respects runs (orch_ipc_open (fst cmdsock))) as Hro
    by (unfold orch_ipc_open; runs_auto).
  destruct (respects_ok _ _ _ _ _ Hro Hopen) as [Hp4 _].
  unfold same_handle in Hp4. cbn [w_proc with_proc] in Hp4.
  apply bind_ok in Hspawn as ([] & ? & Hu & Hspawn).
  unfold update_proc, modify in Hu. injection Hu as <-.
  destruct ipc.
  - exfalso.
    repeat (apply bind_ok in Hspawn as (? & ? & _ & Hspawn)).
    discriminate.
  - split.
    + match type of Hspawn with
      | ?m _ = _ => assert (respects runs m) as Hruns by runs_auto
      end.
      destruct (respects_ok _ _ _ _ _ Hruns Hspawn) as [Hsame _].
      unfold same_handle in Hsame. rewrite Hsame. cbn [w_proc with_proc].
      change (set_ipc ChanPtr (set_error false (w_proc w4)) =
              {| p_term := None; p_ipc := ChanPtr; p_pid := pid; p_status := 0;
                 p_termctl := newpt; p_released := false; p_eof := false;
                 p_error := false |}).
      rewrite Hp4. reflexivity.
    + apply bind_ok in Hspawn as ([] & w5 & _ & Hspawn).
      apply bind_ok in Hspawn as (r & w6 & _ & Hspawn).
      apply (wait_ends_chan ChanPtr w6). apply (orch_wait_ends _ _ _ _ Hspawn).
Qed.

End SpawnHandle.

Lemma spawn_initialises_handle_witness :
  set_error false (w_proc spawned) =
    {| p_term := None; p_ipc := ChanPtr; p_pid := 100; p_status := 0;
       p_termctl := 5; p_released := false; p_eof := false; p_error := false |} /\
  exists c, w_chan spawned = Some c.
Proof.
  apply (spawn_initialises_handle (fun _ => "7"%string) 20 (3, 4) 5 100
           [LStr "cat"] (boot release_script) spawned).
  - lia.
  - vm_compute. reflexivity.
Defined.
